(** * Dependency-inference engine of ai-draw-io: a shallow embedding

    The development embeds the rule-based dependency detector
    ([src/cli/analyze-dependencies.ts]: the CLI's embedded copy and the
    library module [dependency-detector]) and the browser-side upload
    filter ([src/components/code-upload.tsx]) as Rocq functions, and
    proves the properties listed in the specification against them.

    Modelling conventions.
    - A JavaScript string is a sequence of UTF-16 code units.  The
      embedding uses [string], so a code unit ranges over 0..255 (the
      Latin-1 block); [toLowerCase], [\s], [\w] and [[A-Z]] are written
      out for that block exactly as ECMAScript defines them.
    - A JavaScript number that holds a count, a size or a score is a [Z].
    - [Array.prototype.sort] is specified to be stable; for a consistent
      comparator its result is the unique stable sorted permutation, which
      [sort] below computes by insertion.  A comparator result of NaN
      counts as [+0].  For an inconsistent comparator ECMAScript leaves
      the order to the implementation; where the program can meet one
      (the sort of [langCounts]), the host's choice is a parameter
      [engine].
    - [Map] keeps its keys in insertion order and [set] on a present key
      replaces the value in place: an association list.
    - A plain object [{}] used as a map is not a [Map]: it answers to the
      property names of [Object.prototype], ignores an assignment of a
      primitive to [__proto__], and lists array-index keys first.
    - [String.prototype.localeCompare] without arguments compares under the
      collation of the host's default locale.  It is not fixed by the
      program, so it is a parameter [localeCompare] of everything that
      sorts service names. *)

From Stdlib Require Import String Ascii List ZArith NArith Bool Lia.
From Stdlib Require Import Sorting.Sorted Sorting.Permutation.
From Stdlib Require Import Structures.OrderedTypeEx.
Import ListNotations.

Open Scope string_scope.
Open Scope Z_scope.

(* ================================================================== *)
(** ** JavaScript strings *)

Module JsString.

Definition code (c : ascii) : N := N_of_ascii c.

Definition between (lo hi : N) (c : ascii) : bool :=
  (N.leb lo (code c) && N.leb (code c) hi)%bool.

(** [[A-Z]] *)
Definition isUpperAZ (c : ascii) : bool := between 65 90 c.

(** [\w] without the [u] or [i] flag: [[A-Za-z0-9_]]. *)
Definition isWord (c : ascii) : bool :=
  (between 65 90 c || between 97 122 c || between 48 57 c
   || N.eqb (code c) 95)%bool.

(** [\s] restricted to code units below 256: TAB, LF, VT, FF, CR, SP
    and NBSP. *)
Definition isSpace (c : ascii) : bool :=
  (between 9 13 c || N.eqb (code c) 32 || N.eqb (code c) 160)%bool.

(** [[\s\S]] *)
Definition isAny (_ : ascii) : bool := true.

(** [[\w.]] *)
Definition isWordOrDot (c : ascii) : bool :=
  (isWord c || N.eqb (code c) 46)%bool.

(** Lower-casing of one code unit: A-Z, and the Latin-1 capitals
    U+00C0..U+00DE except the multiplication sign U+00D7. *)
Definition lowerChar (c : ascii) : ascii :=
  if (between 65 90 c
      || (between 192 222 c && negb (N.eqb (code c) 215)))%bool
  then ascii_of_N (code c + 32)
  else c.

Fixpoint toLowerCase (s : string) : string :=
  match s with
  | EmptyString => EmptyString
  | String c s' => String (lowerChar c) (toLowerCase s')
  end.

Definition startsWith (s p : string) : bool := String.prefix p s.

(** [s.includes(sub)]: [sub] occurs at some position of [s]. *)
Fixpoint includes (s sub : string) : bool :=
  (String.prefix sub s
   || match s with
      | EmptyString => false
      | String _ s' => includes s' sub
      end)%bool.

(** [s.endsWith(suf)] *)
Fixpoint endsWith (s suf : string) : bool :=
  (String.eqb s suf
   || match s with
      | EmptyString => false
      | String _ s' => endsWith s' suf
      end)%bool.

(** [s.replace(/suf$/, "")]: drop [suf] when [s] ends with it. *)
Fixpoint stripSuffix (suf s : string) : string :=
  if String.eqb s suf then EmptyString
  else match s with
       | EmptyString => EmptyString
       | String c s' => String c (stripSuffix suf s')
       end.

(** [/[A-Z]/.test(s)] *)
Fixpoint hasUpper (s : string) : bool :=
  match s with
  | EmptyString => false
  | String c s' => (isUpperAZ c || hasUpper s')%bool
  end.

(** [/^[A-Z]/.test(s)] *)
Definition startsUpper (s : string) : bool :=
  match s with
  | EmptyString => false
  | String c _ => isUpperAZ c
  end.

(** [s.split("/")]: never empty, [""] splits into [[""]]. *)
Fixpoint split (sep : ascii) (s : string) : list string :=
  match s with
  | EmptyString => [EmptyString]
  | String c s' =>
      if Ascii.eqb c sep then EmptyString :: split sep s'
      else match split sep s' with
           | [] => [String c EmptyString]
           | p :: ps => String c p :: ps
           end
  end.

Definition len (s : string) : Z := Z.of_nat (String.length s).

(** Comparison by code units, as a JavaScript comparator result. *)
Definition codePointCompare (a b : string) : Z :=
  match String.compare a b with
  | Lt => -1
  | Eq => 0
  | Gt => 1
  end.

End JsString.

(* ================================================================== *)
(** ** Regular expressions

    The extraction rules are regular-expression literals with the [g]
    flag, driven by [while ((match = re.exec(content)) !== null)].  The
    fragment of the pattern language they use is embedded with the
    backtracking semantics of ECMAScript: alternatives are tried left to
    right, a greedy quantifier tries the longest repetition first and a
    lazy one the shortest, and the first complete match wins.  Every
    quantifier in the rules ranges over a single character class, which
    keeps the matcher structurally recursive.  Each rule has exactly one
    capture group, on its mandatory path: a pattern is the triple of what
    comes before the group, the group, and what follows it. *)

Module Regex.
Import JsString.

Inductive regex : Type :=
| Eps
| Lit (l : string)
| Rep (p : ascii -> bool) (min : nat) (max : option nat) (greedy : bool)
| Alt (r1 r2 : regex)
| Seq (r1 r2 : regex).

Record pattern : Type := mkPattern { pre : regex; grp : regex; post : regex }.

Section Matcher.
Context {R : Type}.

(** A continuation receives the rest of the input and the number of
    code units consumed since the match started. *)
Definition cont : Type := string -> nat -> option R.

Definition orElse (a : option R) (b : option R) : option R :=
  match a with
  | Some x => Some x
  | None => b
  end.

Fixpoint lit (l s : string) (n : nat) (k : cont) : option R :=
  match l with
  | EmptyString => k s n
  | String a l' =>
      match s with
      | EmptyString => None
      | String c s' => if Ascii.eqb a c then lit l' s' (S n) k else None
      end
  end.

(** The [min] compulsory iterations of a quantifier. *)
Fixpoint mandatory (p : ascii -> bool) (min : nat) (s : string) (n : nat)
  (k : cont) : option R :=
  match min with
  | O => k s n
  | S min' =>
      match s with
      | EmptyString => None
      | String c s' => if p c then mandatory p min' s' (S n) k else None
      end
  end.

(** Iterations still allowed: [None] is unbounded. *)
Definition mayIterate (left : option nat) : bool :=
  match left with
  | Some O => false
  | _ => true
  end.

Definition oneLess (left : option nat) : option nat :=
  match left with
  | Some m => Some (Nat.pred m)
  | None => None
  end.

Fixpoint greedy (p : ascii -> bool) (left : option nat) (s : string)
  (n : nat) (k : cont) {struct s} : option R :=
  match s with
  | EmptyString => k s n
  | String c s' =>
      if (mayIterate left && p c)%bool
      then orElse (greedy p (oneLess left) s' (S n) k) (k s n)
      else k s n
  end.

Fixpoint lazy (p : ascii -> bool) (left : option nat) (s : string)
  (n : nat) (k : cont) {struct s} : option R :=
  orElse (k s n)
    match s with
    | EmptyString => None
    | String c s' =>
        if (mayIterate left && p c)%bool
        then lazy p (oneLess left) s' (S n) k
        else None
    end.

Definition optional (max : option nat) (min : nat) : option nat :=
  match max with
  | Some m => Some (m - min)%nat
  | None => None
  end.

Fixpoint run (r : regex) (s : string) (n : nat) (k : cont) : option R :=
  match r with
  | Eps => k s n
  | Lit l => lit l s n k
  | Rep p min max g =>
      mandatory p min s n
        (fun s' n' =>
           (if g then greedy else lazy) p (optional max min) s' n' k)
  | Alt r1 r2 => orElse (run r1 s n k) (run r2 s n k)
  | Seq r1 r2 => run r1 s n (fun s' n' => run r2 s' n' k)
  end.
End Matcher.

(** One attempt of the pattern at the head of [s]: the length of the
    match and the text of capture group 1.  Inside the group the count
    restarts, so that it ends as the length of the captured text. *)
Definition matchAt (pt : pattern) (s : string) : option (nat * string) :=
  run (pre pt) s 0%nat
    (fun s1 n1 =>
       run (grp pt) s1 0%nat
         (fun s2 len =>
            run (post pt) s2 (n1 + len)%nat
              (fun _ n3 => Some (n3, substring 0 len s1)))).

(** The [exec] loop of a global regular expression: the list of
    [match[1]] for the successive matches, left to right.  [exec]
    searches from [lastIndex] for the first position with a match and
    moves [lastIndex] past it; [skip] counts the positions still covered
    by the previous match.  No rule can match the empty string (each
    starts with a literal), so [lastIndex] always advances. *)
Fixpoint execAll (pt : pattern) (s : string) (skip : nat) : list string :=
  match skip with
  | S skip' =>
      match s with
      | EmptyString => []
      | String _ s' => execAll pt s' skip'
      end
  | O =>
      match matchAt pt s with
      | Some (n, g) =>
          g :: match s with
               | EmptyString => []
               | String _ s' => execAll pt s' (Nat.pred n)
               end
      | None =>
          match s with
          | EmptyString => []
          | String _ s' => execAll pt s' O
          end
      end
  end.

Definition matches (pt : pattern) (content : string) : list string :=
  execAll pt content O.

(** Shorthands for the quantifiers the rules use. *)
Definition plus (p : ascii -> bool) : regex := Rep p 1 None true.
Definition star (p : ascii -> bool) : regex := Rep p 0 None true.
Definition opt (c : ascii) : regex := Rep (Ascii.eqb c) 0 (Some 1%nat) true.
Definition upToLazy (m : nat) : regex := Rep isAny 0 (Some m) false.

Fixpoint seqs (rs : list regex) : regex :=
  match rs with
  | [] => Eps
  | [r] => r
  | r :: rs' => Seq r (seqs rs')
  end.

Fixpoint alts (ls : list string) : regex :=
  match ls with
  | [] => Lit EmptyString
  | [l] => Lit l
  | l :: ls' => Alt (Lit l) (alts ls')
  end.

(** [\w+(?:A|B|...)] *)
Definition suffixed (ls : list string) : regex := Seq (plus isWord) (alts ls).

(** [/@Provides[\s\S]{0,200}?public\s+(\w+(?:Client|Service|Lambda|Authority))\s+\w+/g] *)
Definition providesPattern : pattern :=
  {| pre := seqs [Lit "@Provides"; upToLazy 200; Lit "public"; plus isSpace];
     grp := suffixed ["Client"; "Service"; "Lambda"; "Authority"];
     post := seqs [plus isSpace; plus isWord] |}.

(** [/new\s+ClientBuilder\(\)[\s\S]{0,100}?\.remoteOf\((\w+)\.class\)/g] *)
Definition clientBuilderPattern : pattern :=
  {| pre := seqs [Lit "new"; plus isSpace; Lit "ClientBuilder()";
                  upToLazy 100; Lit ".remoteOf("];
     grp := plus isWord;
     post := Lit ".class)" |}.

(** The library's
    [/import\s+[\w.]+\.(\w+(?:Client|Service|Lambda|Authority|Resource))\s*;/g] *)
Definition importPattern : pattern :=
  {| pre := seqs [Lit "import"; plus isSpace; plus isWordOrDot; Lit "."];
     grp := suffixed ["Client"; "Service"; "Lambda"; "Authority"; "Resource"];
     post := seqs [star isSpace; Lit ";"] |}.

(** The CLI's
    [/import\s+[\w.]+\.(\w+(?:Client|Service|Lambda|Authority))\s*;/g] *)
Definition cliImportPattern : pattern :=
  {| pre := seqs [Lit "import"; plus isSpace; plus isWordOrDot; Lit "."];
     grp := suffixed ["Client"; "Service"; "Lambda"; "Authority"];
     post := seqs [star isSpace; Lit ";"] |}.

(** [/from\s+[\w.]+\s+import\s+(\w+(?:Client|Service))/g] *)
Definition pythonImportPattern : pattern :=
  {| pre := seqs [Lit "from"; plus isSpace; plus isWordOrDot; plus isSpace;
                  Lit "import"; plus isSpace];
     grp := suffixed ["Client"; "Service"];
     post := Eps |}.

(** [/import\s+\{?\s*(\w+(?:Client|Service))\s*\}?\s+from/g] *)
Definition jsImportPattern : pattern :=
  {| pre := seqs [Lit "import"; plus isSpace; opt "{"; star isSpace];
     grp := suffixed ["Client"; "Service"];
     post := seqs [star isSpace; opt "}"; plus isSpace; Lit "from"] |}.

End Regex.

(* ================================================================== *)
(** ** Arrays and maps *)

Module JsArray.
Section Sort.
Context {A : Type}.
Variable cmp : A -> A -> Z.

(** [x] precedes every element of [l] in the original array, so it
    stays in front of the elements it does not compare greater
    than. *)
Fixpoint insert (x : A) (l : list A) : list A :=
  match l with
  | [] => [x]
  | y :: l' => if cmp x y <=? 0 then x :: y :: l' else y :: insert x l'
  end.

(** [l.sort(cmp)] *)
Fixpoint sort (l : list A) : list A :=
  match l with
  | [] => []
  | x :: l' => insert x (sort l')
  end.
End Sort.

(** [l.slice(0, n)] *)
Definition slice0 {A : Type} (n : nat) (l : list A) : list A := firstn n l.
End JsArray.

Module JsMap.
Section Map.
Context {V : Type}.

Definition t : Type := list (string * V).

Definition empty : t := [].

Fixpoint get (k : string) (m : t) : option V :=
  match m with
  | [] => None
  | (k', v) :: m' => if String.eqb k' k then Some v else get k m'
  end.

(** A new key goes to the end; a present key keeps its place. *)
Fixpoint set (k : string) (v : V) (m : t) : t :=
  match m with
  | [] => [(k, v)]
  | (k', v') :: m' =>
      if String.eqb k' k then (k, v) :: m' else (k', v') :: set k v m'
  end.

Definition keys (m : t) : list string := map fst m.
Definition values (m : t) : list V := map snd m.
Definition entries (m : t) : list (string * V) := m.
End Map.
Arguments t : clear implicits.
End JsMap.

(** A plain object [{}] used as a map from strings to primitive values,
    in a realm with the standard [Object.prototype]. *)
Module JsObject.

(** The function-valued properties every plain object inherits. *)
Definition methods : list string :=
  ["constructor"; "__defineGetter__"; "__defineSetter__"; "hasOwnProperty";
   "__lookupGetter__"; "__lookupSetter__"; "isPrototypeOf";
   "propertyIsEnumerable"; "toString"; "valueOf"; "toLocaleString"].

(** The names a plain object answers to without owning them: the
    accessor [__proto__] and the methods. *)
Definition inherited : list string := "__proto__" :: methods.

Definition digit (c : ascii) : option N :=
  if JsString.between 48 57 c then Some (JsString.code c - 48)%N else None.

Fixpoint digits (s : string) (acc : N) : option N :=
  match s with
  | EmptyString => Some acc
  | String c s' =>
      match digit c with
      | Some d => digits s' (10 * acc + d)%N
      | None => None
      end
  end.

(** The array index a property key denotes: a canonical numeric string
    of a value up to [2^32 - 2]. *)
Definition arrayIndex (k : string) : option N :=
  match k with
  | EmptyString => None
  | String c rest =>
      match digit c with
      | None => None
      | Some d =>
          if (N.eqb d 0 && negb (String.eqb rest ""))%bool then None
          else match digits rest d with
               | Some n => if (n <=? 4294967294)%N then Some n else None
               | None => None
               end
      end
  end.

Section Object.
Context {V : Type}.

(** The own properties, in the order of their creation. *)
Definition t : Type := JsMap.t V.

Definition empty : t := JsMap.empty.

(** What [o[k]] finds: an own value, an inherited method,
    [Object.prototype] itself (for [__proto__]), or [undefined]. *)
Inductive Lookup : Type :=
| Own (v : V)
| Method
| Prototype
| Undefined.

Definition get (k : string) (o : t) : Lookup :=
  match JsMap.get k o with
  | Some v => Own v
  | None =>
      if String.eqb k "__proto__" then Prototype
      else if existsb (String.eqb k) methods then Method
      else Undefined
  end.

(** [o[k] = v] for a primitive [v]: the [__proto__] setter ignores a
    value that is neither an object nor [null]; any other key becomes,
    or stays, an own property. *)
Definition set (k : string) (v : V) (o : t) : t :=
  if String.eqb k "__proto__" then o else JsMap.set k v o.

Definition indexOf (e : string * V) : Z :=
  match arrayIndex (fst e) with
  | Some n => Z.of_N n
  | None => 0
  end.

Definition indexed (e : string * V) : bool :=
  match arrayIndex (fst e) with
  | Some _ => true
  | None => false
  end.

(** [Object.entries(o)]: the array-index keys in ascending numeric
    order, then the other keys in the order of their creation. *)
Definition entries (o : t) : list (string * V) :=
  JsArray.sort (fun a b => indexOf a - indexOf b) (filter indexed o)
  ++ filter (fun e => negb (indexed e)) o.
End Object.
Arguments t : clear implicits.
Arguments Lookup : clear implicits.
End JsObject.

(* ================================================================== *)
(** ** Data model *)

Inductive Source : Type := client_class | config | import | di.
Inductive Confidence : Type := high | medium | low.

Record CodeFile : Type := mkCodeFile {
  name : string;
  path : string;
  content : string;
  language : string;
  size : Z
}.

Record Dependency : Type := mkDependency {
  serviceName : string;
  source : Source;
  confidence : Confidence;
  evidence : string
}.

Module ServiceAnalysis.
Record t : Type := mk {
  serviceName : string;
  dependencies : list Dependency
}.
End ServiceAnalysis.

Definition Confidence_eqb (a b : Confidence) : bool :=
  match a, b with
  | high, high | medium, medium | low, low => true
  | _, _ => false
  end.

(** The collation of the host: [a.localeCompare(b)] is negative, zero or
    positive. *)
Definition Collation : Type := string -> string -> Z.

(** What [langCounts] holds for a language tag: a number, or the string
    that [+ 1] makes of a function, of an object or of a string.  Such a
    string starts with the text of a function or with ["[object"], so
    [Number] of it is NaN. *)
Inductive Count : Type :=
| Num (n : Z)
| Text.

(** What the host's [Array.prototype.sort] returns for an array of
    [langCounts] entries on which [(a, b) => b[1] - a[1]] is not a
    consistent comparator: ECMAScript leaves that order to the
    implementation. *)
Definition Engine : Type := list (string * Count) -> list (string * Count).

(** The rule-specific tail of the evidence template literals. *)
Definition providesEvidence (cls : string) : string := "@Provides " ++ cls.
Definition builderEvidence (cls : string) : string :=
  "ClientBuilder.remoteOf(" ++ cls ++ ")".
Definition importEvidence (cls : string) : string := "import " ++ cls.

(** [cls.replace(/Client$/, "").replace(/ServiceClient$/, "")] *)
Definition dropClientSuffixes (cls : string) : string :=
  JsString.stripSuffix "ServiceClient" (JsString.stripSuffix "Client" cls).

(** The body shared by every extraction loop: for each [match[1]],
    normalise the captured class name, test it, and push one record whose
    evidence is [`Found in ${file.name}: ...`]. *)
Definition emit (valid : string -> bool) (normalize : string -> string)
  (src : Source) (conf : Confidence) (describe : string -> string)
  (file : CodeFile) (captured : list string) : list Dependency :=
  flat_map (fun cls =>
              let depName := normalize cls in
              if valid depName
              then [mkDependency depName src conf
                      ("Found in " ++ name file ++ ": " ++ describe cls)]
              else [])
           captured.

(* ================================================================== *)
(** ** The library module (dependency-detector) *)

Module Lib.
Import JsString Regex.

Definition skipNames : list string :=
  ["src"; "main"; "java"; "app"; "lib"; "pkg"; "com"; "amazon"; "internal"].

(** The [for (let i = parts.length - 1; i >= 0; i--)] loop, over the
    segments from the last one backwards. *)
Fixpoint scanParts (partsRev : list string) : option string :=
  match partsRev with
  | [] => None
  | part :: rest =>
      if existsb (fun skip => includes (toLowerCase part) skip) skipNames
      then scanParts rest
      else if ((len part >? 3)
               && (hasUpper part
                   || includes part "Service"
                   || includes part "Gateway"
                   || includes part "Lambda"
                   || includes part "Api"
                   || includes part "API"))%bool
           then Some part
           else scanParts rest
  end.

Definition firstNamed (parts : list string) : string :=
  match filter (fun p => (negb (String.eqb p "")
                          && negb (String.eqb p "src"))%bool) parts with
  | p :: _ => p
  | [] => "UnknownService"
  end.

Definition inferServiceName (files : list CodeFile) : string :=
  match files with
  | [] => "UnknownService"
  | first :: _ =>
      let parts := split "/" (path first) in
      match scanParts (rev parts) with
      | Some part => part
      | None => firstNamed parts
      end
  end.

(** [langCounts[f.language] = (langCounts[f.language] || 0) + 1] on
    the plain object [langCounts]: a number is incremented; a string
    (truthy, as it is not empty), an inherited method and
    [Object.prototype] are concatenated with ["1"]. *)
Definition countLanguage (langCounts : JsObject.t Count) (f : CodeFile)
  : JsObject.t Count :=
  let next := match JsObject.get (language f) langCounts with
              | JsObject.Own (Num n) => Num (n + 1)
              | JsObject.Own Text => Text
              | JsObject.Method => Text
              | JsObject.Prototype => Text
              | JsObject.Undefined => Num 1
              end in
  JsObject.set (language f) next langCounts.

(** [(a, b) => b[1] - a[1]]: NaN when one of the counts is a string,
    which [sort] takes as [+0]. *)
Definition byCount (a b : string * Count) : Z :=
  match snd b, snd a with
  | Num y, Num x => y - x
  | _, _ => 0
  end.

(** Whether [byCount] is a consistent comparator for the array: comparing
    equal must be transitive (the other conditions of ECMAScript hold of
    [byCount] on every array). *)
Definition consistent (entries : list (string * Count)) : bool :=
  forallb (fun a =>
    forallb (fun b =>
      forallb (fun c =>
        implb ((byCount a b =? 0) && (byCount b c =? 0))%bool
              (byCount a c =? 0))
        entries) entries) entries.

(** [Object.entries(langCounts).sort((a, b) => b[1] - a[1])] *)
Definition sortByCount (engine : Engine) (entries : list (string * Count))
  : list (string * Count) :=
  if consistent entries then JsArray.sort byCount entries
  else engine entries.

Definition detectPrimaryLanguage (engine : Engine) (files : list CodeFile)
  : string :=
  let langCounts := fold_left countLanguage files JsObject.empty in
  let sorted := sortByCount engine (JsObject.entries langCounts) in
  match sorted with
  | (l, _) :: _ => if String.eqb l "" then "unknown" else l
  | [] => "unknown"
  end.

Definition when (b : bool) (points : Z) : Z := if b then points else 0.

(** The body of the scoring loop of [selectKeyFiles]. *)
Definition scoreOf (file : CodeFile) : Z :=
  let path := toLowerCase (path file) in
  let name := toLowerCase (name file) in
  let preview := toLowerCase (substring 0 3000 (content file)) in
  when (includes path "/module/") 15
  + when (includes path "/config/") 12
  + when (includes path "/accessor/") 10
  + when (includes path "/client/") 8
  + when (includes name "clientmodule") 20
  + when (includes name "client" && includes name "config") 15
  + when (endsWith name "module.java") 15
  + when (endsWith name "config.java") 12
  + when (includes preview "@provides") 25
  + when (includes preview "@bean") 25
  + when (includes preview "clientbuilder") 20
  + when (includes preview "client;") 5
  + when ((size file >? 500) && (size file <? 100000)) 3.

Definition scoredFiles (files : list CodeFile) : list (CodeFile * Z) :=
  flat_map (fun file =>
              let score := scoreOf file in
              if score >? 0 then [(file, score)] else [])
           files.

Definition selectKeyFiles (files : list CodeFile) (_language : string)
  : list CodeFile :=
  map fst
    (JsArray.slice0 15
       (JsArray.sort (fun a b => snd b - snd a) (scoredFiles files))).

Definition stoplist : list string :=
  ["String"; "Integer"; "Boolean"; "Object"; "List"; "Map"; "Set"; "Array";
   "Http"; "Rest"; "Json"; "Xml"; "Builder"].

Definition isValidServiceName (name : string) : bool :=
  ((len name >? 2)
   && (len name <? 100)
   && startsUpper name
   && negb (existsb (String.eqb name) stoplist)
   && negb (endsWith name "Builder")
   && negb (endsWith name "Factory")
   && negb (endsWith name "Utils")
   && negb (endsWith name "Helper"))%bool.

Definition extractJavaDependencies (file : CodeFile) : list Dependency :=
  let content := content file in
  emit isValidServiceName dropClientSuffixes client_class high
    providesEvidence file (matches providesPattern content)
  ++ emit isValidServiceName (stripSuffix "Client") client_class high
       builderEvidence file (matches clientBuilderPattern content)
  ++ emit isValidServiceName
       (fun cls => stripSuffix "Resource" (dropClientSuffixes cls))
       import medium importEvidence file (matches importPattern content).

Definition extractPythonDependencies (file : CodeFile) : list Dependency :=
  emit isValidServiceName (stripSuffix "Client") import high
    importEvidence file (matches pythonImportPattern (content file)).

Definition extractJavaScriptDependencies (file : CodeFile)
  : list Dependency :=
  emit isValidServiceName (stripSuffix "Client") import high
    importEvidence file (matches jsImportPattern (content file)).

Definition extractDependencies (files : list CodeFile) (lang : string)
  : list Dependency :=
  flat_map
    (fun file =>
       ((if (String.eqb (language file) "java" || String.eqb lang "java")%bool
         then extractJavaDependencies file else [])
        ++ (if (String.eqb (language file) "python"
                || String.eqb lang "python")%bool
            then extractPythonDependencies file else [])
        ++ (if (String.eqb (language file) "typescript"
                || String.eqb (language file) "javascript")%bool
            then extractJavaScriptDependencies file else []))%list)
    files.

Definition confidenceRank (c : Confidence) : Z :=
  match c with
  | high => 3
  | medium => 2
  | low => 1
  end.

Definition mergeOne (serviceMap : JsMap.t Dependency) (dep : Dependency)
  : JsMap.t Dependency :=
  match JsMap.get (serviceName dep) serviceMap with
  | None => JsMap.set (serviceName dep) dep serviceMap
  | Some existing =>
      if confidenceRank (confidence dep)
         >? confidenceRank (confidence existing)
      then JsMap.set (serviceName dep) dep serviceMap
      else serviceMap
  end.

Section WithCollation.
Variable localeCompare : Collation.
Variable engine : Engine.

Definition byName (a b : Dependency) : Z :=
  localeCompare (serviceName a) (serviceName b).

Definition deduplicateAndClean (dependencies : list Dependency)
  : list Dependency :=
  let serviceMap := fold_left mergeOne dependencies JsMap.empty in
  JsArray.sort byName (JsMap.values serviceMap).

Definition analyzeServiceDependencies (files : list CodeFile)
  : ServiceAnalysis.t :=
  let serviceName := inferServiceName files in
  let language := detectPrimaryLanguage engine files in
  let keyFiles := selectKeyFiles files language in
  let dependencies := extractDependencies keyFiles language in
  let uniqueDeps := deduplicateAndClean dependencies in
  ServiceAnalysis.mk serviceName uniqueDeps.
End WithCollation.

End Lib.

(* ================================================================== *)
(** ** The CLI's embedded copy *)

Module Cli.
Import JsString Regex.

Definition skipNames : list string :=
  ["src"; "main"; "java"; "app"; "lib"; "pkg"; "com"; "amazon"; "internal"].

Fixpoint scanParts (partsRev : list string) : option string :=
  match partsRev with
  | [] => None
  | part :: rest =>
      if existsb (fun skip => includes (toLowerCase part) skip) skipNames
      then scanParts rest
      else if ((len part >? 3)
               && (hasUpper part
                   || includes part "Service"
                   || includes part "Gateway"))%bool
           then Some part
           else scanParts rest
  end.

Definition firstNamed (parts : list string) : string :=
  match filter (fun p => (negb (String.eqb p "")
                          && negb (String.eqb p "src"))%bool) parts with
  | p :: _ => p
  | [] => "UnknownService"
  end.

Definition inferServiceName (files : list CodeFile) : string :=
  match files with
  | [] => "UnknownService"
  | first :: _ =>
      let parts := split "/" (path first) in
      match scanParts (rev parts) with
      | Some part => part
      | None => firstNamed parts
      end
  end.

(** [depName.length > 2 && depName.length < 100] *)
Definition lengthOk (depName : string) : bool :=
  ((len depName >? 2) && (len depName <? 100))%bool.

(** The three rules applied to one file whose language is ["java"]. *)
Definition javaRules (file : CodeFile) : list Dependency :=
  let content := content file in
  emit lengthOk dropClientSuffixes client_class high
    providesEvidence file (matches providesPattern content)
  ++ emit lengthOk (stripSuffix "Client") client_class high
       builderEvidence file (matches clientBuilderPattern content)
  ++ emit lengthOk dropClientSuffixes import medium
       importEvidence file (matches cliImportPattern content).

(** The [for (const file of files)] loop: the array [dependencies]
    before deduplication. *)
Definition collect (files : list CodeFile) : list Dependency :=
  flat_map (fun file =>
              if String.eqb (language file) "java" then javaRules file
              else [])
           files.

(** [!existing || (dep.confidence === "high" &&
    existing.confidence !== "high")] *)
Definition mergeOne (serviceMap : JsMap.t Dependency) (dep : Dependency)
  : JsMap.t Dependency :=
  match JsMap.get (serviceName dep) serviceMap with
  | None => JsMap.set (serviceName dep) dep serviceMap
  | Some existing =>
      if (Confidence_eqb (confidence dep) high
          && negb (Confidence_eqb (confidence existing) high))%bool
      then JsMap.set (serviceName dep) dep serviceMap
      else serviceMap
  end.

Section WithCollation.
Variable localeCompare : Collation.

Definition byName (a b : Dependency) : Z :=
  localeCompare (serviceName a) (serviceName b).

(** The inline "Deduplicate" block and the sort of the returned
    array. *)
Definition deduplicate (dependencies : list Dependency)
  : list Dependency :=
  let serviceMap := fold_left mergeOne dependencies JsMap.empty in
  JsArray.sort byName (JsMap.values serviceMap).

Definition analyzeServiceDependencies (files : list CodeFile)
  : ServiceAnalysis.t :=
  let serviceName := inferServiceName files in
  let dependencies := collect files in
  ServiceAnalysis.mk serviceName (deduplicate dependencies).
End WithCollation.

End Cli.

(* ================================================================== *)
(** ** The file walker of the CLI *)

Module Walker.
Import JsString.

Definition CODE_EXTENSIONS : list string :=
  [".java"; ".py"; ".ts"; ".js"; ".jsx"; ".tsx"; ".go"; ".cpp"; ".c"; ".h";
   ".cs"; ".rb"; ".php"; ".swift"; ".kt"; ".rs"; ".scala"].

Definition IGNORE_DIRS : list string :=
  ["node_modules"; ".git"; ".venv"; "venv"; "__pycache__"; ".pytest_cache";
   "dist"; "build"; "target"; ".idea"; ".vscode"; "bin"; "obj"; ".gradle";
   "out"].

Definition languageMap : JsMap.t string :=
  [(".py", "python"); (".js", "javascript"); (".ts", "typescript");
   (".jsx", "javascript"); (".tsx", "typescript"); (".java", "java");
   (".go", "go"); (".cpp", "cpp"); (".c", "c"); (".rb", "ruby");
   (".php", "php"); (".swift", "swift"); (".kt", "kotlin"); (".rs", "rust");
   (".cs", "csharp")].

(** [map[ext] || "text"], for an [ext] that is no inherited property
    name of the plain object [map]: every [ext] the callers pass starts
    with a dot. *)
Definition detectLanguage (ext : string) : string :=
  match JsMap.get ext languageMap with
  | Some l => l
  | None => "text"
  end.

(** [name.substring(name.lastIndexOf("."))]; the whole name when it has
    no dot. *)
Fixpoint extension (name : string) : string :=
  match name with
  | EmptyString => EmptyString
  | String _ rest => if includes rest "." then extension rest else name
  end.

(** What the walker observes of the file system: [readdirSync] lists a
    directory or throws, [statSync] gives a size, [readFileSync] gives
    the text or throws. *)
#[warnings="-register-all"]
Inductive Entry : Type :=
| File (name : string) (size : Z) (text : option string)
| Dir (name : string) (listing : option (list Entry)).

(** [relative(baseDir, join(dir, entry.name))] with posix separators. *)
Definition child (rel name : string) : string :=
  if String.eqb rel "" then name else rel ++ "/" ++ name.

Fixpoint scanEntry (rel : string) (entry : Entry) : list CodeFile :=
  match entry with
  | Dir name listing =>
      if existsb (String.eqb name) IGNORE_DIRS then []
      else match listing with
           | Some entries => flat_map (scanEntry (child rel name)) entries
           | None => []
           end
  | File name size text =>
      if negb (existsb (endsWith name) CODE_EXTENSIONS) then []
      else if size >? 5 * 1024 * 1024 then []
      else if size =? 0 then []
      else match text with
           | Some content =>
               [mkCodeFile name (child rel name) content
                  (detectLanguage (extension name)) size]
           | None => []
           end
  end.

Definition scanDirectory (root : option (list Entry)) : list CodeFile :=
  match root with
  | Some entries => flat_map (scanEntry "") entries
  | None => []
  end.

(** The relative path of the directory reached through [trail]. *)
Definition joinPath (trail : list string) : string :=
  fold_left child trail "".

End Walker.

(* ================================================================== *)
(** ** The upload component's path filter *)

Module Upload.
Import JsString.

Definition IGNORE_PATTERNS : list string :=
  ["node_modules"; ".git"; ".venv"; "venv"; "__pycache__"; ".pytest_cache";
   "dist"; "build"; "target"; ".idea"; ".vscode"; "bin"; "obj"; ".gradle"].

Definition shouldIgnore (path : string) : bool :=
  existsb (fun pattern =>
             (includes path ("/" ++ pattern ++ "/")
              || startsWith path (pattern ++ "/"))%bool)
          IGNORE_PATTERNS.

End Upload.

(* ================================================================== *)
(** ** Two collations

    [codePointCollation] orders strings by code units.  [caseFoldCollation]
    orders them the way the collation of a language locale does: letters
    first compare without regard to case, and case only breaks ties, the
    lower-case letter first. *)

Definition codePointCollation : Collation := JsString.codePointCompare.

Definition caseFoldCollation : Collation :=
  fun a b =>
    let c := JsString.codePointCompare (JsString.toLowerCase a)
                                       (JsString.toLowerCase b) in
    if c =? 0 then JsString.codePointCompare b a else c.

(** An engine that sorts every array with the stable insertion sort. *)
Definition insertionEngine : Engine := JsArray.sort Lib.byCount.

(** A comparator [sort] can rely on: any two names are comparable and the
    order is transitive. *)
Record Consistent (cmp : Collation) : Prop := mkConsistent {
  cmp_total : forall a b, cmp a b <= 0 \/ cmp b a <= 0;
  cmp_trans : forall a b c, cmp a b <= 0 -> cmp b c <= 0 -> cmp a c <= 0
}.

Definition sortedBy (cmp : Collation) (out : list Dependency) : Prop :=
  StronglySorted (fun a b => cmp (serviceName a) (serviceName b) <= 0) out.

(* ================================================================== *)
(** * Properties *)

(** ** Facts about [sort] *)

Module SortFacts.
Import JsArray.

Section Generic.
Context {A : Type}.
Variable cmp : A -> A -> Z.

Definition notAfter (a b : A) : Prop := cmp a b <= 0.

Lemma insert_perm (x : A) (l : list A) :
  Permutation (insert cmp x l) (x :: l).
Proof.
  induction l as [|y l IH]; simpl.
  - apply Permutation_refl.
  - destruct (cmp x y <=? 0).
    + apply Permutation_refl.
    + eapply perm_trans; [apply perm_skip, IH | apply perm_swap].
Qed.

Lemma sort_perm (l : list A) : Permutation (sort cmp l) l.
Proof.
  induction l as [|x l IH]; simpl.
  - constructor.
  - eapply perm_trans; [apply insert_perm | apply perm_skip, IH].
Qed.

Lemma sort_In (l : list A) (x : A) : In x (sort cmp l) <-> In x l.
Proof.
  split; apply Permutation_in;
    [apply sort_perm | apply Permutation_sym, sort_perm].
Qed.

Lemma sort_length (l : list A) : length (sort cmp l) = length l.
Proof. apply Permutation_length, sort_perm. Qed.

Hypothesis cmp_total : forall a b, cmp a b <= 0 \/ cmp b a <= 0.

Lemma insert_sorted (x : A) (l : list A) :
  Sorted notAfter l -> Sorted notAfter (insert cmp x l).
Proof.
  induction 1 as [|y l Hs IH Hd]; simpl.
  - repeat constructor.
  - destruct (cmp x y <=? 0) eqn:E.
    + apply Z.leb_le in E. repeat constructor; assumption.
    + apply Z.leb_gt in E.
      assert (Hyx : notAfter y x)
        by (destruct (cmp_total x y); [lia | assumption]).
      constructor; [assumption|].
      destruct Hd as [|z l' Hyz]; simpl.
      * repeat constructor; assumption.
      * destruct (cmp x z <=? 0); constructor; assumption.
Qed.

Lemma sort_sorted (l : list A) : Sorted notAfter (sort cmp l).
Proof.
  induction l as [|x l IH]; simpl.
  - constructor.
  - apply insert_sorted, IH.
Qed.
End Generic.

Lemma Sorted_weaken {A : Type} (R R' : A -> A -> Prop) (l : list A) :
  (forall a b, R a b -> R' a b) -> Sorted R l -> Sorted R' l.
Proof.
  intros Himp. induction 1 as [|a l Hs IH Hd]; constructor.
  - exact IH.
  - destruct Hd; constructor. apply Himp. assumption.
Qed.

(** Sorting by a numeric key, largest first: [(a, b) => key(b) - key(a)]. *)
Section ByKeyDescending.
Context {A : Type}.
Variable key : A -> Z.

Definition descending (a b : A) : Z := key b - key a.

Definition hasKey (s : Z) (a : A) : bool := key a =? s.

Lemma descending_total (a b : A) :
  descending a b <= 0 \/ descending b a <= 0.
Proof. unfold descending. lia. Qed.

Lemma sort_descending (l : list A) :
  StronglySorted (fun a b => key b <= key a) (sort descending l).
Proof.
  apply Sorted_StronglySorted.
  - intros a b c Hab Hbc. exact (Z.le_trans _ _ _ Hbc Hab).
  - apply Sorted_weaken with (R := notAfter descending).
    + unfold notAfter, descending. intros a b Hab. lia.
    + apply sort_sorted, descending_total.
Qed.

(** Stability: the elements with a given key keep their order. *)
Lemma insert_stable (s : Z) (x : A) (l : list A) :
  filter (hasKey s) (insert descending x l) = filter (hasKey s) (x :: l).
Proof.
  induction l as [|y l IH]; [reflexivity|].
  simpl insert. destruct (descending x y <=? 0) eqn:E; [reflexivity|].
  apply Z.leb_gt in E. unfold descending in E.
  change (filter (hasKey s) (y :: insert descending x l))
    with (if hasKey s y
          then y :: filter (hasKey s) (insert descending x l)
          else filter (hasKey s) (insert descending x l)).
  rewrite IH. simpl. unfold hasKey.
  destruct (key y =? s) eqn:Ey, (key x =? s) eqn:Ex; try reflexivity.
  apply Z.eqb_eq in Ey, Ex. lia.
Qed.

Lemma sort_stable (s : Z) (l : list A) :
  filter (hasKey s) (sort descending l) = filter (hasKey s) l.
Proof.
  induction l as [|x l IH]; [reflexivity|].
  simpl sort. rewrite insert_stable. simpl. rewrite IH. reflexivity.
Qed.
End ByKeyDescending.

(** [sort] commutes with a relation the comparator cannot tell apart. *)
Section Related.
Context {A B : Type}.
Variables (cmpA : A -> A -> Z) (cmpB : B -> B -> Z) (R : A -> B -> Prop).
Hypothesis cmp_related :
  forall a a' b b', R a b -> R a' b' -> cmpA a a' = cmpB b b'.

Lemma insert_related (x : A) (y : B) (l : list A) (m : list B) :
  R x y -> Forall2 R l m -> Forall2 R (insert cmpA x l) (insert cmpB y m).
Proof.
  intros Hxy H. induction H as [|a b l m Hab H IH]; simpl.
  - repeat constructor; assumption.
  - rewrite (cmp_related x a y b Hxy Hab).
    destruct (cmpB y b <=? 0); repeat constructor; assumption.
Qed.

Lemma sort_related (l : list A) (m : list B) :
  Forall2 R l m -> Forall2 R (sort cmpA l) (sort cmpB m).
Proof.
  induction 1; simpl; [constructor | apply insert_related; assumption].
Qed.
End Related.

End SortFacts.

(** ** Facts about [JsMap] *)

Module MapFacts.
Import JsMap.

Section Facts.
Context {V : Type}.
Implicit Types (m : t V) (k : string) (v : V).

Lemma get_set_same k v m : get k (set k v m) = Some v.
Proof.
  induction m as [|[k' v'] m IH]; simpl.
  - rewrite String.eqb_refl. reflexivity.
  - destruct (String.eqb k' k) eqn:E; simpl.
    + rewrite String.eqb_refl. reflexivity.
    + rewrite E. exact IH.
Qed.

Lemma get_set_other k k' v m :
  k <> k' -> get k' (set k v m) = get k' m.
Proof.
  intros Hne. induction m as [|[k0 v0] m IH]; simpl.
  - apply String.eqb_neq in Hne. rewrite Hne. reflexivity.
  - destruct (String.eqb k0 k) eqn:E; simpl.
    + apply String.eqb_eq in E. subst k0.
      apply String.eqb_neq in Hne. rewrite Hne. reflexivity.
    + rewrite IH. reflexivity.
Qed.

Lemma get_In k v m : get k m = Some v -> In (k, v) m.
Proof.
  induction m as [|[k' v'] m IH]; simpl; [discriminate|].
  destruct (String.eqb k' k) eqn:E.
  - apply String.eqb_eq in E. intros [= ->]. left. congruence.
  - intros H. right. apply IH, H.
Qed.

Lemma get_None k m : get k m = None -> ~ In k (keys m).
Proof.
  induction m as [|[k' v'] m IH]; simpl; [tauto|].
  destruct (String.eqb k' k) eqn:E; [discriminate|].
  apply String.eqb_neq in E. intros H [Hk|Hk]; [congruence|].
  exact (IH H Hk).
Qed.

Lemma In_get k v m : NoDup (keys m) -> In (k, v) m -> get k m = Some v.
Proof.
  induction m as [|[k' v'] m IH]; simpl; [tauto|].
  intros Hnd [Heq|Hin].
  - injection Heq as -> ->. rewrite String.eqb_refl. reflexivity.
  - inversion Hnd as [|? ? Hnotin Hnd']; subst.
    destruct (String.eqb k' k) eqn:E.
    + apply String.eqb_eq in E. subst k'. exfalso. apply Hnotin.
      change k with (fst (k, v)). apply in_map. exact Hin.
    + apply IH; assumption.
Qed.

Lemma In_set k v m k' v' :
  In (k', v') (set k v m) -> (k' = k /\ v' = v) \/ In (k', v') m.
Proof.
  induction m as [|[k0 v0] m IH]; simpl.
  - intros [[= <- <-]|[]]. left. split; reflexivity.
  - destruct (String.eqb k0 k) eqn:E; simpl.
    + intros [[= <- <-]|H]; [left; split; reflexivity | right; right; exact H].
    + intros [H|H]; [right; left; exact H|].
      destruct (IH H) as [?|?]; [left | right; right]; assumption.
Qed.

Lemma In_keys_set k v m k' :
  In k' (keys (set k v m)) <-> k' = k \/ In k' (keys m).
Proof.
  induction m as [|[k0 v0] m IH]; simpl.
  - intuition congruence.
  - destruct (String.eqb k0 k) eqn:E; simpl.
    + apply String.eqb_eq in E. subst k0. intuition congruence.
    + rewrite IH. intuition congruence.
Qed.

Lemma NoDup_keys_set k v m : NoDup (keys m) -> NoDup (keys (set k v m)).
Proof.
  induction m as [|[k0 v0] m IH]; simpl.
  - intros _. repeat constructor. simpl. tauto.
  - intros Hnd. inversion Hnd as [|? ? Hnotin Hnd']; subst.
    destruct (String.eqb k0 k) eqn:E; simpl.
    + apply String.eqb_eq in E. subst k0. constructor; assumption.
    + apply String.eqb_neq in E. constructor; [|apply IH, Hnd'].
      fold (keys (set k v m)). rewrite In_keys_set.
      intros [H|H]; [congruence | exact (Hnotin H)].
Qed.
End Facts.
End MapFacts.

(** ** The deduplicating fold

    Both copies fold the candidates into a map keyed by [serviceName] and
    differ only in the test that lets a later candidate replace the
    stored one. *)

Module Resolver.
Import JsMap MapFacts.
Local Open Scope list_scope.

Definition rank (d : Dependency) : Z := Lib.confidenceRank (confidence d).



Definition coversNames (cands out : list Dependency) : Prop :=
  forall c, In c cands -> exists d, In d out /\ serviceName d = serviceName c.

Section Merge.
Variable replaces : Dependency -> Dependency -> bool.

Definition mergeWith (serviceMap : JsMap.t Dependency) (dep : Dependency)
  : JsMap.t Dependency :=
  match get (serviceName dep) serviceMap with
  | None => set (serviceName dep) dep serviceMap
  | Some existing =>
      if replaces dep existing
      then set (serviceName dep) dep serviceMap
      else serviceMap
  end.

Record Inv (seen : list Dependency) (m : JsMap.t Dependency) : Prop :=
  mkInv {
    inv_nodup : NoDup (keys m);
    inv_named : forall k v, In (k, v) m -> serviceName v = k;
    inv_seen : forall k v, In (k, v) m -> In v seen;
    inv_kept : forall d, In d seen -> get (serviceName d) m <> None
  }.

Lemma Inv_empty : Inv [] empty.
Proof.
  split; simpl; try tauto. constructor.
Qed.

Lemma Inv_set (seen : list Dependency) (m : JsMap.t Dependency)
  (d : Dependency) :
  Inv seen m -> Inv (seen ++ [d]) (set (serviceName d) d m).
Proof.
  intros [Hnd Hnamed Hseen Hkept]. split.
  - apply NoDup_keys_set, Hnd.
  - intros k v H. apply In_set in H. destruct H as [[-> ->]|H];
      [reflexivity | eauto].
  - intros k v H. apply in_or_app. apply In_set in H.
    destruct H as [[-> ->]|H]; [right; left; reflexivity | left; eauto].
  - intros x Hx. apply in_app_or in Hx.
    destruct (string_dec (serviceName d) (serviceName x)) as [E|E].
    + rewrite <- E, get_set_same. discriminate.
    + rewrite get_set_other by exact E.
      destruct Hx as [Hx|[<-|[]]]; [apply Hkept, Hx | congruence].
Qed.

Lemma Inv_step (seen : list Dependency) (m : JsMap.t Dependency)
  (d : Dependency) :
  Inv seen m -> Inv (seen ++ [d]) (mergeWith m d).
Proof.
  intros HI. unfold mergeWith.
  destruct (get (serviceName d) m) as [e|] eqn:G;
    [destruct (replaces d e)|]; try (apply Inv_set, HI).
  destruct HI as [Hnd Hnamed Hseen Hkept]. split; auto.
  - intros k v H. apply in_or_app. left. eauto.
  - intros x Hx. apply in_app_or in Hx.
    destruct Hx as [Hx|[<-|[]]]; [apply Hkept, Hx | congruence].
Qed.

Lemma Inv_fold (ds : list Dependency) :
  forall seen m, Inv seen m ->
    Inv (seen ++ ds) (fold_left mergeWith ds m).
Proof.
  induction ds as [|d ds IH]; intros seen m HI; simpl.
  - rewrite app_nil_r. exact HI.
  - change (d :: ds) with ([d] ++ ds). rewrite app_assoc.
    apply IH, Inv_step, HI.
Qed.

(** The replacement test is sound on the candidates satisfying [ok]. *)
Variable ok : Dependency -> Prop.
Hypothesis replaces_up :
  forall d e, replaces d e = true -> rank e <= rank d.
Hypothesis keeps_max :
  forall d e, ok d -> ok e -> replaces d e = false -> rank d <= rank e.

Definition Dominates (seen : list Dependency) (m : JsMap.t Dependency)
  : Prop :=
  forall d, In d seen ->
    exists v, get (serviceName d) m = Some v /\ rank d <= rank v.

Lemma Dominates_step (seen : list Dependency) (m : JsMap.t Dependency)
  (d : Dependency) :
  Inv seen m -> Forall ok (seen ++ [d]) ->
  Dominates seen m -> Dominates (seen ++ [d]) (mergeWith m d).
Proof.
  intros HI Hok HD x Hx. unfold mergeWith.
  rewrite Forall_forall in Hok.
  apply in_app_or in Hx.
  destruct (get (serviceName d) m) as [e|] eqn:G.
  - destruct (replaces d e) eqn:Rp.
    + destruct (string_dec (serviceName d) (serviceName x)) as [E|E].
      * rewrite <- E, get_set_same. exists d. split; [reflexivity|].
        destruct Hx as [Hx|[<-|[]]]; [|lia].
        destruct (HD x Hx) as (v & Gv & Hv).
        rewrite <- E, G in Gv. injection Gv as <-.
        specialize (replaces_up d e Rp). lia.
      * rewrite get_set_other by exact E.
        destruct Hx as [Hx|[<-|[]]]; [apply HD, Hx | congruence].
    + destruct Hx as [Hx|[<-|[]]]; [apply HD, Hx|].
      exists e. split; [exact G|].
      apply keeps_max; [| |exact Rp].
      * apply Hok, in_or_app. right. left. reflexivity.
      * apply Hok, in_or_app. left.
        apply (inv_seen _ _ HI (serviceName d)), get_In, G.
  - destruct (string_dec (serviceName d) (serviceName x)) as [E|E].
    + rewrite <- E, get_set_same. exists d. split; [reflexivity|].
      destruct Hx as [Hx|[<-|[]]]; [|lia].
      destruct (HD x Hx) as (v & Gv & _). congruence.
    + rewrite get_set_other by exact E.
      destruct Hx as [Hx|[<-|[]]]; [apply HD, Hx | congruence].
Qed.


Section Resolve.
Variable cmp : Dependency -> Dependency -> Z.

Definition resolve (cands : list Dependency) : list Dependency :=
  JsArray.sort cmp (values (fold_left mergeWith cands empty)).


Lemma In_values (m : JsMap.t Dependency) (v : Dependency) :
  In v (values m) <-> exists k, In (k, v) m.
Proof.
  unfold values. rewrite in_map_iff. split.
  - intros ([k v'] & E & H). simpl in E. subst v'. eauto.
  - intros (k & H). exists (k, v). auto.
Qed.


Lemma resolve_subset (cands : list Dependency) (d : Dependency) :
  In d (resolve cands) -> In d cands.
Proof.
  unfold resolve. rewrite SortFacts.sort_In, In_values.
  intros (k & H).
  pose proof (Inv_fold cands [] empty Inv_empty) as HI. simpl in HI.
  exact (inv_seen _ _ HI k d H).
Qed.

Lemma resolve_covers (cands : list Dependency) :
  coversNames cands (resolve cands).
Proof.
  intros c Hc. unfold resolve.
  pose proof (Inv_fold cands [] empty Inv_empty) as HI. simpl in HI.
  pose proof (inv_kept _ _ HI c Hc) as Hk.
  destruct (get (serviceName c) (fold_left mergeWith cands empty))
    as [v|] eqn:G; [|congruence].
  apply get_In in G. exists v. split.
  - rewrite SortFacts.sort_In, In_values. eauto.
  - apply (inv_named _ _ HI _ _ G).
Qed.

End Resolve.
End Merge.

(** The two replacement tests. *)
Definition libReplaces (dep existing : Dependency) : bool :=
  Lib.confidenceRank (confidence dep)
  >? Lib.confidenceRank (confidence existing).

Definition cliReplaces (dep existing : Dependency) : bool :=
  (Confidence_eqb (confidence dep) high
   && negb (Confidence_eqb (confidence existing) high))%bool.

Lemma lib_resolve (cmp : Collation) (cands : list Dependency) :
  Lib.deduplicateAndClean cmp cands
  = resolve libReplaces (Lib.byName cmp) cands.
Proof. reflexivity. Qed.

Lemma cli_resolve (cmp : Collation) (cands : list Dependency) :
  Cli.deduplicate cmp cands = resolve cliReplaces (Cli.byName cmp) cands.
Proof. reflexivity. Qed.

Definition notLow (d : Dependency) : Prop := confidence d <> low.


Lemma libReplaces_max (d e : Dependency) :
  True -> True -> libReplaces d e = false -> rank d <= rank e.
Proof. unfold libReplaces, rank. lia. Qed.


Lemma cliReplaces_max (d e : Dependency) :
  notLow d -> notLow e -> cliReplaces d e = false -> rank d <= rank e.
Proof.
  unfold cliReplaces, rank, notLow.
  destruct (confidence d), (confidence e); simpl; intros;
    lia || discriminate || congruence.
Qed.

End Resolver.

(** ** Facts about the extraction rules *)

Module ExtractFacts.
Import JsString Regex.
Local Open Scope list_scope.

Definition highOrMedium (d : Dependency) : Prop :=
  confidence d = high \/ confidence d = medium.

Lemma emit_In (valid : string -> bool) (normalize : string -> string)
  (src : Source) (conf : Confidence) (describe : string -> string)
  (file : CodeFile) (captured : list string) (d : Dependency) :
  In d (emit valid normalize src conf describe file captured) <->
  exists cls,
    In cls captured /\ valid (normalize cls) = true /\
    d = mkDependency (normalize cls) src conf
          ("Found in " ++ name file ++ ": " ++ describe cls)%string.
Proof.
  unfold emit. rewrite in_flat_map. split.
  - intros (cls & Hin & Hd). exists cls.
    destruct (valid (normalize cls)); [|destruct Hd].
    destruct Hd as [<-|[]]. auto.
  - intros (cls & Hin & Hv & ->). exists cls. split; [exact Hin|].
    rewrite Hv. left. reflexivity.
Qed.

Lemma emit_confidence valid normalize src conf describe file captured :
  Forall (fun d => confidence d = conf)
    (emit valid normalize src conf describe file captured).
Proof.
  apply Forall_forall. intros d Hd. apply emit_In in Hd.
  destruct Hd as (cls & _ & _ & ->). reflexivity.
Qed.

Lemma emit_valid valid normalize src conf describe file captured :
  Forall (fun d => valid (serviceName d) = true)
    (emit valid normalize src conf describe file captured).
Proof.
  apply Forall_forall. intros d Hd. apply emit_In in Hd.
  destruct Hd as (cls & _ & Hv & ->). exact Hv.
Qed.

Local Ltac by_rule lem :=
  repeat (apply Forall_app; split);
  (eapply Forall_impl; [|apply lem]); cbv beta; intros d Hd;
  try exact Hd; unfold highOrMedium; rewrite Hd; auto.

Lemma java_confidence (f : CodeFile) :
  Forall highOrMedium (Lib.extractJavaDependencies f).
Proof. unfold Lib.extractJavaDependencies. by_rule emit_confidence. Qed.

Lemma python_confidence (f : CodeFile) :
  Forall highOrMedium (Lib.extractPythonDependencies f).
Proof. unfold Lib.extractPythonDependencies. by_rule emit_confidence. Qed.

Lemma javascript_confidence (f : CodeFile) :
  Forall highOrMedium (Lib.extractJavaScriptDependencies f).
Proof. unfold Lib.extractJavaScriptDependencies. by_rule emit_confidence. Qed.

Lemma cli_confidence (f : CodeFile) :
  Forall highOrMedium (Cli.javaRules f).
Proof. unfold Cli.javaRules. by_rule emit_confidence. Qed.

Lemma java_valid (f : CodeFile) :
  Forall (fun d => Lib.isValidServiceName (serviceName d) = true)
    (Lib.extractJavaDependencies f).
Proof. unfold Lib.extractJavaDependencies. by_rule emit_valid. Qed.

Lemma python_valid (f : CodeFile) :
  Forall (fun d => Lib.isValidServiceName (serviceName d) = true)
    (Lib.extractPythonDependencies f).
Proof. unfold Lib.extractPythonDependencies. by_rule emit_valid. Qed.

Lemma javascript_valid (f : CodeFile) :
  Forall (fun d => Lib.isValidServiceName (serviceName d) = true)
    (Lib.extractJavaScriptDependencies f).
Proof. unfold Lib.extractJavaScriptDependencies. by_rule emit_valid. Qed.

Lemma cli_lengthOk (f : CodeFile) :
  Forall (fun d => Cli.lengthOk (serviceName d) = true) (Cli.javaRules f).
Proof. unfold Cli.javaRules. by_rule emit_valid. Qed.

Lemma Forall_flat_map {A B : Type} (P : B -> Prop) (g : A -> list B)
  (l : list A) :
  (forall a, In a l -> Forall P (g a)) -> Forall P (flat_map g l).
Proof.
  intros H. apply Forall_forall. intros b Hb.
  apply in_flat_map in Hb. destruct Hb as (a & Ha & Hb).
  specialize (H a Ha). rewrite Forall_forall in H. auto.
Qed.

(** Whatever the rules have in common holds of every candidate the
    library collects. *)
Lemma extractDependencies_Forall (P : Dependency -> Prop) :
  (forall f, Forall P (Lib.extractJavaDependencies f)) ->
  (forall f, Forall P (Lib.extractPythonDependencies f)) ->
  (forall f, Forall P (Lib.extractJavaScriptDependencies f)) ->
  forall files lang, Forall P (Lib.extractDependencies files lang).
Proof.
  intros Hj Hp Hs files lang. unfold Lib.extractDependencies.
  apply Forall_flat_map. intros f _.
  repeat (apply Forall_app; split);
    match goal with |- Forall _ (if ?b then _ else _) => destruct b end;
    auto.
Qed.

Lemma collect_Forall (P : Dependency -> Prop) :
  (forall f, Forall P (Cli.javaRules f)) ->
  forall files, Forall P (Cli.collect files).
Proof.
  intros H files. unfold Cli.collect. apply Forall_flat_map. intros f _.
  destruct (String.eqb (language f) "java"); auto.
Qed.

Lemma highOrMedium_notLow (d : Dependency) :
  highOrMedium d -> Resolver.notLow d.
Proof. unfold Resolver.notLow. intros [H|H]; rewrite H; discriminate. Qed.

Lemma collect_notLow (files : list CodeFile) :
  Forall Resolver.notLow (Cli.collect files).
Proof.
  eapply Forall_impl; [apply highOrMedium_notLow|].
  apply collect_Forall, cli_confidence.
Qed.

(** Properties of candidates pass to the resolved output. *)
Lemma lib_output_Forall (P : Dependency -> Prop) (cmp : Collation)
  (cands : list Dependency) :
  Forall P cands -> Forall P (Lib.deduplicateAndClean cmp cands).
Proof.
  rewrite !Forall_forall. intros H d Hd. apply H.
  rewrite Resolver.lib_resolve in Hd.
  eapply Resolver.resolve_subset, Hd.
Qed.

Lemma cli_output_Forall (P : Dependency -> Prop) (cmp : Collation)
  (cands : list Dependency) :
  Forall P cands -> Forall P (Cli.deduplicate cmp cands).
Proof.
  rewrite !Forall_forall. intros H d Hd. apply H.
  rewrite Resolver.cli_resolve in Hd.
  eapply Resolver.resolve_subset, Hd.
Qed.

(** Validator soundness of the library pipeline. *)
Lemma lib_output_valid (cmp : Collation) (engine : Engine)
  (files : list CodeFile) :
  Forall (fun d => Lib.isValidServiceName (serviceName d) = true)
    (ServiceAnalysis.dependencies
       (Lib.analyzeServiceDependencies cmp engine files)).
Proof.
  apply lib_output_Forall, extractDependencies_Forall.
  - apply java_valid.
  - apply python_valid.
  - apply javascript_valid.
Qed.

End ExtractFacts.

(* ================================================================== *)
(** * The claims *)

Local Open Scope list_scope.

(** ** C1: deduplication *)




(** ** C9: no [low] confidence is produced *)

(** C9.  Every candidate of every extraction rule, in the library and in
    the CLI, has confidence [high] or [medium]; hence no dependency of a
    final analysis, of either pipeline, has confidence [low]. *)
Theorem C9_low_confidence_unreachable (cmp : Collation) (engine : Engine)
  (files : list CodeFile) (f : CodeFile) :
  Forall ExtractFacts.highOrMedium (Lib.extractJavaDependencies f)
  /\ Forall ExtractFacts.highOrMedium (Lib.extractPythonDependencies f)
  /\ Forall ExtractFacts.highOrMedium (Lib.extractJavaScriptDependencies f)
  /\ Forall ExtractFacts.highOrMedium (Cli.javaRules f)
  /\ Forall (fun d => confidence d <> low)
       (ServiceAnalysis.dependencies
          (Lib.analyzeServiceDependencies cmp engine files))
  /\ Forall (fun d => confidence d <> low)
       (ServiceAnalysis.dependencies
          (Cli.analyzeServiceDependencies cmp files)).
Proof.
  repeat apply conj.
  - apply ExtractFacts.java_confidence.
  - apply ExtractFacts.python_confidence.
  - apply ExtractFacts.javascript_confidence.
  - apply ExtractFacts.cli_confidence.
  - apply ExtractFacts.lib_output_Forall.
    eapply Forall_impl; [apply ExtractFacts.highOrMedium_notLow|].
    apply ExtractFacts.extractDependencies_Forall.
    + apply ExtractFacts.java_confidence.
    + apply ExtractFacts.python_confidence.
    + apply ExtractFacts.javascript_confidence.
  - apply ExtractFacts.cli_output_Forall, ExtractFacts.collect_notLow.
Qed.

(** ** C2: validator soundness *)

(** The predicate of the claim: the name is stop-listed, has a disallowed
    suffix, is too short or too long, or does not start with [A-Z]. *)
Definition disallowed (name : string) : bool :=
  (existsb (String.eqb name) Lib.stoplist
   || JsString.endsWith name "Builder"
   || JsString.endsWith name "Factory"
   || JsString.endsWith name "Utils"
   || JsString.endsWith name "Helper"
   || (JsString.len name <=? 2)
   || (JsString.len name >=? 100)
   || negb (JsString.startsUpper name))%bool.

Lemma disallowed_invalid (name : string) :
  disallowed name = true <-> Lib.isValidServiceName name = false.
Proof.
  unfold disallowed, Lib.isValidServiceName.
  destruct (existsb (String.eqb name) Lib.stoplist),
    (JsString.endsWith name "Builder"), (JsString.endsWith name "Factory"),
    (JsString.endsWith name "Utils"), (JsString.endsWith name "Helper"),
    (JsString.startsUpper name);
    destruct (Z.leb_spec (JsString.len name) 2),
      (Z.geb_spec (JsString.len name) 100),
      (Z.gtb_spec (JsString.len name) 2),
      (Z.ltb_spec (JsString.len name) 100);
    simpl; split; intros; reflexivity || discriminate || lia.
Qed.

(** The library pipeline never outputs a disallowed name. *)
Lemma lib_never_outputs_disallowed (cmp : Collation) (engine : Engine)
  (files : list CodeFile) :
  Forall (fun d => disallowed (serviceName d) = false)
    (ServiceAnalysis.dependencies (Lib.analyzeServiceDependencies cmp engine
                                     files)).
Proof.
  eapply Forall_impl; [|apply ExtractFacts.lib_output_valid].
  cbv beta. intros d Hv.
  destruct (disallowed (serviceName d)) eqn:E; [|reflexivity].
  apply disallowed_invalid in E. congruence.
Qed.

(** A Java file whose only dependency-like text imports an HTTP client. *)
Definition httpImportFile : CodeFile :=
  mkCodeFile "Api.java" "OrderService/src/Api.java"
    "import org.apache.http.HttpClient;" "java" 34.

(** C2.  The matched name [HttpClient] has the canonical form [Http],
    which is stop-listed.  The library pipeline never outputs a disallowed
    name, but the CLI's [analyzeServiceDependencies], which tests the
    length only, outputs the dependency [Http]. *)
Theorem C2_cli_outputs_stoplisted_name (cmp : Collation) (engine : Engine)
  (files : list CodeFile) :
  Forall (fun d => disallowed (serviceName d) = false)
    (ServiceAnalysis.dependencies (Lib.analyzeServiceDependencies cmp engine
                                     files))
  /\ Regex.matches Regex.cliImportPattern (content httpImportFile)
     = ["HttpClient"]
  /\ dropClientSuffixes "HttpClient" = "Http"
  /\ disallowed "Http" = true
  /\ ServiceAnalysis.dependencies
       (Cli.analyzeServiceDependencies cmp [httpImportFile])
     = [mkDependency "Http" import medium
          "Found in Api.java: import HttpClient"].
Proof.
  split; [apply lib_never_outputs_disallowed|].
  repeat split; reflexivity.
Qed.

(** ** C3: output ordering *)

Module CollationFacts.
Import JsString.

Lemma codePoint_range (a b : string) :
  codePointCompare a b = -1 \/ codePointCompare a b = 0
  \/ codePointCompare a b = 1.
Proof. unfold codePointCompare. destruct (String.compare a b); auto. Qed.

Lemma codePoint_opp (a b : string) :
  codePointCompare a b = - codePointCompare b a.
Proof.
  unfold codePointCompare. rewrite String.compare_antisym.
  destruct (String.compare b a); reflexivity.
Qed.

Lemma codePoint_eq (a b : string) : codePointCompare a b = 0 <-> a = b.
Proof.
  unfold codePointCompare. split.
  - destruct (String.compare a b) eqn:E; try discriminate.
    intros _. apply String.compare_eq_iff, E.
  - intros ->. replace (String.compare b b) with Eq; [reflexivity|].
    symmetry. apply String_as_OT.cmp_eq. reflexivity.
Qed.

Lemma codePoint_lt (a b : string) :
  codePointCompare a b < 0 <-> String_as_OT.lt a b.
Proof.
  rewrite <- String_as_OT.cmp_lt. unfold String_as_OT.cmp, codePointCompare.
  destruct (String.compare a b); split; intros; lia || discriminate
    || reflexivity.
Qed.

Lemma codePoint_lt_trans (a b c : string) :
  codePointCompare a b < 0 -> codePointCompare b c < 0 ->
  codePointCompare a c < 0.
Proof. rewrite !codePoint_lt. apply String_as_OT.lt_trans. Qed.

Lemma codePoint_le_trans (a b c : string) :
  codePointCompare a b <= 0 -> codePointCompare b c <= 0 ->
  codePointCompare a c <= 0.
Proof.
  intros Hab Hbc.
  destruct (Z.eq_dec (codePointCompare a b) 0) as [E|E];
    [apply codePoint_eq in E; subst; exact Hbc|].
  destruct (Z.eq_dec (codePointCompare b c) 0) as [E'|E'];
    [apply codePoint_eq in E'; subst; exact Hab|].
  assert (codePointCompare a c < 0)
    by (apply codePoint_lt_trans with b; lia).
  lia.
Qed.

Lemma codePoint_consistent : Consistent codePointCollation.
Proof.
  split.
  - intros a b. unfold codePointCollation.
    rewrite (codePoint_opp b a). lia.
  - exact codePoint_le_trans.
Qed.

Lemma caseFold_le (a b : string) :
  caseFoldCollation a b <= 0 <->
  codePointCompare (toLowerCase a) (toLowerCase b) < 0
  \/ (toLowerCase a = toLowerCase b /\ codePointCompare b a <= 0).
Proof.
  unfold caseFoldCollation.
  destruct (Z.eqb_spec
              (codePointCompare (toLowerCase a) (toLowerCase b)) 0)
    as [E|E].
  - rewrite E. apply codePoint_eq in E. split; [tauto|].
    intros [H|[_ H]]; [lia | exact H].
  - split; [intros; left; lia|].
    intros [H|[H _]]; [lia|]. apply codePoint_eq in H. contradiction.
Qed.

Lemma caseFold_consistent : Consistent caseFoldCollation.
Proof.
  split.
  - intros a b. rewrite !caseFold_le.
    pose proof (codePoint_opp (toLowerCase a) (toLowerCase b)) as Ho.
    pose proof (codePoint_opp a b) as Ho'.
    destruct (Z.eq_dec
                (codePointCompare (toLowerCase a) (toLowerCase b)) 0)
      as [E|E].
    + apply codePoint_eq in E.
      destruct (Z.le_ge_cases (codePointCompare b a) 0);
        [left | right]; right; split; auto; lia.
    + destruct (Z.lt_ge_cases
                  (codePointCompare (toLowerCase a) (toLowerCase b)) 0);
        [left; left; assumption | right; left; lia].
  - intros a b c. rewrite !caseFold_le.
    intros [Hab|[Eab Hab]] [Hbc|[Ebc Hbc]].
    + left. eapply codePoint_lt_trans; eassumption.
    + left. rewrite <- Ebc. exact Hab.
    + left. rewrite Eab. exact Hbc.
    + right. split; [congruence|].
      eapply codePoint_le_trans; eassumption.
Qed.
End CollationFacts.

Lemma sort_sortedBy (cmp : Collation) (l : list Dependency) :
  Consistent cmp ->
  sortedBy cmp
    (JsArray.sort (fun a b => cmp (serviceName a) (serviceName b)) l).
Proof.
  intros [Htot Htr]. apply Sorted_StronglySorted.
  - intros a b c. apply Htr.
  - apply (SortFacts.sort_sorted
             (fun a b => cmp (serviceName a) (serviceName b))).
    intros a b. apply Htot.
Qed.

(** Two imports whose canonical names differ in the case of the second
    letter. *)
Definition abFile : CodeFile :=
  mkCodeFile "ClientModule.java" "OrderService/src/ClientModule.java"
    "import com.x.AbcServiceClient; import com.x.ABServiceClient;"
    "java" 60.

(** C3, as stated, fails: the order of the output is the order of the
    host's collation.  Under a case-folding collation the library and the
    CLI both return [AbcService] before [ABService], which is not
    code-point order, and under the code-point collation they return the
    opposite order. *)
Lemma C3_order_follows_the_collation :
  map serviceName
    (ServiceAnalysis.dependencies
       (Lib.analyzeServiceDependencies caseFoldCollation insertionEngine
          [abFile]))
  = ["AbcService"; "ABService"]
  /\ map serviceName
       (ServiceAnalysis.dependencies
          (Lib.analyzeServiceDependencies codePointCollation insertionEngine
             [abFile]))
     = ["ABService"; "AbcService"]
  /\ map serviceName
       (ServiceAnalysis.dependencies
          (Cli.analyzeServiceDependencies caseFoldCollation [abFile]))
     = ["AbcService"; "ABService"]
  /\ ~ sortedBy codePointCollation
         (ServiceAnalysis.dependencies
            (Lib.analyzeServiceDependencies caseFoldCollation insertionEngine
               [abFile]))
  /\ ~ sortedBy codePointCollation
         (ServiceAnalysis.dependencies
            (Cli.analyzeServiceDependencies caseFoldCollation [abFile])).
Proof.
  repeat split; try reflexivity.
  - intros H. vm_compute in H. inversion H as [|? ? _ Hall]; subst.
    inversion Hall as [|? ? Hle _]; subst. apply Hle. reflexivity.
  - intros H. vm_compute in H. inversion H as [|? ? _ Hall]; subst.
    inversion Hall as [|? ? Hle _]; subst. apply Hle. reflexivity.
Qed.

(** C3 (amended).  For every consistent collation of the host and every
    candidate list, the output of the library's [deduplicateAndClean] and
    of the CLI's deduplication is sorted ascending by [serviceName] under
    that collation, and so are the dependencies of both analyses; the
    output is a function of the input and the collation. *)
Theorem C3_output_sorted_by_collation (cmp : Collation) (engine : Engine)
  (cands : list Dependency) (files : list CodeFile) :
  Consistent cmp ->
  sortedBy cmp (Lib.deduplicateAndClean cmp cands)
  /\ sortedBy cmp (Cli.deduplicate cmp cands)
  /\ sortedBy cmp
       (ServiceAnalysis.dependencies
          (Lib.analyzeServiceDependencies cmp engine files))
  /\ sortedBy cmp
       (ServiceAnalysis.dependencies
          (Cli.analyzeServiceDependencies cmp files)).
Proof.
  intros Hc. repeat split; apply sort_sortedBy, Hc.
Qed.

Lemma C3_output_sorted_witness :
  Consistent codePointCollation
  /\ sortedBy codePointCollation
       (ServiceAnalysis.dependencies
          (Lib.analyzeServiceDependencies codePointCollation insertionEngine
             [abFile]))
  /\ Consistent caseFoldCollation
  /\ sortedBy caseFoldCollation
       (ServiceAnalysis.dependencies
          (Lib.analyzeServiceDependencies caseFoldCollation insertionEngine
             [abFile])).
Proof.
  split; [exact CollationFacts.codePoint_consistent|].
  split; [apply (C3_output_sorted_by_collation codePointCollation
                   insertionEngine [] [abFile]
                   CollationFacts.codePoint_consistent)|].
  split; [exact CollationFacts.caseFold_consistent|].
  apply (C3_output_sorted_by_collation caseFoldCollation insertionEngine []
           [abFile]
           CollationFacts.caseFold_consistent).
Defined.

(** ** C4: the CLI copy against the library copy *)

Module InferFacts.
Import JsString.

Lemma prefix_hasUpper (sub s : string) :
  String.prefix sub s = true -> hasUpper sub = true -> hasUpper s = true.
Proof.
  revert s. induction sub as [|a sub IH]; intros s Hp Hu; [discriminate|].
  destruct s as [|b s]; simpl in Hp; [discriminate|].
  destruct (ascii_dec a b) as [->|]; [|discriminate].
  simpl in *. apply orb_true_iff in Hu. apply orb_true_iff.
  destruct Hu as [Hu|Hu]; [left; exact Hu | right; apply IH; assumption].
Qed.

Lemma includes_hasUpper (s sub : string) :
  includes s sub = true -> hasUpper sub = true -> hasUpper s = true.
Proof.
  intros Hi Hu. induction s as [|c s IH]; simpl in Hi.
  - rewrite orb_false_r in Hi. apply (prefix_hasUpper sub); assumption.
  - apply orb_true_iff in Hi. destruct Hi as [Hp|Hi].
    + apply (prefix_hasUpper sub); assumption.
    + simpl. rewrite (IH Hi). apply orb_true_r.
Qed.

(** The keywords the library adds to the test all contain a capital
    letter, which the test already accepts. *)
Lemma extra_keywords_redundant (part : string) :
  (hasUpper part || includes part "Service" || includes part "Gateway"
   || includes part "Lambda" || includes part "Api"
   || includes part "API")%bool
  = (hasUpper part || includes part "Service"
     || includes part "Gateway")%bool.
Proof.
  destruct (hasUpper part) eqn:Hu; [reflexivity|].
  assert (Hno : forall sub, hasUpper sub = true -> includes part sub = false).
  { intros sub Hs. destruct (includes part sub) eqn:Hi; [|reflexivity].
    rewrite (includes_hasUpper part sub Hi Hs) in Hu. discriminate. }
  rewrite !Hno by reflexivity. reflexivity.
Qed.

Lemma scanParts_agree (parts : list string) :
  Cli.scanParts parts = Lib.scanParts parts.
Proof.
  induction parts as [|part rest IH]; [reflexivity|].
  simpl. rewrite IH, extra_keywords_redundant. reflexivity.
Qed.

Lemma inferServiceName_agree (files : list CodeFile) :
  Cli.inferServiceName files = Lib.inferServiceName files.
Proof.
  destruct files as [|first rest]; [reflexivity|].
  unfold Cli.inferServiceName, Lib.inferServiceName.
  rewrite scanParts_agree. reflexivity.
Qed.
End InferFacts.

(** A small Java file that no scoring signal picks up. *)
Definition plainImportFile : CodeFile :=
  mkCodeFile "Api.java" "OrderService/src/Api.java"
    "import com.pay.PaymentService;" "java" 30.

(** C4, as stated, fails: the library only extracts from files the
    key-file scorer selects, the CLI from every Java file. *)
Lemma C4_pipelines_differ :
  Cli.analyzeServiceDependencies codePointCollation [plainImportFile]
  = ServiceAnalysis.mk "OrderService"
      [mkDependency "PaymentService" import medium
         "Found in Api.java: import PaymentService"]
  /\ Lib.analyzeServiceDependencies codePointCollation insertionEngine
        [plainImportFile]
     = ServiceAnalysis.mk "OrderService" []
  /\ Cli.analyzeServiceDependencies codePointCollation [plainImportFile]
     <> Lib.analyzeServiceDependencies codePointCollation insertionEngine
           [plainImportFile].
Proof.
  repeat split; try reflexivity. vm_compute. discriminate.
Qed.

(** C4 (amended).  For every list of files the CLI's and the library's
    [analyzeServiceDependencies] return the same inferred [serviceName]. *)
Theorem C4_same_inferred_service_name (cmp : Collation) (engine : Engine)
  (files : list CodeFile) :
  ServiceAnalysis.serviceName (Cli.analyzeServiceDependencies cmp files)
  = ServiceAnalysis.serviceName (Lib.analyzeServiceDependencies cmp engine
                                   files).
Proof.
  apply InferFacts.inferServiceName_agree.
Qed.

(** ** C5 and C8: the key-file scorer *)

(** The score is a sum of thirteen conditional terms; conversion should
    compare it by name before it unfolds it. *)
Strategy 1000 [Lib.scoreOf].

Module ScorerFacts.
Import JsArray SortFacts.

Definition positive (f : CodeFile) : bool := Lib.scoreOf f >? 0.
Definition hasScore (s : Z) (f : CodeFile) : bool := Lib.scoreOf f =? s.
Definition byScore : CodeFile -> CodeFile -> Z := descending Lib.scoreOf.

Lemma scoredFiles_spec (files : list CodeFile) :
  Lib.scoredFiles files
  = map (fun f => (f, Lib.scoreOf f)) (filter positive files).
Proof.
  unfold Lib.scoredFiles, positive.
  induction files as [|f files IH]; [reflexivity|].
  simpl. rewrite IH. destruct (Lib.scoreOf f >? 0); reflexivity.
Qed.

Lemma insert_map {A B : Type} (g : A -> B) (cmpA : A -> A -> Z)
  (cmpB : B -> B -> Z) (x : A) (l : list A) :
  (forall a a', cmpB (g a) (g a') = cmpA a a') ->
  insert cmpB (g x) (map g l) = map g (insert cmpA x l).
Proof.
  intros H. induction l as [|y l IH]; [reflexivity|].
  simpl. rewrite H. destruct (cmpA x y <=? 0); [reflexivity|].
  simpl. rewrite IH. reflexivity.
Qed.

Lemma sort_map {A B : Type} (g : A -> B) (cmpA : A -> A -> Z)
  (cmpB : B -> B -> Z) (l : list A) :
  (forall a a', cmpB (g a) (g a') = cmpA a a') ->
  sort cmpB (map g l) = map g (sort cmpA l).
Proof.
  intros H. induction l as [|x l IH]; [reflexivity|].
  simpl. rewrite IH. apply insert_map, H.
Qed.

(** The selection is the first fifteen of the positively scored files,
    stably sorted by descending score. *)
Lemma selectKeyFiles_spec (files : list CodeFile) (lang : string) :
  Lib.selectKeyFiles files lang
  = firstn 15 (sort byScore (filter positive files)).
Proof.
  unfold Lib.selectKeyFiles, slice0. rewrite scoredFiles_spec.
  rewrite (sort_map (fun f => (f, Lib.scoreOf f)) byScore)
    by reflexivity.
  rewrite <- firstn_map, map_map. simpl. rewrite map_id. reflexivity.
Qed.

Lemma In_firstn {A : Type} (n : nat) (l : list A) (x : A) :
  In x (firstn n l) -> In x l.
Proof.
  revert n. induction l as [|y l IH]; intros [|n]; simpl; try tauto.
  intros [H|H]; [left; exact H | right; apply (IH n), H].
Qed.

Lemma filter_none {A : Type} (p : A -> bool) (l : list A) :
  (forall x, In x l -> p x = false) -> filter p l = [].
Proof.
  induction l as [|y l IH]; intros H; [reflexivity|].
  simpl. rewrite (H y) by (left; reflexivity).
  apply IH. intros x Hx. apply H. right. exact Hx.
Qed.

Lemma StronglySorted_firstn {A : Type} (R : A -> A -> Prop) (n : nat)
  (l : list A) :
  StronglySorted R l -> StronglySorted R (firstn n l).
Proof.
  intros H. revert n. induction H as [|a l Hs IH Hall]; intros n.
  - rewrite firstn_nil. constructor.
  - destruct n as [|n]; simpl; constructor; [apply IH|].
    rewrite Forall_forall in *. intros x Hx. apply Hall.
    apply In_firstn in Hx. exact Hx.
Qed.

Lemma filter_firstn_prefix {A : Type} (p : A -> bool) (n : nat)
  (l : list A) :
  exists rest, filter p l = filter p (firstn n l) ++ rest.
Proof.
  exists (filter p (skipn n l)).
  rewrite <- filter_app, firstn_skipn. reflexivity.
Qed.

Lemma filter_hasScore_positive (s : Z) (files : list CodeFile) :
  0 < s ->
  filter (hasScore s) (filter positive files) = filter (hasScore s) files.
Proof.
  intros Hs. induction files as [|f files IH]; [reflexivity|].
  cbn [filter].
  destruct (positive f) eqn:Ep; cbn [filter];
    destruct (hasScore s f) eqn:Eh; rewrite ?IH; try reflexivity.
  unfold positive, hasScore in *. lia.
Qed.

Lemma sort_byScore_stable (s : Z) (l : list CodeFile) :
  filter (hasScore s) (sort byScore l) = filter (hasScore s) l.
Proof. exact (sort_stable Lib.scoreOf s l). Qed.

Lemma sort_byScore_descending (l : list CodeFile) :
  StronglySorted (fun a b => Lib.scoreOf b <= Lib.scoreOf a)
    (sort byScore l).
Proof. exact (sort_descending Lib.scoreOf l). Qed.

(** What the scorer reads of a file. *)
Definition samePreview (f g : CodeFile) : Prop :=
  name f = name g /\ path f = path g /\ size f = size g /\
  substring 0 3000 (content f) = substring 0 3000 (content g).

Lemma scoreOf_samePreview (f g : CodeFile) :
  samePreview f g -> Lib.scoreOf f = Lib.scoreOf g.
Proof.
  intros (Hn & Hp & Hs & Hc). unfold Lib.scoreOf.
  rewrite Hn, Hp, Hs, Hc. reflexivity.
Qed.

Lemma Forall2_filter {A B : Type} (R : A -> B -> Prop) (p : A -> bool)
  (q : B -> bool) (l : list A) (m : list B) :
  (forall a b, R a b -> p a = q b) ->
  Forall2 R l m -> Forall2 R (filter p l) (filter q m).
Proof.
  intros Hpq H. induction H as [|a b l m Hab H IH]; simpl.
  - constructor.
  - rewrite (Hpq a b Hab). destruct (q b); [constructor|]; assumption.
Qed.

Lemma Forall2_firstn {A B : Type} (R : A -> B -> Prop) (n : nat)
  (l : list A) (m : list B) :
  Forall2 R l m -> Forall2 R (firstn n l) (firstn n m).
Proof.
  intros H. revert n. induction H; intros [|n]; simpl; constructor; auto.
Qed.
End ScorerFacts.

(** C5.  For every file list [selectKeyFiles] returns at most fifteen
    files, each with a score strictly above 0, in descending order of
    score; for every score, the returned files of that score are an
    initial segment of the input files of that score, in input order. *)
Theorem C5_selectKeyFiles_contract (files : list CodeFile) (lang : string) :
  let selected := Lib.selectKeyFiles files lang in
  (length selected <= 15)%nat
  /\ Forall (fun f => 0 < Lib.scoreOf f /\ In f files) selected
  /\ StronglySorted (fun a b => Lib.scoreOf b <= Lib.scoreOf a) selected
  /\ forall s, exists rest,
       filter (ScorerFacts.hasScore s) files
       = filter (ScorerFacts.hasScore s) selected ++ rest.
Proof.
  cbv zeta. rewrite ScorerFacts.selectKeyFiles_spec.
  assert (Hpos : Forall (fun f => 0 < Lib.scoreOf f /\ In f files)
                   (firstn 15 (JsArray.sort ScorerFacts.byScore
                                 (filter ScorerFacts.positive files)))).
  { apply Forall_forall. intros f Hf.
    apply ScorerFacts.In_firstn in Hf.
    apply SortFacts.sort_In, filter_In in Hf. destruct Hf as [Hin Hp].
    unfold ScorerFacts.positive in Hp. split; [lia | exact Hin]. }
  repeat split.
  - apply firstn_le_length.
  - exact Hpos.
  - apply ScorerFacts.StronglySorted_firstn,
      ScorerFacts.sort_byScore_descending.
  - intros s. destruct (Z.ltb_spec 0 s) as [Hs|Hs].
    + rewrite <- (ScorerFacts.filter_hasScore_positive s files Hs).
      rewrite <- (ScorerFacts.sort_byScore_stable s
                    (filter ScorerFacts.positive files)).
      apply ScorerFacts.filter_firstn_prefix.
    + exists (filter (ScorerFacts.hasScore s) files).
      rewrite (ScorerFacts.filter_none (ScorerFacts.hasScore s)
                 (firstn 15 _)); [reflexivity|].
      intros f Hf.
      rewrite Forall_forall in Hpos. destruct (Hpos f Hf) as [Hf0 _].
      unfold ScorerFacts.hasScore.
      destruct (Z.eqb_spec (Lib.scoreOf f) s); [lia | reflexivity].
Qed.

(** [n] spaces. *)
Fixpoint spaces (n : nat) : string :=
  match n with
  | O => EmptyString
  | S n' => String " " (spaces n')
  end.

(** Two files that differ only after the first 3000 characters: one has a
    provider annotation there, the other has not. *)
Definition lateProvides : CodeFile :=
  mkCodeFile "Notes.java" "OrderService/src/Notes.java"
    (spaces 3000 ++ "@Provides public FooClient getFoo() {}")%string "java" 3038.

Definition lateNothing : CodeFile :=
  mkCodeFile "Notes.java" "OrderService/src/Notes.java"
    (spaces 3000 ++ "// nothing to see in this file, really")%string "java" 3038.

(** C8.  The score of a file depends only on its name, path, size and the
    first 3000 characters of its content.  Hence, for two file lists
    related position by position by any relation [R] that preserves these
    four, the scores agree position by position and [selectKeyFiles]
    selects the files at the same positions: the two selections are again
    related by [R] position by position. *)
Theorem C8_score_reads_bounded_preview (R : CodeFile -> CodeFile -> Prop)
  (files files' : list CodeFile) (lang lang' : string) :
  (forall f g, R f g -> ScorerFacts.samePreview f g) ->
  Forall2 R files files' ->
  Forall2 (fun f g => Lib.scoreOf f = Lib.scoreOf g) files files'
  /\ Forall2 R (Lib.selectKeyFiles files lang)
       (Lib.selectKeyFiles files' lang').
Proof.
  intros HR Hrel.
  assert (Hscore : forall f g, R f g -> Lib.scoreOf f = Lib.scoreOf g)
    by (intros f g Hfg; apply ScorerFacts.scoreOf_samePreview, HR, Hfg).
  split.
  - eapply Forall2_impl; [|exact Hrel]. exact Hscore.
  - rewrite !ScorerFacts.selectKeyFiles_spec.
    apply ScorerFacts.Forall2_firstn.
    apply (SortFacts.sort_related ScorerFacts.byScore ScorerFacts.byScore R).
    + intros a a' b b' Hab Hab'.
      unfold ScorerFacts.byScore, SortFacts.descending.
      rewrite (Hscore a b Hab), (Hscore a' b' Hab'). reflexivity.
    + apply ScorerFacts.Forall2_filter; [|exact Hrel].
      intros a b Hab. unfold ScorerFacts.positive.
      rewrite (Hscore a b Hab). reflexivity.
Qed.

Lemma C8_score_witness :
  ScorerFacts.samePreview lateProvides lateNothing
  /\ content lateProvides <> content lateNothing
  /\ Lib.scoreOf lateProvides = Lib.scoreOf lateNothing
  /\ Forall2 ScorerFacts.samePreview
       (Lib.selectKeyFiles [lateProvides] "java")
       (Lib.selectKeyFiles [lateNothing] "java").
Proof.
  assert (Hsame : ScorerFacts.samePreview lateProvides lateNothing)
    by (repeat split; vm_compute; reflexivity).
  split; [exact Hsame|].
  split; [vm_compute; discriminate|].
  pose proof (C8_score_reads_bounded_preview ScorerFacts.samePreview
                [lateProvides] [lateNothing] "java" "java"
                (fun f g H => H)
                (Forall2_cons _ _ Hsame (Forall2_nil _))) as [Hs Hsel].
  split; [|exact Hsel].
  inversion Hs; subst. assumption.
Defined.

(** ** C10: the primary language selects the rules *)

(** How many files carry the language tag [l]. *)
Definition occurrences (l : string) (files : list CodeFile) : Z :=
  Z.of_nat (length (filter (fun f => String.eqb (language f) l) files)).

(** [l] occurs, and strictly more often than any other tag. *)
Definition mostFrequent (l : string) (files : list CodeFile) : Prop :=
  0 < occurrences l files /\
  forall l', l' <> l -> occurrences l' files < occurrences l files.

(** No file is tagged with a name that a plain object inherits. *)
Definition ordinaryTags (files : list CodeFile) : Prop :=
  Forall (fun f => ~ In (language f) JsObject.inherited) files.

Module LanguageFacts.
Import JsMap MapFacts.

Definition isMethod (l : string) : bool :=
  existsb (String.eqb l) JsObject.methods.

(** What [langCounts] owns for the tag [l] after the files [seen]. *)
Definition tally (seen : list CodeFile) (l : string) : option Count :=
  if String.eqb l "__proto__" then None
  else if occurrences l seen =? 0 then None
  else Some (if isMethod l then Text else Num (occurrences l seen)).

Lemma occurrences_nonneg (l : string) (files : list CodeFile) :
  0 <= occurrences l files.
Proof. unfold occurrences. lia. Qed.

Lemma occurrences_snoc (l : string) (seen : list CodeFile) (f : CodeFile) :
  occurrences l (seen ++ [f])
  = occurrences l seen + (if String.eqb (language f) l then 1 else 0).
Proof.
  unfold occurrences. rewrite filter_app, length_app. simpl.
  destruct (String.eqb (language f) l); simpl; lia.
Qed.

Lemma occurrences_file (l : string) (files : list CodeFile) :
  0 < occurrences l files -> exists f, In f files /\ language f = l.
Proof.
  unfold occurrences. intros H.
  destruct (filter (fun f => String.eqb (language f) l) files)
    as [|f rest] eqn:E; [simpl in H; lia|].
  assert (Hf : In f (filter (fun f => String.eqb (language f) l) files))
    by (rewrite E; left; reflexivity).
  apply filter_In in Hf. destruct Hf as [Hin Heq].
  exists f. split; [exact Hin | apply String.eqb_eq, Heq].
Qed.

Record Counted (seen : list CodeFile) (o : JsObject.t Count) : Prop :=
  mkCounted {
    counted_nodup : NoDup (keys o);
    counted_get : forall l, get l o = tally seen l
  }.

Lemma Counted_step (seen : list CodeFile) (o : JsObject.t Count)
  (f : CodeFile) :
  Counted seen o -> Counted (seen ++ [f]) (Lib.countLanguage o f).
Proof.
  intros [Hnd Hget]. unfold Lib.countLanguage, JsObject.set, JsObject.get.
  destruct (String.eqb_spec (language f) "__proto__") as [Ep|Ep].
  - split; [exact Hnd|]. intros l. rewrite Hget. unfold tally.
    rewrite occurrences_snoc, Ep.
    destruct (String.eqb_spec l "__proto__") as [El|El]; [reflexivity|].
    destruct (String.eqb_spec "__proto__" l) as [E|_]; [congruence|].
    rewrite Z.add_0_r. reflexivity.
  - split; [apply NoDup_keys_set, Hnd|].
    intros l. unfold tally. rewrite occurrences_snoc.
    pose proof (occurrences_nonneg l seen) as Hl.
    destruct (String.eqb_spec (language f) l) as [E|E].
    + subst l. rewrite get_set_same, Hget. unfold tally.
      apply String.eqb_neq in Ep. rewrite Ep.
      fold (isMethod (language f)).
      destruct (Z.eqb_spec (occurrences (language f) seen) 0) as [Z0|Z0].
      * rewrite Z0. cbn [Z.add Z.eqb].
        destruct (isMethod (language f)); reflexivity.
      * destruct (Z.eqb_spec (occurrences (language f) seen + 1) 0);
          [lia|].
        destruct (isMethod (language f)); reflexivity.
    + rewrite get_set_other by exact E. rewrite Hget. unfold tally.
      rewrite Z.add_0_r. reflexivity.
Qed.

Lemma Counted_fold (files : list CodeFile) :
  forall seen o, Counted seen o ->
    Counted (seen ++ files) (fold_left Lib.countLanguage files o).
Proof.
  induction files as [|f files IH]; intros seen o HC; simpl.
  - rewrite app_nil_r. exact HC.
  - change (f :: files) with ([f] ++ files). rewrite app_assoc.
    apply IH, Counted_step, HC.
Qed.

Lemma Counted_all (files : list CodeFile) :
  Counted files (fold_left Lib.countLanguage files JsObject.empty).
Proof.
  apply (Counted_fold files [] JsObject.empty). split; [constructor|].
  intros l. unfold tally. destruct (String.eqb l "__proto__"); reflexivity.
Qed.

(** [Object.entries] lists every own property once. *)
Lemma entries_perm {V : Type} (o : JsObject.t V) :
  Permutation (JsObject.entries o) o.
Proof.
  unfold JsObject.entries.
  eapply perm_trans;
    [apply Permutation_app_tail, SortFacts.sort_perm|].
  induction o as [|e o IH]; [constructor|].
  cbn [filter]. destruct (JsObject.indexed e); cbn [negb].
  - cbn [app]. apply perm_skip, IH.
  - apply Permutation_sym, Permutation_cons_app, Permutation_sym, IH.
Qed.

Lemma entries_In {V : Type} (o : JsObject.t V) (e : string * V) :
  In e (JsObject.entries o) <-> In e o.
Proof.
  split; apply Permutation_in;
    [apply entries_perm | apply Permutation_sym, entries_perm].
Qed.

Definition counted (files : list CodeFile) (e : string * Count) : Prop :=
  snd e = Num (occurrences (fst e) files) /\ 0 < occurrences (fst e) files.

(** With ordinary tags every entry is a tag with its number of files. *)
Lemma entries_counted (files : list CodeFile) :
  ordinaryTags files ->
  Forall (counted files)
    (JsObject.entries (fold_left Lib.countLanguage files JsObject.empty)).
Proof.
  intros Hord. pose proof (Counted_all files) as [Hnd Hget].
  apply Forall_forall. intros [l c] Hin.
  apply (proj1 (entries_In _ _)) in Hin.
  apply (In_get _ _ _ Hnd) in Hin. rewrite Hget in Hin. unfold tally in Hin.
  destruct (String.eqb l "__proto__"); [discriminate|].
  destruct (Z.eqb_spec (occurrences l files) 0) as [|Hne]; [discriminate|].
  pose proof (occurrences_nonneg l files) as Hl.
  destruct (isMethod l) eqn:Em.
  - exfalso. destruct (occurrences_file l files) as (f & Hf & El);
      [lia|].
    unfold ordinaryTags in Hord. rewrite Forall_forall in Hord.
    apply (Hord f Hf). right. rewrite El.
    unfold isMethod in Em. apply existsb_exists in Em.
    destruct Em as (m & Hm & E). apply String.eqb_eq in E. subst m.
    exact Hm.
  - injection Hin as <-. split; [reflexivity | cbn [fst]; lia].
Qed.

Lemma every_tag_listed (files : list CodeFile) (l : string) :
  ordinaryTags files -> 0 < occurrences l files ->
  In (l, Num (occurrences l files))
    (JsObject.entries (fold_left Lib.countLanguage files JsObject.empty)).
Proof.
  intros Hord Hpos. pose proof (Counted_all files) as [Hnd Hget].
  apply (proj2 (entries_In _ _)), get_In. rewrite Hget. unfold tally.
  destruct (occurrences_file l files Hpos) as (f & Hf & El).
  unfold ordinaryTags in Hord. rewrite Forall_forall in Hord.
  specialize (Hord f Hf). rewrite El in Hord.
  destruct (String.eqb_spec l "__proto__") as [E|_];
    [exfalso; apply Hord; left; congruence|].
  destruct (Z.eqb_spec (occurrences l files) 0); [lia|].
  destruct (isMethod l) eqn:Em; [|reflexivity].
  exfalso. apply Hord. right.
  unfold isMethod in Em. apply existsb_exists in Em.
  destruct Em as (m & Hm & E). apply String.eqb_eq in E. subst m. exact Hm.
Qed.

Definition number (e : string * Count) : Z :=
  match snd e with
  | Num n => n
  | Text => 0
  end.

Definition isNumber (e : string * Count) : Prop := exists n, snd e = Num n.

Lemma byCount_numbers (a b : string * Count) :
  isNumber a -> isNumber b ->
  Lib.byCount a b = SortFacts.descending number a b.
Proof.
  intros [x Hx] [y Hy]. unfold Lib.byCount, SortFacts.descending, number.
  rewrite Hx, Hy. reflexivity.
Qed.

(** On numbers the comparator is consistent. *)
Lemma consistent_numbers (entries : list (string * Count)) :
  Forall isNumber entries -> Lib.consistent entries = true.
Proof.
  intros Hall. rewrite Forall_forall in Hall. unfold Lib.consistent.
  apply forallb_forall. intros a Ha.
  apply forallb_forall. intros b Hb.
  apply forallb_forall. intros c Hc.
  rewrite (byCount_numbers a b), (byCount_numbers b c),
    (byCount_numbers a c) by auto.
  unfold SortFacts.descending.
  destruct (Z.eqb_spec (number b - number a) 0);
    destruct (Z.eqb_spec (number c - number b) 0);
    destruct (Z.eqb_spec (number c - number a) 0);
    try reflexivity; lia.
Qed.

Lemma sort_numbers (entries : list (string * Count)) :
  Forall isNumber entries ->
  JsArray.sort Lib.byCount entries
  = JsArray.sort (SortFacts.descending number) entries.
Proof.
  intros Hall.
  assert (H : Forall2 (fun a b => a = b /\ isNumber a)
                (JsArray.sort Lib.byCount entries)
                (JsArray.sort (SortFacts.descending number) entries)).
  { apply SortFacts.sort_related.
    - intros a a' b b' [<- Ha] [<- Ha']. apply byCount_numbers; assumption.
    - induction Hall; constructor; auto. }
  induction H as [|a b l m [<- _] _ IH]; [reflexivity|].
  rewrite IH. reflexivity.
Qed.

(** With ordinary tags the sorted entries are numbers in descending
    order, whatever the engine does elsewhere. *)
Lemma sortByCount_ordinary (engine : Engine) (files : list CodeFile) :
  ordinaryTags files ->
  let entries :=
    JsObject.entries (fold_left Lib.countLanguage files JsObject.empty) in
  Lib.sortByCount engine entries
  = JsArray.sort (SortFacts.descending number) entries.
Proof.
  intros Hord entries.
  assert (Hnum : Forall isNumber entries).
  { eapply Forall_impl; [|apply entries_counted, Hord].
    intros e [He _]. eexists. exact He. }
  unfold Lib.sortByCount. rewrite (consistent_numbers _ Hnum).
  apply sort_numbers, Hnum.
Qed.

(** Among ordinary tags, one that strictly outnumbers the others is the
    primary language. *)
Lemma mostFrequent_primary (engine : Engine) (l : string)
  (files : list CodeFile) :
  ordinaryTags files -> mostFrequent l files -> l <> "" ->
  Lib.detectPrimaryLanguage engine files = l.
Proof.
  intros Hord [Hpos Hmax] Hne. unfold Lib.detectPrimaryLanguage.
  cbv zeta. rewrite (sortByCount_ordinary engine files Hord).
  pose proof (entries_counted files Hord) as Hall.
  pose proof (every_tag_listed files l Hord Hpos) as Hl.
  set (entries := JsObject.entries
                    (fold_left Lib.countLanguage files JsObject.empty)) in *.
  pose proof (SortFacts.sort_descending number entries) as Hs.
  apply (SortFacts.sort_In (SortFacts.descending number)) in Hl.
  destruct (JsArray.sort (SortFacts.descending number) entries)
    as [|[l0 c0] rest] eqn:Es; [destruct Hl|].
  assert (Hhead : In (l0, c0) entries).
  { apply (SortFacts.sort_In (SortFacts.descending number)).
    rewrite Es. left. reflexivity. }
  rewrite Forall_forall in Hall. destruct (Hall _ Hhead) as [Hc0 _].
  cbn [fst snd] in Hc0.
  assert (El : l0 = l).
  { destruct (string_dec l0 l) as [E|E]; [exact E|].
    specialize (Hmax l0 E).
    destruct Hl as [Hl|Hl]; [congruence|].
    inversion Hs as [|? ? _ Hrest]; subst.
    rewrite Forall_forall in Hrest. specialize (Hrest _ Hl).
    unfold number in Hrest. cbn [snd] in Hrest. lia. }
  subst l0. apply String.eqb_neq in Hne. rewrite Hne. reflexivity.
Qed.
End LanguageFacts.

(** Three files of a mostly-Java repository; the one that declares the
    provider is a Kotlin file. *)
Definition kotlinModule : CodeFile :=
  mkCodeFile "ClientModule.kt" "OrderService/src/module/ClientModule.kt"
    "@Provides public PaymentServiceClient getPayment() {}" "kotlin" 53.

Definition mostlyJava : list CodeFile :=
  [mkCodeFile "Order.java" "OrderService/src/Order.java"
     "class Order {}" "java" 14;
   mkCodeFile "Item.java" "OrderService/src/Item.java"
     "class Item {}" "java" 13;
   kotlinModule].

(** The same repository, the provider file first and tagged with a name
    that every plain object inherits. *)
Definition constructorModule : CodeFile :=
  mkCodeFile "ClientModule.kt" "OrderService/src/module/ClientModule.kt"
    "@Provides public PaymentServiceClient getPayment() {}" "constructor" 53.

Definition constructorFirst : list CodeFile :=
  [constructorModule;
   mkCodeFile "Order.java" "OrderService/src/Order.java"
     "class Order {}" "java" 14;
   mkCodeFile "Item.java" "OrderService/src/Item.java"
     "class Item {}" "java" 13].

(** C10.  The tag ["java"] strictly outnumbers the others in
    [constructorFirst], and the provider file is a selected key file in
    which the Java rules find a candidate.  But [langCounts] is a plain
    object: for the tag ["constructor"] it reads the inherited method, the
    count becomes a string, every comparison with it gives NaN, and the
    sort leaves that entry in front.  The detected primary language is
    ["constructor"], no Java rule is applied to the provider file, and the
    analysis has no dependency. *)
Theorem C10_inherited_tag_displaces_java (cmp : Collation)
  (engine : Engine) :
  mostFrequent "java" constructorFirst
  /\ In constructorModule (Lib.selectKeyFiles constructorFirst "java")
  /\ Lib.extractJavaDependencies constructorModule
     = [mkDependency "PaymentService" client_class high
          "Found in ClientModule.kt: @Provides PaymentServiceClient"]
  /\ fold_left Lib.countLanguage constructorFirst JsObject.empty
     = [("constructor", Text); ("java", Num 2)]
  /\ Lib.detectPrimaryLanguage engine constructorFirst = "constructor"
  /\ ServiceAnalysis.dependencies
       (Lib.analyzeServiceDependencies cmp engine constructorFirst) = [].
Proof.
  split.
  { split; [reflexivity|]. intros l' Hne.
    change (occurrences "java" constructorFirst) with 2.
    unfold occurrences, constructorFirst, constructorModule.
    cbn [filter language].
    apply not_eq_sym, String.eqb_neq in Hne. rewrite Hne.
    destruct (String.eqb "constructor" l'); cbn [length]; lia. }
  split; [vm_compute; left; reflexivity|].
  split; [reflexivity|].
  split; [reflexivity|].
  split; reflexivity.
Qed.

(** A file that carries nothing but a language tag. *)
Definition tagged (l : string) : CodeFile := mkCodeFile "a" "a" "" l 1.

(** The same reading of [langCounts] on three small tag lists: files
    tagged [__proto__] leave no entry; an array-index tag is listed
    before a tag created earlier; an inherited method name, once counted,
    stays in front of a more frequent tag. *)
Remark langCounts_is_a_plain_object (engine : Engine) :
  Lib.detectPrimaryLanguage engine [tagged "__proto__"; tagged "__proto__"]
  = "unknown"
  /\ Lib.detectPrimaryLanguage engine [tagged "b"; tagged "1"] = "1"
  /\ Lib.detectPrimaryLanguage engine
       [tagged "toString"; tagged "go"; tagged "go"]
     = "toString".
Proof. repeat split. Qed.

(** ** C7: ignored directories *)

Module WalkerFacts.
Import JsString Walker.

Definition notIgnored (dir : string) : Prop := ~ In dir IGNORE_DIRS.

Section EntryInduction.
Variable P : Entry -> Prop.
Hypothesis onFile : forall name size text, P (File name size text).
Hypothesis onUnreadable : forall name, P (Dir name None).
Hypothesis onDir :
  forall name entries, Forall P entries -> P (Dir name (Some entries)).

Fixpoint Entry_induction (e : Entry) : P e :=
  match e with
  | File name size text => onFile name size text
  | Dir name None => onUnreadable name
  | Dir name (Some entries) =>
      onDir name entries
        ((fix all (l : list Entry) : Forall P l :=
            match l with
            | [] => Forall_nil P
            | x :: l' => Forall_cons x (Entry_induction x) (all l')
            end) entries)
  end.
End EntryInduction.

Lemma joinPath_snoc (trail : list string) (name : string) :
  child (joinPath trail) name = joinPath (trail ++ [name]).
Proof. unfold joinPath. rewrite fold_left_app. reflexivity. Qed.

(** Every reported file sits at the end of a chain of directories none
    of which is ignored. *)
Lemma scanEntry_trail (e : Entry) :
  forall trail f, In f (scanEntry (joinPath trail) e) ->
    exists below,
      path f = child (joinPath (trail ++ below)) (name f)
      /\ Forall notIgnored below.
Proof.
  induction e as [nm sz text|nm|nm entries IH] using Entry_induction;
    intros trail f Hf; cbn [scanEntry] in Hf.
  - exists []. rewrite app_nil_r. split; [|constructor].
    destruct (negb (existsb (endsWith nm) CODE_EXTENSIONS));
      [destruct Hf|].
    destruct (sz >? 5 * 1024 * 1024); [destruct Hf|].
    destruct (sz =? 0); [destruct Hf|].
    destruct text as [c|]; [|destruct Hf].
    destruct Hf as [<-|[]]. reflexivity.
  - destruct (existsb (String.eqb nm) IGNORE_DIRS); destruct Hf.
  - destruct (existsb (String.eqb nm) IGNORE_DIRS) eqn:Ei; [destruct Hf|].
    apply in_flat_map in Hf. destruct Hf as (e & He & Hf).
    rewrite Forall_forall in IH. rewrite joinPath_snoc in Hf.
    destruct (IH e He (trail ++ [nm]) f Hf) as (below & Hp & Hb).
    exists (nm :: below). rewrite <- app_assoc in Hp. split; [exact Hp|].
    constructor; [|exact Hb].
    intros Hin. assert (existsb (String.eqb nm) IGNORE_DIRS = true).
    { apply existsb_exists. exists nm. split; [exact Hin|].
      apply String.eqb_refl. }
    congruence.
Qed.

Lemma scanDirectory_skips_ignored (root : option (list Entry))
  (f : CodeFile) :
  In f (scanDirectory root) ->
  exists dirs,
    path f = child (joinPath dirs) (name f) /\ Forall notIgnored dirs.
Proof.
  destruct root as [entries|]; simpl; [|tauto].
  intros Hf. apply in_flat_map in Hf. destruct Hf as (e & _ & Hf).
  apply (scanEntry_trail e [] f Hf).
Qed.
End WalkerFacts.

(** A build-output tree as IntelliJ lays it out, seen by the walker and by
    the folder upload. *)
Definition outTree : list Walker.Entry :=
  [Walker.Dir "out"
     (Some [Walker.Dir "production"
              (Some [Walker.File "ClientModule.java" 53
                       (Some "@Provides public PaymentServiceClient getPayment() {}")])])].

Definition outPath : string := "OrderService/out/production/ClientModule.java".

(** C7.  The CLI's walker never reports a file below an ignored
    directory, and ["out"] is one of them; but the upload component's
    [shouldIgnore] lets a path below [out] through, since its list lacks
    that name. *)
Theorem C7_upload_filter_misses_out (root : option (list Walker.Entry))
  (f : CodeFile) :
  (In f (Walker.scanDirectory root) ->
   exists dirs,
     path f = Walker.child (Walker.joinPath dirs) (name f)
     /\ Forall WalkerFacts.notIgnored dirs)
  /\ In "out" Walker.IGNORE_DIRS
  /\ Walker.scanDirectory (Some outTree) = []
  /\ Upload.shouldIgnore outPath = false
  /\ Upload.shouldIgnore "OrderService/build/classes/ClientModule.java" = true.
Proof.
  split; [apply WalkerFacts.scanDirectory_skips_ignored|].
  repeat split; try reflexivity.
  vm_compute. intuition.
Qed.

(** ** C6: scenario A

    The provider rule finds the scenario's declaration wherever it occurs
    in the content.  The argument: the declaration starts with [@], a
    character that only the lazy gap [[\s\S]{0,200}?] of the rule can
    consume after the first position of a match.  So a match that starts
    earlier either ends before the declaration, or its gap runs into the
    declaration and, being lazy, stops at the declaration's own [public],
    capturing the declaration's class. *)

Module RegexFacts.
Import JsString Regex.



Section Barrier.
Context {R : Type}.
Variable stop : ascii.
Variable after : string.





Lemma orElse_Some (a b : option R) (res : R) :
  orElse a b = Some res -> a = Some res \/ b = Some res.
Proof. destruct a; simpl; auto. Qed.






End Barrier.

End RegexFacts.

(** The text of scenario A and what the provider rule captures in it. *)
Definition scenarioText : string :=
  "@Provides public XBTBookingMgmtServiceClient getClient() {...}".



Definition scenarioDependency (fileName : string) : Dependency :=
  mkDependency "XBTBookingMgmtService" client_class high
    ("Found in " ++ fileName ++ ": @Provides XBTBookingMgmtServiceClient")%string.

Module ProvidesFacts.
Import JsString Regex RegexFacts.









Lemma lazy_unfold {R : Type} (p : ascii -> bool) (left : option nat)
  (c : ascii) (s : string) (n : nat) (k : @cont R) :
  lazy p left (String c s) n k
  = orElse (k (String c s) n)
      (if (mayIterate left && p c)%bool
       then lazy p (oneLess left) s (S n) k
       else None).
Proof. reflexivity. Qed.










Lemma execAll_skip (pt : pattern) (c : ascii) (s : string) (k : nat) :
  execAll pt (String c s) (S k) = execAll pt s k.
Proof. reflexivity. Qed.

Lemma execAll_try (pt : pattern) (c : ascii) (s : string) :
  execAll pt (String c s) 0
  = match matchAt pt (String c s) with
    | Some (n, g) => g :: execAll pt s (Nat.pred n)
    | None => execAll pt s 0
    end.
Proof. reflexivity. Qed.




End ProvidesFacts.

Module ScenarioFacts.
Import JsString Regex.





Lemma when_nonneg (b : bool) (points : Z) :
  0 <= points -> 0 <= Lib.when b points.
Proof. unfold Lib.when. destruct b; lia. Qed.

(** A file named [ClientModule.java] always has a positive score. *)
Lemma clientModule_scores (pth text lang : string) (sz : Z) :
  20 <= Lib.scoreOf (mkCodeFile "ClientModule.java" pth text lang sz).
Proof.
  unfold Lib.scoreOf. cbv zeta. cbn [name path content size].
  change (Lib.when (includes (toLowerCase "ClientModule.java")
                      "clientmodule") 20) with 20.
  repeat match goal with
         | |- context [Lib.when ?b ?p] =>
             let H := fresh "H" in
             let w := fresh "w" in
             pose proof (when_nonneg b p ltac:(lia)) as H;
             set (w := Lib.when b p) in *; clearbody w
         end.
  lia.
Qed.


End ScenarioFacts.

(** The file of scenario A. *)
Definition scenarioFile : CodeFile :=
  mkCodeFile "ClientModule.java"
    "src/main/java/com/amazon/BookingGateway/ClientModule.java"
    scenarioText "java" 62.





Local Open Scope list_scope.

(* ================================================================== *)
(** * Further properties of the code *)

(** ** Facts about the string primitives *)

Module StringFacts.
Import JsString.

Lemma append_assoc (a b c : string) :
  ((a ++ b) ++ c)%string = (a ++ (b ++ c))%string.
Proof.
  induction a as [|x a IH]; simpl; [reflexivity | rewrite IH; reflexivity].
Qed.

Lemma append_nil_r (a : string) : (a ++ "")%string = a.
Proof.
  induction a as [|x a IH]; simpl; [reflexivity | rewrite IH; reflexivity].
Qed.

Lemma length_append (a b : string) :
  String.length (a ++ b) = (String.length a + String.length b)%nat.
Proof.
  induction a as [|x a IH]; simpl; [reflexivity | rewrite IH; reflexivity].
Qed.

Lemma prefix_append (b c : string) : String.prefix b (b ++ c) = true.
Proof.
  induction b as [|x b IH]; simpl; [destruct c; reflexivity|].
  destruct (ascii_dec x x); [exact IH | congruence].
Qed.

Lemma prefix_split (b s : string) :
  String.prefix b s = true -> exists c, s = (b ++ c)%string.
Proof.
  revert s. induction b as [|x b IH]; intros s H.
  - exists s. reflexivity.
  - destruct s as [|y s]; simpl in H; [discriminate|].
    destruct (ascii_dec x y) as [->|]; [|discriminate].
    destruct (IH s H) as (c & ->). exists c. reflexivity.
Qed.

Lemma includes_nil (sub : string) :
  includes "" sub = (String.prefix sub "" || false)%bool.
Proof. reflexivity. Qed.

Lemma includes_cons (x : ascii) (s sub : string) :
  includes (String x s) sub
  = (String.prefix sub (String x s) || includes s sub)%bool.
Proof. reflexivity. Qed.

Lemma includes_here (s sub : string) :
  String.prefix sub s = true -> includes s sub = true.
Proof.
  intros H. destruct s; rewrite ?includes_nil, ?includes_cons, H; reflexivity.
Qed.

Lemma includes_later (c : ascii) (s sub : string) :
  includes s sub = true -> includes (String c s) sub = true.
Proof. intros H. rewrite includes_cons, H. apply orb_true_r. Qed.

(** [sub] occurs in whatever surrounds it. *)
Lemma includes_append (a b c : string) :
  includes (a ++ b ++ c) b = true.
Proof.
  induction a as [|x a IH].
  - change ("" ++ b ++ c)%string with (b ++ c)%string.
    apply includes_here, prefix_append.
  - apply includes_later, IH.
Qed.

Lemma includes_split (s sub : string) :
  includes s sub = true -> exists a c, s = (a ++ sub ++ c)%string.
Proof.
  induction s as [|x s IH]; intros H.
  - rewrite includes_nil, orb_false_r in H.
    destruct (prefix_split _ _ H) as (c & ->).
    exists "", c. reflexivity.
  - rewrite includes_cons in H.
    apply orb_true_iff in H. destruct H as [H|H].
    + destruct (prefix_split _ _ H) as (c & ->). exists "", c. reflexivity.
    + destruct (IH H) as (a & c & ->). exists (String x a), c. reflexivity.
Qed.

Lemma endsWith_nil (suf : string) :
  endsWith "" suf = (String.eqb "" suf || false)%bool.
Proof. reflexivity. Qed.

Lemma endsWith_cons (x : ascii) (s suf : string) :
  endsWith (String x s) suf
  = (String.eqb (String x s) suf || endsWith s suf)%bool.
Proof. reflexivity. Qed.

Lemma endsWith_self (s : string) : endsWith s s = true.
Proof.
  destruct s; rewrite ?endsWith_nil, ?endsWith_cons, String.eqb_refl;
    reflexivity.
Qed.

Lemma endsWith_append (a b : string) : endsWith (a ++ b) b = true.
Proof.
  induction a as [|x a IH].
  - apply endsWith_self.
  - change (String x a ++ b)%string with (String x (a ++ b)).
    rewrite endsWith_cons, IH. apply orb_true_r.
Qed.

Lemma endsWith_split (s suf : string) :
  endsWith s suf = true -> exists a, s = (a ++ suf)%string.
Proof.
  induction s as [|x s IH]; intros H.
  - rewrite endsWith_nil, orb_false_r in H. apply String.eqb_eq in H.
    subst suf. exists "". reflexivity.
  - rewrite endsWith_cons in H.
    apply orb_true_iff in H. destruct H as [H|H].
    + apply String.eqb_eq in H. subst suf. exists "". reflexivity.
    + destruct (IH H) as (a & ->). exists (String x a). reflexivity.
Qed.

Lemma longer_differs (a suf : string) (x : ascii) :
  String.eqb (String x a ++ suf) suf = false.
Proof.
  apply String.eqb_neq. intros H.
  apply (f_equal String.length) in H. rewrite length_append in H.
  simpl in H. lia.
Qed.

Lemma stripSuffix_nil (suf : string) :
  stripSuffix suf "" = (if String.eqb "" suf then "" else "").
Proof. reflexivity. Qed.

Lemma stripSuffix_cons (x : ascii) (s suf : string) :
  stripSuffix suf (String x s)
  = if String.eqb (String x s) suf then ""
    else String x (stripSuffix suf s).
Proof. reflexivity. Qed.

Lemma stripSuffix_self (s : string) : stripSuffix s s = "".
Proof.
  destruct s; rewrite ?stripSuffix_nil, ?stripSuffix_cons, String.eqb_refl;
    reflexivity.
Qed.

(** Stripping cuts exactly the suffix. *)
Lemma stripSuffix_append (a suf : string) : stripSuffix suf (a ++ suf) = a.
Proof.
  induction a as [|x a IH].
  - apply stripSuffix_self.
  - change (String x a ++ suf)%string with (String x (a ++ suf)).
    rewrite stripSuffix_cons.
    change (String x (a ++ suf)) with (String x a ++ suf)%string at 1.
    rewrite longer_differs, IH. reflexivity.
Qed.

Lemma stripSuffix_other (s suf : string) :
  endsWith s suf = false -> stripSuffix suf s = s.
Proof.
  induction s as [|x s IH]; intros H.
  - rewrite endsWith_nil in H. apply orb_false_iff in H.
    destruct H as [H _]. rewrite stripSuffix_nil, H. reflexivity.
  - rewrite endsWith_cons in H. apply orb_false_iff in H.
    destruct H as [H1 H2]. rewrite stripSuffix_cons, H1, (IH H2).
    reflexivity.
Qed.

(** What is stripped is a prefix of the argument. *)
Lemma stripSuffix_prefix (s suf : string) :
  exists rest, s = (stripSuffix suf s ++ rest)%string.
Proof.
  destruct (endsWith s suf) eqn:E.
  - destruct (endsWith_split _ _ E) as (a & ->). exists suf.
    rewrite stripSuffix_append. reflexivity.
  - exists "". rewrite (stripSuffix_other _ _ E), append_nil_r. reflexivity.
Qed.
End StringFacts.

(** ** Normalisation of captured class names *)

(** The second replacement of
    [cls.replace(/Client$/, "").replace(/ServiceClient$/, "")] only ever
    applies to a class that ends with [ServiceClientClient]: for any other
    class the normal form just drops a final [Client], so that
    [FooServiceClient] becomes [FooService]. *)
Theorem dropClientSuffixes_second_replace (cls : string) :
  JsString.endsWith cls "ServiceClientClient" = false ->
  dropClientSuffixes cls = JsString.stripSuffix "Client" cls.
Proof.
  intros Hno. unfold dropClientSuffixes.
  apply StringFacts.stripSuffix_other.
  destruct (JsString.endsWith (JsString.stripSuffix "Client" cls)
              "ServiceClient") eqn:E; [|reflexivity].
  exfalso. apply StringFacts.endsWith_split in E. destruct E as (a & Ha).
  destruct (JsString.endsWith cls "Client") eqn:Ec.
  - apply StringFacts.endsWith_split in Ec. destruct Ec as (b & ->).
    rewrite StringFacts.stripSuffix_append in Ha. subst b.
    rewrite StringFacts.append_assoc in Hno.
    change ("ServiceClient" ++ "Client")%string
      with "ServiceClientClient" in Hno.
    rewrite StringFacts.endsWith_append in Hno. discriminate.
  - rewrite (StringFacts.stripSuffix_other _ _ Ec) in Ha. subst cls.
    change "ServiceClient" with ("Service" ++ "Client")%string in Ec.
    rewrite <- StringFacts.append_assoc, StringFacts.endsWith_append in Ec.
    discriminate.
Qed.

Lemma dropClientSuffixes_witness :
  JsString.endsWith "XbtIORServiceClient" "ServiceClientClient" = false
  /\ dropClientSuffixes "XbtIORServiceClient" = "XbtIORService".
Proof.
  split; [reflexivity|].
  rewrite (dropClientSuffixes_second_replace "XbtIORServiceClient");
    reflexivity.
Defined.

(** ** The upload filter, characterised *)

Module UploadFacts.
Import JsString.

(** The filter's test, as an equation on the path. *)
Lemma shouldIgnore_decomposed (path : string) :
  Upload.shouldIgnore path = true <->
  exists pattern,
    In pattern Upload.IGNORE_PATTERNS /\
    ((exists before after,
         path = (before ++ ("/" ++ pattern ++ "/") ++ after)%string)
     \/ (exists after, path = ((pattern ++ "/") ++ after)%string)).
Proof.
  unfold Upload.shouldIgnore. rewrite existsb_exists. split.
  - intros (pattern & Hin & H). exists pattern. split; [exact Hin|].
    apply orb_true_iff in H. destruct H as [H|H].
    + left. apply StringFacts.includes_split, H.
    + right. apply StringFacts.prefix_split, H.
  - intros (pattern & Hin & [(before & after & ->)|(after & ->)]);
      exists pattern; (split; [exact Hin|]); apply orb_true_iff.
    + left. apply StringFacts.includes_append.
    + right. apply StringFacts.prefix_append.
Qed.

Lemma split_cons (c : ascii) (s : string) :
  split "/" (String c s)
  = if Ascii.eqb c "/" then EmptyString :: split "/" s
    else match split "/" s with
         | [] => [String c EmptyString]
         | p :: ps => String c p :: ps
         end.
Proof. reflexivity. Qed.

Lemma split_nonempty (s : string) : split "/" s <> [].
Proof.
  destruct s as [|c s]; [discriminate|]. rewrite split_cons.
  destruct (Ascii.eqb c "/"); [discriminate|].
  destruct (split "/" s); discriminate.
Qed.

(** A slash separates the segments before it from those after it. *)
Lemma split_append (a r : string) :
  split "/" (a ++ String "/" r) = split "/" a ++ split "/" r.
Proof.
  induction a as [|c a IH]; [reflexivity|].
  change (String c a ++ String "/" r)%string
    with (String c (a ++ String "/" r)).
  rewrite !split_cons, IH.
  destruct (Ascii.eqb c "/"); [reflexivity|].
  pose proof (split_nonempty a) as Hne.
  destruct (split "/" a) as [|h t]; [congruence | reflexivity].
Qed.

(** The segments, joined by slashes, give the path back. *)
Lemma concat_split (s : string) : String.concat "/" (split "/" s) = s.
Proof.
  induction s as [|c s IH]; [reflexivity|]. rewrite split_cons.
  pose proof (split_nonempty s) as Hne.
  destruct (Ascii.eqb_spec c "/") as [->|_].
  - destruct (split "/" s) as [|h t]; [congruence|].
    change (String.concat "/" (EmptyString :: h :: t))
      with (String "/" (String.concat "/" (h :: t))).
    rewrite IH. reflexivity.
  - destruct (split "/" s) as [|h t]; [congruence|].
    destruct t as [|h' t].
    + cbn [String.concat] in *. rewrite IH. reflexivity.
    + change (String.concat "/" (String c h :: h' :: t))
        with (String c (h ++ "/" ++ String.concat "/" (h' :: t)))%string.
      change (String.concat "/" (h :: h' :: t))
        with (h ++ "/" ++ String.concat "/" (h' :: t))%string in IH.
      rewrite IH. reflexivity.
Qed.

(** A segment that is not the last one is followed by a slash, and
    starts the joined path or follows a slash. *)
Lemma concat_inner (before : list string) (p : string)
  (y : string) (after : list string) :
  (exists a c,
      String.concat "/" (before ++ p :: y :: after)
      = (a ++ ("/" ++ p ++ "/") ++ c)%string)
  \/ (exists c,
         String.concat "/" (before ++ p :: y :: after)
         = ((p ++ "/") ++ c)%string).
Proof.
  induction before as [|x before IH].
  - right. exists (String.concat "/" (y :: after)).
    change (String.concat "/" ([] ++ p :: y :: after))
      with (p ++ "/" ++ String.concat "/" (y :: after))%string.
    rewrite StringFacts.append_assoc. reflexivity.
  - left.
    assert (Hcons : exists z rest, before ++ p :: y :: after = z :: rest).
    { destruct before; simpl; eauto. }
    destruct Hcons as (z & rest & Hcons).
    assert (E : String.concat "/" ((x :: before) ++ p :: y :: after)
                = (x ++ "/" ++ String.concat "/"
                                  (before ++ p :: y :: after))%string).
    { cbn [app]. rewrite Hcons. reflexivity. }
    rewrite E.
    destruct IH as [(a & c & ->)|(c & ->)].
    + exists (x ++ "/" ++ a)%string, c.
      rewrite !StringFacts.append_assoc. reflexivity.
    + exists x, c. rewrite !StringFacts.append_assoc. reflexivity.
Qed.

Lemma removelast_inner {A : Type} (l : list A) (p : A) :
  In p (removelast l) ->
  exists before y after, l = before ++ p :: y :: after.
Proof.
  intros Hin. destruct l as [|x l]; [destruct Hin|].
  assert (Hne : x :: l <> []) by discriminate.
  rewrite (app_removelast_last x Hne).
  apply in_split in Hin. destruct Hin as (before & rest & ->).
  rewrite <- app_assoc. cbn [app].
  destruct rest as [|y rest].
  - exists before, (last (x :: l) x), []. reflexivity.
  - exists before, y, (rest ++ [last (x :: l) x]). reflexivity.
Qed.

(** None of the fourteen names contains a slash. *)
Lemma patterns_are_segments :
  Forall (fun p => split "/" p = [p]) Upload.IGNORE_PATTERNS.
Proof. repeat constructor. Qed.
End UploadFacts.

(** The upload filter tests the directory components of a path: a path
    is ignored exactly when one of its segments other than the last is
    one of the fourteen names.  So a file that merely has such a name, or
    a directory whose name only contains one, is not ignored. *)
Theorem shouldIgnore_tests_directory_components (path : string) :
  Upload.shouldIgnore path
  = existsb (fun segment =>
               existsb (String.eqb segment) Upload.IGNORE_PATTERNS)
      (removelast (JsString.split "/" path)).
Proof.
  apply Bool.eq_iff_eq_true.
  rewrite UploadFacts.shouldIgnore_decomposed, existsb_exists. split.
  - intros (p & Hp & Hpath).
    pose proof UploadFacts.patterns_are_segments as Hseg.
    rewrite Forall_forall in Hseg. specialize (Hseg p Hp).
    exists p. split.
    + destruct Hpath as [(before & after & ->)|(after & ->)].
      * change (before ++ ("/" ++ p ++ "/") ++ after)%string
          with (before ++ String "/" ((p ++ String "/" "") ++ after))%string.
        rewrite StringFacts.append_assoc.
        change (String "/" "" ++ after)%string with (String "/" after).
        rewrite !UploadFacts.split_append, Hseg.
        rewrite removelast_app
          by (cbn [app]; discriminate).
        apply in_or_app. right. cbn [app removelast].
        pose proof (UploadFacts.split_nonempty after) as Hne.
        destruct (JsString.split "/" after); [congruence|].
        left. reflexivity.
      * rewrite StringFacts.append_assoc.
        change (String "/" "" ++ after)%string with (String "/" after).
        rewrite UploadFacts.split_append, Hseg. cbn [app removelast].
        pose proof (UploadFacts.split_nonempty after) as Hne.
        destruct (JsString.split "/" after); [congruence|].
        left. reflexivity.
    + apply existsb_exists. exists p. split; [exact Hp|].
      apply String.eqb_refl.
  - intros (segment & Hin & Hpat). apply existsb_exists in Hpat.
    destruct Hpat as (p & Hp & E). apply String.eqb_eq in E. subst segment.
    exists p. split; [exact Hp|].
    destruct (UploadFacts.removelast_inner _ _ Hin)
      as (before & y & after & Hsplit).
    rewrite <- (UploadFacts.concat_split path), Hsplit.
    apply UploadFacts.concat_inner.
Qed.

(** ** Language tags from file names *)

Module LanguageTagFacts.
Import JsString Walker.

Lemma extension_cons (c : ascii) (rest : string) :
  extension (String c rest)
  = if includes rest "." then extension rest else String c rest.
Proof. reflexivity. Qed.

(** The extension is what starts at the last dot. *)
Lemma extension_last_dot (before w : string) :
  includes w "." = false ->
  extension (before ++ String "." w) = String "." w.
Proof.
  intros Hw. induction before as [|c before IH].
  - change ("" ++ String "." w)%string with (String "." w).
    rewrite extension_cons, Hw. reflexivity.
  - change (String c before ++ String "." w)%string
      with (String c (before ++ String "." w)).
    rewrite extension_cons.
    rewrite (StringFacts.includes_append before "." w : 
               includes (before ++ String "." w) "." = true).
    exact IH.
Qed.

Lemma tag_of_suffix (fileName w : string) (tag : string) :
  includes w "." = false ->
  detectLanguage (String "." w) = tag ->
  endsWith fileName (String "." w) = true ->
  detectLanguage (extension fileName) = tag.
Proof.
  intros Hw Htag He. apply StringFacts.endsWith_split in He.
  destruct He as (before & ->). rewrite (extension_last_dot before w Hw).
  exact Htag.
Qed.
End LanguageTagFacts.

(** The tag [detectLanguage] gives to the extension of a file name is the
    table's entry for the suffix the name ends with, whatever dots the name
    has before; header and Scala files, which the walker accepts but the
    table lacks, are tagged ["text"]. *)
Theorem language_follows_the_table (fileName ext tag : string) :
  In (ext, tag) (Walker.languageMap ++ [(".h", "text"); (".scala", "text")]) ->
  JsString.endsWith fileName ext = true ->
  Walker.detectLanguage (Walker.extension fileName) = tag.
Proof.
  intros Hin He. unfold Walker.languageMap in Hin. simpl in Hin.
  repeat (destruct Hin as [Hin|Hin];
          [injection Hin as <- <-;
           refine (LanguageTagFacts.tag_of_suffix fileName _ _ _ _ He);
           reflexivity|]).
  destruct Hin.
Qed.

Lemma language_follows_the_table_witness :
  In (".py", "python")
     (Walker.languageMap ++ [(".h", "text"); (".scala", "text")])
  /\ JsString.endsWith "setup.cfg.tar.py" ".py" = true
  /\ Walker.detectLanguage (Walker.extension "setup.cfg.tar.py") = "python".
Proof.
  assert (Hin : In (".py", "python")
                   (Walker.languageMap
                    ++ [(".h", "text"); (".scala", "text")]))
    by (left; reflexivity).
  split; [exact Hin|]. split; [reflexivity|].
  exact (language_follows_the_table "setup.cfg.tar.py" ".py" "python"
           Hin eq_refl).
Defined.

(** ** What the walker reports *)

(** Every file [scanDirectory] reports was readable, has a name ending in
    one of the code extensions, a size that is not 0 and at most 5 MiB,
    and the language tag of its extension. *)
Theorem scanDirectory_reports_code_files
  (root : option (list Walker.Entry)) (f : CodeFile) :
  In f (Walker.scanDirectory root) ->
  existsb (JsString.endsWith (name f)) Walker.CODE_EXTENSIONS = true
  /\ size f <> 0
  /\ size f <= 5 * 1024 * 1024
  /\ language f = Walker.detectLanguage (Walker.extension (name f)).
Proof.
  assert (Hentry : forall e rel, In f (Walker.scanEntry rel e) ->
            existsb (JsString.endsWith (name f)) Walker.CODE_EXTENSIONS = true
            /\ size f <> 0
            /\ size f <= 5 * 1024 * 1024
            /\ language f = Walker.detectLanguage (Walker.extension (name f))).
  { induction e as [nm sz text|nm|nm entries IH]
      using WalkerFacts.Entry_induction;
      intros rel Hf; cbn [Walker.scanEntry] in Hf.
    - destruct (existsb (JsString.endsWith nm) Walker.CODE_EXTENSIONS) eqn:Ec;
        cbn [negb] in Hf; [|destruct Hf].
      destruct (Z.gtb_spec sz (5 * 1024 * 1024)); [destruct Hf|].
      destruct (Z.eqb_spec sz 0); [destruct Hf|].
      destruct text as [c|]; [|destruct Hf].
      destruct Hf as [<-|[]]. cbn [name size language].
      repeat split; assumption || reflexivity.
    - destruct (existsb (String.eqb nm) Walker.IGNORE_DIRS); destruct Hf.
    - destruct (existsb (String.eqb nm) Walker.IGNORE_DIRS); [destruct Hf|].
      apply in_flat_map in Hf. destruct Hf as (e & He & Hf).
      rewrite Forall_forall in IH. exact (IH e He _ Hf). }
  destruct root as [entries|]; simpl; [|tauto].
  intros Hf. apply in_flat_map in Hf. destruct Hf as (e & _ & Hf).
  exact (Hentry e _ Hf).
Qed.

Definition sampleTree : list Walker.Entry :=
  [Walker.Dir "src"
     (Some [Walker.File "Order.java" 120 (Some "class Order {}");
            Walker.File "notes.txt" 10 (Some "todo");
            Walker.File "Empty.java" 0 (Some "");
            Walker.File "Secret.java" 40 None;
            Walker.Dir "locked" None;
            Walker.Dir "target"
              (Some [Walker.File "Gen.java" 30 (Some "class Gen {}")])])].

Lemma scanDirectory_reports_witness :
  Walker.scanDirectory (Some sampleTree)
  = [mkCodeFile "Order.java" "src/Order.java" "class Order {}" "java" 120]
  /\ size (mkCodeFile "Order.java" "src/Order.java" "class Order {}"
             "java" 120) <> 0.
Proof.
  split; [reflexivity|].
  apply (scanDirectory_reports_code_files (Some sampleTree)
           (mkCodeFile "Order.java" "src/Order.java" "class Order {}"
              "java" 120)).
  left. reflexivity.
Defined.

(** ** What a rule can match *)

(** Every character of [s] satisfies [P]. *)
Fixpoint allChars (P : ascii -> bool) (s : string) : bool :=
  match s with
  | EmptyString => true
  | String c s' => (P c && allChars P s')%bool
  end.

(** The six extraction rules. *)
Definition allRules : list Regex.pattern :=
  [Regex.providesPattern; Regex.clientBuilderPattern; Regex.importPattern;
   Regex.cliImportPattern; Regex.pythonImportPattern; Regex.jsImportPattern].

Module MatchFacts.
Import JsString Regex.

(** [r] consumes only characters that satisfy [P]. *)
Fixpoint consumesOnly (P : ascii -> bool) (r : regex) : Prop :=
  match r with
  | Eps => True
  | Lit l => allChars P l = true
  | Rep p _ _ _ => forall c, p c = true -> P c = true
  | Alt r1 r2 => consumesOnly P r1 /\ consumesOnly P r2
  | Seq r1 r2 => consumesOnly P r1 /\ consumesOnly P r2
  end.

(** [r] consumes at least one character. *)
Fixpoint consumesSome (r : regex) : bool :=
  match r with
  | Eps => false
  | Lit l => negb (String.eqb l "")
  | Rep _ min _ _ => negb (Nat.eqb min 0)
  | Alt r1 r2 => (consumesSome r1 && consumesSome r2)%bool
  | Seq r1 r2 => (consumesSome r1 || consumesSome r2)%bool
  end.

Lemma allChars_append (P : ascii -> bool) (a b : string) :
  allChars P (a ++ b) = (allChars P a && allChars P b)%bool.
Proof.
  induction a as [|x a IH]; simpl; [reflexivity|].
  rewrite IH, andb_assoc. reflexivity.
Qed.

Lemma substring_prefix (a b : string) :
  substring 0 (String.length a) (a ++ b) = a.
Proof.
  induction a as [|x a IH]; simpl.
  - destruct b; reflexivity.
  - rewrite IH. reflexivity.
Qed.

Section Consumed.
Context {R : Type}.
Variable P : ascii -> bool.

(** [k] succeeded with [res] after a prefix [taken] of [s], all of whose
    characters satisfy [P], at least [least] of them. *)
Definition Consumed (least : nat) (k : @cont R) (s : string) (n : nat)
  (res : R) : Prop :=
  exists taken rest,
    s = (taken ++ rest)%string
    /\ allChars P taken = true
    /\ (least <= String.length taken)%nat
    /\ k rest (n + String.length taken)%nat = Some res.

Lemma Consumed_here (k : @cont R) (s : string) (n : nat) (res : R) :
  k s n = Some res -> Consumed 0 k s n res.
Proof.
  intros H. exists "", s. simpl. rewrite Nat.add_0_r.
  repeat split; auto.
Qed.

Lemma Consumed_next (least : nat) (k : @cont R) (c : ascii) (s : string)
  (n : nat) (res : R) :
  P c = true -> Consumed least k s (S n) res ->
  Consumed (S least) k (String c s) n res.
Proof.
  intros Hc (taken & rest & -> & Hall & Hlen & Hk).
  exists (String c taken), rest. simpl. rewrite Hc, Hall.
  repeat split; [lia|]. rewrite <- Hk. f_equal. lia.
Qed.

Lemma Consumed_weaken (least least' : nat) (k : @cont R) (s : string)
  (n : nat) (res : R) :
  (least' <= least)%nat -> Consumed least k s n res ->
  Consumed least' k s n res.
Proof.
  intros Hle (taken & rest & Hs & Hall & Hlen & Hk).
  exists taken, rest. repeat split; auto. lia.
Qed.

Lemma Consumed_chain (l1 l2 : nat) (k1 k2 : @cont R) (s : string) (n : nat)
  (res : R) :
  Consumed l1 k1 s n res ->
  (forall s' m r, k1 s' m = Some r -> Consumed l2 k2 s' m r) ->
  Consumed (l1 + l2) k2 s n res.
Proof.
  intros (t1 & rest1 & -> & Hall1 & Hlen1 & Hk1) Hnext.
  destruct (Hnext _ _ _ Hk1) as (t2 & rest2 & -> & Hall2 & Hlen2 & Hk2).
  exists (t1 ++ t2)%string, rest2.
  rewrite StringFacts.append_assoc, allChars_append, Hall1, Hall2,
    StringFacts.length_append.
  repeat split; [lia|]. rewrite <- Hk2. f_equal. lia.
Qed.

Lemma lit_consumed (l : string) :
  allChars P l = true ->
  forall s n k res,
    lit l s n k = Some res -> Consumed (String.length l) k s n res.
Proof.
  induction l as [|a l IH]; intros Hall s n k res H.
  - apply Consumed_here, H.
  - simpl in Hall. apply andb_true_iff in Hall. destruct Hall as [Ha Hl].
    destruct s as [|c s]; simpl in H; [discriminate|].
    destruct (Ascii.eqb_spec a c) as [<-|]; [|discriminate].
    apply (Consumed_next _ _ _ _ _ _ Ha), (IH Hl), H.
Qed.

Lemma mandatory_consumed (p : ascii -> bool) (min : nat) :
  (forall c, p c = true -> P c = true) ->
  forall s n k res,
    mandatory p min s n k = Some res -> Consumed min k s n res.
Proof.
  intros Hp. induction min as [|min IH]; intros s n k res H.
  - apply Consumed_here, H.
  - destruct s as [|c s]; simpl in H; [discriminate|].
    destruct (p c) eqn:Ec; [|discriminate].
    apply (Consumed_next _ _ _ _ _ _ (Hp c Ec)), IH, H.
Qed.

Lemma greedy_consumed (p : ascii -> bool) :
  (forall c, p c = true -> P c = true) ->
  forall s left n k res,
    greedy p left s n k = Some res -> Consumed 0 k s n res.
Proof.
  intros Hp. induction s as [|c s IH]; intros left n k res H.
  - apply Consumed_here, H.
  - simpl in H. destruct (mayIterate left); simpl in H;
      [|apply Consumed_here, H].
    destruct (p c) eqn:Ec; [|apply Consumed_here, H].
    apply RegexFacts.orElse_Some in H. destruct H as [H|H].
    + apply (Consumed_weaken 1); [lia|].
      apply (Consumed_next _ _ _ _ _ _ (Hp c Ec)), (IH _ _ _ _ H).
    + apply Consumed_here, H.
Qed.

Lemma lazy_consumed (p : ascii -> bool) :
  (forall c, p c = true -> P c = true) ->
  forall s left n k res,
    lazy p left s n k = Some res -> Consumed 0 k s n res.
Proof.
  intros Hp. induction s as [|c s IH]; intros left n k res H.
  - simpl in H. apply RegexFacts.orElse_Some in H.
    destruct H as [H|H]; [apply Consumed_here, H | discriminate].
  - simpl in H. apply RegexFacts.orElse_Some in H. destruct H as [H|H].
    + apply Consumed_here, H.
    + destruct (mayIterate left); simpl in H; [|discriminate].
      destruct (p c) eqn:Ec; [|discriminate].
      apply (Consumed_weaken 1); [lia|].
      apply (Consumed_next _ _ _ _ _ _ (Hp c Ec)), (IH _ _ _ _ H).
Qed.

(** What a run consumes before it hands over to its continuation. *)
Lemma run_consumed (r : regex) :
  consumesOnly P r ->
  forall s n k res,
    run r s n k = Some res ->
    Consumed (if consumesSome r then 1 else 0) k s n res.
Proof.
  induction r as [|l|p min max g|r1 IH1 r2 IH2|r1 IH1 r2 IH2];
    simpl; intros Hc s n k res H.
  - apply Consumed_here, H.
  - apply (lit_consumed l Hc) in H.
    apply (Consumed_weaken _ _ _ _ _ _) with (2 := H).
    destruct l; simpl; lia.
  - apply (mandatory_consumed p min Hc) in H.
    assert (H' : Consumed (min + 0) k s n res).
    { apply (Consumed_chain _ _ _ _ _ _ _ H). intros s' m r Hr.
      destruct g; [apply (greedy_consumed p Hc) in Hr
                  | apply (lazy_consumed p Hc) in Hr]; exact Hr. }
    apply (Consumed_weaken _ _ _ _ _ _) with (2 := H').
    destruct min; simpl; lia.
  - destruct Hc as [H1 H2]. apply RegexFacts.orElse_Some in H.
    destruct H as [H|H]; [apply (IH1 H1) in H | apply (IH2 H2) in H];
      apply (Consumed_weaken _ _ _ _ _ _) with (2 := H);
      destruct (consumesSome r1), (consumesSome r2); simpl; lia.
  - destruct Hc as [H1 H2]. apply (IH1 H1) in H.
    assert (H' : Consumed ((if consumesSome r1 then 1 else 0)
                           + (if consumesSome r2 then 1 else 0)) k s n res).
    { apply (Consumed_chain _ _ _ _ _ _ _ H). intros s' m r Hr.
      apply (IH2 H2), Hr. }
    apply (Consumed_weaken _ _ _ _ _ _) with (2 := H').
    destruct (consumesSome r1), (consumesSome r2); simpl; lia.
Qed.
End Consumed.

Lemma consumesOnly_any (r : regex) : consumesOnly isAny r.
Proof.
  induction r as [|l|p min max g|r1 IH1 r2 IH2|r1 IH1 r2 IH2]; simpl; auto.
  induction l as [|a l IH]; [reflexivity | exact IH].
Qed.

(** The shape the rules share: something is consumed before the group,
    and the group consumes word characters, at least one. *)
Definition wellShaped (pt : pattern) : Prop :=
  consumesSome (pre pt) = true
  /\ consumesSome (grp pt) = true
  /\ consumesOnly isWord (grp pt).

Lemma allRules_wellShaped (pt : pattern) : In pt allRules -> wellShaped pt.
Proof.
  unfold allRules. simpl.
  intros H. repeat (destruct H as [<-|H]); try destruct H;
    (split; [reflexivity|]); (split; [reflexivity|]);
    simpl; repeat split; auto.
Qed.

(** A match of a well-shaped rule is a non-empty prefix of the input and
    its capture is a non-empty run of word characters inside it. *)
Lemma matchAt_wellShaped (pt : pattern) (s : string) (n : nat)
  (g : string) :
  wellShaped pt -> matchAt pt s = Some (n, g) ->
  (1 <= n <= String.length s)%nat
  /\ g <> ""
  /\ allChars isWord g = true
  /\ includes s g = true.
Proof.
  intros (Hpre & Hgrp & Hword) H. unfold matchAt in H.
  apply (run_consumed isAny _ (consumesOnly_any _)) in H.
  rewrite Hpre in H.
  destruct H as (t1 & s1 & -> & _ & Hlen1 & H).
  apply (run_consumed isWord _ Hword) in H. rewrite Hgrp in H.
  destruct H as (t2 & s2 & -> & Hall2 & Hlen2 & H).
  apply (run_consumed isAny _ (consumesOnly_any _)) in H.
  destruct H as (t3 & s3 & -> & _ & _ & H).
  injection H as <- <-. simpl.
  rewrite substring_prefix, !StringFacts.length_append.
  repeat split; try lia.
  - intros ->. simpl in Hlen2. lia.
  - exact Hall2.
  - apply StringFacts.includes_append.
Qed.

Lemma includes_suffix (c : ascii) (s g : string) :
  includes s g = true -> includes (String c s) g = true.
Proof. apply StringFacts.includes_later. Qed.

(** The captures of the [exec] loop are captures of matches at positions
    of the content. *)
Lemma execAll_captures (pt : pattern) (g : string) :
  wellShaped pt ->
  forall s skip,
    In g (execAll pt s skip) ->
    g <> "" /\ allChars isWord g = true /\ includes s g = true.
Proof.
  intros Hpt. induction s as [|c s IH]; intros skip Hg.
  - destruct skip as [|skip]; simpl in Hg; [|destruct Hg].
    destruct (matchAt pt "") as [[n g']|] eqn:Em; [|destruct Hg].
    destruct Hg as [->|[]].
    destruct (matchAt_wellShaped pt "" n g Hpt Em) as (_ & H1 & H2 & H3).
    auto.
  - destruct skip as [|skip].
    + rewrite ProvidesFacts.execAll_try in Hg.
      destruct (matchAt pt (String c s)) as [[n g']|] eqn:Em.
      * destruct Hg as [->|Hg].
        -- destruct (matchAt_wellShaped pt _ n g Hpt Em) as (_ & H1 & H2 & H3).
           auto.
        -- destruct (IH _ Hg) as (H1 & H2 & H3).
           auto using includes_suffix.
      * destruct (IH _ Hg) as (H1 & H2 & H3). auto using includes_suffix.
    + rewrite ProvidesFacts.execAll_skip in Hg.
      destruct (IH _ Hg) as (H1 & H2 & H3). auto using includes_suffix.
Qed.
End MatchFacts.

(** No extraction rule can match the empty string, so the [exec] loops
    always advance: every match of each of the six rules is a non-empty
    prefix of the text it is tried on, and what it captures is a
    non-empty run of word characters that occurs in that text. *)
Theorem rule_matches_are_nonempty (pt : Regex.pattern) (s : string)
  (n : nat) (g : string) :
  In pt allRules ->
  Regex.matchAt pt s = Some (n, g) ->
  (1 <= n <= String.length s)%nat
  /\ g <> ""
  /\ allChars JsString.isWord g = true
  /\ JsString.includes s g = true.
Proof.
  intros Hpt. apply MatchFacts.matchAt_wellShaped,
    MatchFacts.allRules_wellShaped, Hpt.
Qed.

Lemma rule_matches_witness :
  In Regex.importPattern allRules
  /\ Regex.matchAt Regex.importPattern "import a.b.FooClient; // x"
     = Some (21%nat, "FooClient")
  /\ (1 <= 21 <= String.length "import a.b.FooClient; // x")%nat.
Proof.
  assert (Hin : In Regex.importPattern allRules)
    by (right; right; left; reflexivity).
  split; [exact Hin|]. split; [reflexivity|].
  apply (rule_matches_are_nonempty Regex.importPattern
           "import a.b.FooClient; // x" 21 "FooClient" Hin eq_refl).
Defined.

(** ** Every dependency is backed by text of a file *)

(** [d] was produced from [file]: a class name [cls] of word characters
    occurs in the content, the dependency's name is [cls] without a
    suffix, and the evidence names the file and the class. *)
Definition Backed (file : CodeFile) (d : Dependency) : Prop :=
  exists cls,
    JsString.includes (content file) cls = true
    /\ allChars JsString.isWord cls = true
    /\ (exists dropped, cls = (serviceName d ++ dropped)%string)
    /\ (evidence d
        = ("Found in " ++ name file ++ ": " ++ providesEvidence cls)%string
        \/ evidence d
           = ("Found in " ++ name file ++ ": " ++ builderEvidence cls)%string
        \/ evidence d
           = ("Found in " ++ name file ++ ": " ++ importEvidence cls)%string).

Module TraceFacts.
Import JsString Regex.

Lemma allChars_prefix (P : ascii -> bool) (a b : string) :
  allChars P (a ++ b) = true -> allChars P a = true.
Proof.
  rewrite MatchFacts.allChars_append. intros H.
  apply andb_true_iff in H. tauto.
Qed.

(** A normaliser only drops a suffix. *)
Definition dropsSuffix (normalize : string -> string) : Prop :=
  forall cls, exists dropped, cls = (normalize cls ++ dropped)%string.

Lemma stripSuffix_drops (suf : string) : dropsSuffix (stripSuffix suf).
Proof. intros cls. apply StringFacts.stripSuffix_prefix. Qed.

Lemma dropsSuffix_compose (f g : string -> string) :
  dropsSuffix f -> dropsSuffix g -> dropsSuffix (fun cls => f (g cls)).
Proof.
  intros Hf Hg cls. destruct (Hg cls) as (d1 & H1).
  destruct (Hf (g cls)) as (d2 & H2). exists (d2 ++ d1)%string.
  rewrite <- StringFacts.append_assoc, <- H2. exact H1.
Qed.

Lemma dropClientSuffixes_drops : dropsSuffix dropClientSuffixes.
Proof.
  apply (dropsSuffix_compose (stripSuffix "ServiceClient")
           (stripSuffix "Client")); apply stripSuffix_drops.
Qed.

(** One rule applied to one file. *)
Lemma emit_backed (valid : string -> bool) (normalize : string -> string)
  (src : Source) (conf : Confidence) (describe : string -> string)
  (file : CodeFile) (pt : pattern) (d : Dependency) :
  In pt allRules -> dropsSuffix normalize ->
  In d (emit valid normalize src conf describe file
          (matches pt (content file))) ->
  exists cls,
    includes (content file) cls = true
    /\ allChars isWord cls = true
    /\ (exists dropped, cls = (serviceName d ++ dropped)%string)
    /\ evidence d = ("Found in " ++ name file ++ ": " ++ describe cls)%string.
Proof.
  intros Hpt Hn Hd. apply ExtractFacts.emit_In in Hd.
  destruct Hd as (cls & Hcls & _ & ->).
  apply (MatchFacts.execAll_captures pt cls
           (MatchFacts.allRules_wellShaped pt Hpt)) in Hcls.
  destruct Hcls as (_ & Hword & Hinc).
  exists cls. split; [exact Hinc|]. split; [exact Hword|].
  split; [apply Hn | reflexivity].
Qed.

Local Tactic Notation "rule" integer(n) :=
  let H := fresh in
  intros H; eapply emit_backed in H;
  [destruct H as (cls & H1 & H2 & H3 & H4); exists cls;
   split; [exact H1|]; split; [exact H2|]; split; [exact H3|]; auto
  | do n right; left; reflexivity
  | ].

Lemma java_backed (file : CodeFile) (d : Dependency) :
  In d (Lib.extractJavaDependencies file) -> Backed file d.
Proof.
  unfold Lib.extractJavaDependencies. cbv zeta. intros Hd.
  apply in_app_or in Hd. destruct Hd as [Hd|Hd];
    [|apply in_app_or in Hd; destruct Hd as [Hd|Hd]]; revert Hd.
  - rule 0. apply dropClientSuffixes_drops.
  - rule 1. apply stripSuffix_drops.
  - rule 2.
    apply (dropsSuffix_compose (stripSuffix "Resource") dropClientSuffixes);
      [apply stripSuffix_drops | apply dropClientSuffixes_drops].
Qed.

Lemma python_backed (file : CodeFile) (d : Dependency) :
  In d (Lib.extractPythonDependencies file) -> Backed file d.
Proof.
  unfold Lib.extractPythonDependencies. rule 4. apply stripSuffix_drops.
Qed.

Lemma javascript_backed (file : CodeFile) (d : Dependency) :
  In d (Lib.extractJavaScriptDependencies file) -> Backed file d.
Proof.
  unfold Lib.extractJavaScriptDependencies. rule 5.
  apply stripSuffix_drops.
Qed.

Lemma cli_backed (file : CodeFile) (d : Dependency) :
  In d (Cli.javaRules file) -> Backed file d.
Proof.
  unfold Cli.javaRules. cbv zeta. intros Hd.
  apply in_app_or in Hd. destruct Hd as [Hd|Hd];
    [|apply in_app_or in Hd; destruct Hd as [Hd|Hd]]; revert Hd.
  - rule 0. apply dropClientSuffixes_drops.
  - rule 1. apply stripSuffix_drops.
  - rule 3. apply dropClientSuffixes_drops.
Qed.

Lemma Backed_word (file : CodeFile) (d : Dependency) :
  Backed file d -> allChars isWord (serviceName d) = true.
Proof.
  intros (cls & _ & Hword & (dropped & ->) & _).
  apply (allChars_prefix _ _ _ Hword).
Qed.
End TraceFacts.

(** Every dependency of the library's analysis comes from one of the
    selected key files: a class name occurs in that file's content, the
    dependency's name is that class name without a suffix, the evidence
    names the file and the class; so the name consists of word
    characters. *)
Theorem library_dependencies_are_backed (cmp : Collation) (engine : Engine)
  (files : list CodeFile) (d : Dependency) :
  In d (ServiceAnalysis.dependencies
          (Lib.analyzeServiceDependencies cmp engine files)) ->
  (exists file,
      In file
        (Lib.selectKeyFiles files (Lib.detectPrimaryLanguage engine files))
      /\ In file files
      /\ Backed file d)
  /\ allChars JsString.isWord (serviceName d) = true.
Proof.
  intros Hd. simpl in Hd. rewrite Resolver.lib_resolve in Hd.
  apply Resolver.resolve_subset in Hd.
  unfold Lib.extractDependencies in Hd. apply in_flat_map in Hd.
  destruct Hd as (file & Hfile & Hd).
  assert (Hb : Backed file d).
  { apply in_app_or in Hd. destruct Hd as [Hd|Hd];
      [|apply in_app_or in Hd; destruct Hd as [Hd|Hd]].
    - destruct (_ || _)%bool in Hd; [|destruct Hd].
      apply TraceFacts.java_backed, Hd.
    - destruct (_ || _)%bool in Hd; [|destruct Hd].
      apply TraceFacts.python_backed, Hd.
    - destruct (_ || _)%bool in Hd; [|destruct Hd].
      apply TraceFacts.javascript_backed, Hd. }
  split; [|apply (TraceFacts.Backed_word file), Hb].
  exists file. split; [exact Hfile|]. split; [|exact Hb].
  rewrite ScorerFacts.selectKeyFiles_spec in Hfile.
  apply ScorerFacts.In_firstn, SortFacts.sort_In, filter_In in Hfile.
  apply Hfile.
Qed.

Lemma library_dependencies_witness :
  In (scenarioDependency "ClientModule.java")
     (ServiceAnalysis.dependencies
        (Lib.analyzeServiceDependencies codePointCollation
           insertionEngine [scenarioFile]))
  /\ allChars JsString.isWord "XBTBookingMgmtService" = true.
Proof.
  assert (Hin : In (scenarioDependency "ClientModule.java")
                   (ServiceAnalysis.dependencies
                      (Lib.analyzeServiceDependencies codePointCollation
                    insertionEngine
                         [scenarioFile])))
    by (vm_compute; left; reflexivity).
  split; [exact Hin|].
  apply (library_dependencies_are_backed codePointCollation insertionEngine
           [scenarioFile]
           (scenarioDependency "ClientModule.java") Hin).
Defined.

(** Every dependency of the CLI's analysis comes from an input file tagged
    ["java"], in the same sense; its name consists of word characters and
    has between 3 and 99 of them.  Files with any other tag contribute
    nothing. *)
Theorem cli_dependencies_are_backed (cmp : Collation)
  (files : list CodeFile) (d : Dependency) :
  In d (ServiceAnalysis.dependencies
          (Cli.analyzeServiceDependencies cmp files)) ->
  (exists file,
      In file files /\ language file = "java" /\ Backed file d)
  /\ allChars JsString.isWord (serviceName d) = true
  /\ 2 < JsString.len (serviceName d) < 100.
Proof.
  intros Hd. simpl in Hd. rewrite Resolver.cli_resolve in Hd.
  apply Resolver.resolve_subset in Hd.
  pose proof (ExtractFacts.collect_Forall _ ExtractFacts.cli_lengthOk files)
    as Hlen.
  rewrite Forall_forall in Hlen. specialize (Hlen d Hd).
  unfold Cli.collect in Hd. apply in_flat_map in Hd.
  destruct Hd as (file & Hfile & Hd).
  destruct (String.eqb_spec (language file) "java") as [Hj|]; [|destruct Hd].
  apply TraceFacts.cli_backed in Hd.
  split; [exists file; auto|].
  split; [apply (TraceFacts.Backed_word file), Hd|].
  unfold Cli.lengthOk in Hlen. apply andb_true_iff in Hlen. lia.
Qed.

Lemma cli_dependencies_witness :
  In (mkDependency "Http" import medium "Found in Api.java: import HttpClient")
     (ServiceAnalysis.dependencies
        (Cli.analyzeServiceDependencies codePointCollation
           [kotlinModule; httpImportFile]))
  /\ 2 < JsString.len "Http" < 100.
Proof.
  assert (Hin : In (mkDependency "Http" import medium
                      "Found in Api.java: import HttpClient")
                   (ServiceAnalysis.dependencies
                      (Cli.analyzeServiceDependencies codePointCollation
                         [kotlinModule; httpImportFile])))
    by (vm_compute; left; reflexivity).
  split; [exact Hin|].
  apply (cli_dependencies_are_backed codePointCollation
           [kotlinModule; httpImportFile]
           (mkDependency "Http" import medium
              "Found in Api.java: import HttpClient") Hin).
Defined.

(** ** Which of several candidates is kept *)

(** [d] occurs in [cands] and every candidate of its name before that
    occurrence has a strictly lower rank. *)
Definition firstOfItsRank (cands : list Dependency) (d : Dependency) : Prop :=
  exists before after,
    cands = before ++ d :: after
    /\ forall c, In c before -> serviceName c = serviceName d ->
                 Resolver.rank c < Resolver.rank d.

Module TieFacts.
Import JsMap MapFacts Resolver.

Section Merge.
Variable replaces : Dependency -> Dependency -> bool.
Variable ok : Dependency -> Prop.
Hypothesis replaces_strictly :
  forall d e, replaces d e = true -> rank e < rank d.
Hypothesis keeps_max :
  forall d e, ok d -> ok e -> replaces d e = false -> rank d <= rank e.

Definition Firsts (seen : list Dependency) (m : JsMap.t Dependency) : Prop :=
  forall k v, In (k, v) m -> firstOfItsRank seen v.

Lemma firstOfItsRank_snoc (seen : list Dependency) (v d : Dependency) :
  firstOfItsRank seen v -> firstOfItsRank (seen ++ [d]) v.
Proof.
  intros (before & after & -> & H). exists before, (after ++ [d]).
  split; [|exact H]. rewrite <- app_assoc. reflexivity.
Qed.

Lemma firstOfItsRank_last (seen : list Dependency) (d : Dependency) :
  (forall c, In c seen -> serviceName c = serviceName d -> rank c < rank d) ->
  firstOfItsRank (seen ++ [d]) d.
Proof. intros H. exists seen, []. split; [reflexivity | exact H]. Qed.

Lemma Firsts_step (seen : list Dependency) (m : JsMap.t Dependency)
  (d : Dependency) :
  Inv seen m -> Dominates seen m -> Firsts seen m ->
  Firsts (seen ++ [d]) (mergeWith replaces m d).
Proof.
  intros HI HD HF k v Hin. unfold mergeWith in Hin.
  assert (Hold : In (k, v) m -> firstOfItsRank (seen ++ [d]) v)
    by (intros H; apply firstOfItsRank_snoc, (HF k v H)).
  destruct (get (serviceName d) m) as [e|] eqn:G.
  - destruct (replaces d e) eqn:Rp; [|auto].
    apply In_set in Hin. destruct Hin as [[-> ->]|Hin]; [|auto].
    apply firstOfItsRank_last. intros c Hc Hname.
    destruct (HD c Hc) as (v & Gv & Hv).
    rewrite Hname, G in Gv. injection Gv as <-.
    specialize (replaces_strictly d e Rp). lia.
  - apply In_set in Hin. destruct Hin as [[-> ->]|Hin]; [|auto].
    apply firstOfItsRank_last. intros c Hc Hname. exfalso.
    apply (inv_kept _ _ HI c Hc). rewrite Hname. exact G.
Qed.

Lemma replaces_up (d e : Dependency) :
  replaces d e = true -> rank e <= rank d.
Proof. intros H. specialize (replaces_strictly d e H). lia. Qed.

Lemma Firsts_fold (ds : list Dependency) :
  forall seen m,
    Inv seen m -> Forall ok (seen ++ ds) ->
    Dominates seen m -> Firsts seen m ->
    Firsts (seen ++ ds) (fold_left (mergeWith replaces) ds m).
Proof.
  induction ds as [|d ds IH]; intros seen m HI Hok HD HF; simpl.
  - rewrite app_nil_r. exact HF.
  - change (d :: ds) with ([d] ++ ds) in *. rewrite app_assoc in *.
    assert (Hok' : Forall ok (seen ++ [d]))
      by (apply Forall_app in Hok; tauto).
    apply IH.
    + apply Inv_step, HI.
    + exact Hok.
    + apply (Dominates_step replaces ok replaces_up keeps_max);
        assumption.
    + apply Firsts_step; assumption.
Qed.

Lemma resolve_first (cmp : Dependency -> Dependency -> Z)
  (cands : list Dependency) (d : Dependency) :
  Forall ok cands -> In d (resolve replaces cmp cands) ->
  firstOfItsRank cands d.
Proof.
  intros Hok Hd. unfold resolve in Hd.
  rewrite SortFacts.sort_In, In_values in Hd. destruct Hd as (k & Hin).
  apply (Firsts_fold cands [] empty (Inv_empty replaces) Hok) in Hin;
    [exact Hin | intros x [] | intros k' v' []].
Qed.
End Merge.
End TieFacts.

(** Of several candidates with one name, [deduplicateAndClean] keeps the
    first one of the highest confidence: the kept record occurs in the
    candidate list with only lower-ranked candidates of its name before
    it.  The CLI's deduplication does the same on candidate lists without
    a [low] confidence. *)
Theorem dedup_keeps_first_of_highest (cmp : Collation)
  (cands : list Dependency) (d : Dependency) :
  (In d (Lib.deduplicateAndClean cmp cands) -> firstOfItsRank cands d)
  /\ (Forall Resolver.notLow cands ->
      In d (Cli.deduplicate cmp cands) -> firstOfItsRank cands d).
Proof.
  split.
  - rewrite Resolver.lib_resolve.
    apply (TieFacts.resolve_first Resolver.libReplaces (fun _ => True)).
    + unfold Resolver.libReplaces, Resolver.rank. intros. lia.
    + apply Resolver.libReplaces_max.
    + apply Forall_forall. trivial.
  - intros Hok. rewrite Resolver.cli_resolve.
    apply (TieFacts.resolve_first Resolver.cliReplaces Resolver.notLow).
    + unfold Resolver.cliReplaces, Resolver.rank. intros x e.
      destruct (confidence x), (confidence e); simpl; intros;
        lia || discriminate.
    + apply Resolver.cliReplaces_max.
    + exact Hok.
Qed.

Definition twoHighs : list Dependency :=
  [mkDependency "XbtIORService" import medium
     "Found in A.java: import XbtIORServiceClient";
   mkDependency "XbtIORService" client_class high
     "Found in B.java: @Provides XbtIORServiceClient";
   mkDependency "XbtIORService" client_class high
     "Found in C.java: @Provides XbtIORServiceClient"].

Lemma dedup_keeps_first_witness :
  Lib.deduplicateAndClean codePointCollation twoHighs
  = [mkDependency "XbtIORService" client_class high
       "Found in B.java: @Provides XbtIORServiceClient"]
  /\ Forall Resolver.notLow twoHighs
  /\ firstOfItsRank twoHighs
       (mkDependency "XbtIORService" client_class high
          "Found in B.java: @Provides XbtIORServiceClient").
Proof.
  split; [reflexivity|].
  assert (Hok : Forall Resolver.notLow twoHighs)
    by (repeat constructor; discriminate).
  split; [exact Hok|].
  apply (proj1 (dedup_keeps_first_of_highest codePointCollation twoHighs
                  (mkDependency "XbtIORService" client_class high
                     "Found in B.java: @Provides XbtIORServiceClient"))).
  left. reflexivity.
Defined.

(** ** More about the scorer *)

Module ScoreBounds.
Import JsString.

Strategy expand [Lib.scoreOf].

Lemma scoreOf_sum (file : CodeFile) :
  Lib.scoreOf file
  = Lib.when (includes (toLowerCase (path file)) "/module/") 15
    + Lib.when (includes (toLowerCase (path file)) "/config/") 12
    + Lib.when (includes (toLowerCase (path file)) "/accessor/") 10
    + Lib.when (includes (toLowerCase (path file)) "/client/") 8
    + Lib.when (includes (toLowerCase (name file)) "clientmodule") 20
    + Lib.when (includes (toLowerCase (name file)) "client"
                && includes (toLowerCase (name file)) "config") 15
    + Lib.when (endsWith (toLowerCase (name file)) "module.java") 15
    + Lib.when (endsWith (toLowerCase (name file)) "config.java") 12
    + Lib.when (includes (toLowerCase (substring 0 3000 (content file)))
                  "@provides") 25
    + Lib.when (includes (toLowerCase (substring 0 3000 (content file)))
                  "@bean") 25
    + Lib.when (includes (toLowerCase (substring 0 3000 (content file)))
                  "clientbuilder") 20
    + Lib.when (includes (toLowerCase (substring 0 3000 (content file)))
                  "client;") 5
    + Lib.when ((size file >? 500) && (size file <? 100000)) 3.
Proof. reflexivity. Qed.

Strategy 1000 [Lib.scoreOf].

Lemma when_bounds (b : bool) (points : Z) :
  0 <= points -> 0 <= Lib.when b points <= points.
Proof. unfold Lib.when. destruct b; lia. Qed.

Lemma scoreOf_bounds (file : CodeFile) :
  0 <= Lib.scoreOf file <= 185
  /\ Lib.when ((size file >? 500) && (size file <? 100000)) 3
     <= Lib.scoreOf file.
Proof.
  rewrite scoreOf_sum.
  repeat match goal with
         | |- context [Lib.when ?b ?p] =>
             generalize (when_bounds b p ltac:(lia));
             generalize (Lib.when b p); intros ? ?
         end.
  lia.
Qed.
End ScoreBounds.

(** The size signal alone makes a score positive: a file of more than
    500 and less than 100000 bytes has a score between 3 and 185 (the sum
    of all thirteen signals) and so always passes the scorer's
    [score > 0] test, whatever its path, name and content. *)
Theorem midsize_files_score_positive (file : CodeFile) :
  500 < size file < 100000 ->
  3 <= Lib.scoreOf file <= 185
  /\ In (file, Lib.scoreOf file) (Lib.scoredFiles [file]).
Proof.
  intros Hsize.
  destruct (ScoreBounds.scoreOf_bounds file) as ([_ Hmax] & Hlow).
  assert (H3 : 3 <= Lib.scoreOf file).
  { replace ((size file >? 500) && (size file <? 100000))%bool
      with true in Hlow; [exact Hlow|].
    symmetry. apply andb_true_iff. split; lia. }
  split; [lia|].
  unfold Lib.scoredFiles. simpl.
  destruct (Z.gtb_spec (Lib.scoreOf file) 0); [left; reflexivity | lia].
Qed.

Definition plainMidsizeFile : CodeFile :=
  mkCodeFile "README.java" "docs/README.java" "" "java" 501.

Lemma midsize_files_witness :
  500 < size plainMidsizeFile < 100000
  /\ (3 <= Lib.scoreOf plainMidsizeFile <= 185
      /\ In (plainMidsizeFile, Lib.scoreOf plainMidsizeFile)
            (Lib.scoredFiles [plainMidsizeFile])).
Proof.
  assert (H : 500 < size plainMidsizeFile < 100000) by (simpl; lia).
  split; [exact H|].
  exact (midsize_files_score_positive plainMidsizeFile H).
Defined.

(** When at most fifteen files have a positive score, [selectKeyFiles]
    drops none of them: it returns exactly the positively scored files,
    reordered. *)
Theorem selectKeyFiles_keeps_all_when_few (files : list CodeFile)
  (lang : string) :
  (length (filter ScorerFacts.positive files) <= 15)%nat ->
  Permutation (Lib.selectKeyFiles files lang)
    (filter ScorerFacts.positive files).
Proof.
  intros Hfew. rewrite ScorerFacts.selectKeyFiles_spec.
  rewrite firstn_all2.
  - apply SortFacts.sort_perm.
  - rewrite SortFacts.sort_length. exact Hfew.
Qed.

Lemma selectKeyFiles_keeps_all_witness :
  (length (filter ScorerFacts.positive mostlyJava) <= 15)%nat
  /\ Permutation (Lib.selectKeyFiles mostlyJava "java")
       (filter ScorerFacts.positive mostlyJava).
Proof.
  assert (H : (length (filter ScorerFacts.positive mostlyJava) <= 15)%nat)
    by (vm_compute; lia).
  split; [exact H|].
  apply (selectKeyFiles_keeps_all_when_few mostlyJava "java" H).
Defined.

(** ** The primary language *)

Module PrimaryFacts.
Import JsMap MapFacts LanguageFacts.

Lemma occurrences_head (f : CodeFile) (rest : list CodeFile) :
  0 < occurrences (language f) (f :: rest).
Proof.
  unfold occurrences. simpl. rewrite String.eqb_refl. simpl. lia.
Qed.

Definition notProto (f : CodeFile) : bool :=
  negb (String.eqb (language f) "__proto__").

(** The assignment to [langCounts["__proto__"]] is lost. *)
Lemma countLanguage_proto (o : JsObject.t Count) (f : CodeFile) :
  notProto f = false -> Lib.countLanguage o f = o.
Proof.
  unfold notProto, Lib.countLanguage, JsObject.set. intros H.
  apply negb_false_iff in H. rewrite H. reflexivity.
Qed.

Lemma fold_without_proto (files : list CodeFile) :
  forall o,
    fold_left Lib.countLanguage files o
    = fold_left Lib.countLanguage (filter notProto files) o.
Proof.
  induction files as [|f files IH]; intros o; [reflexivity|].
  cbn [filter fold_left]. destruct (notProto f) eqn:E.
  - cbn [fold_left]. apply IH.
  - rewrite (countLanguage_proto o f E). apply IH.
Qed.

Lemma mostlyJava_ordinary : ordinaryTags mostlyJava.
Proof.
  repeat constructor; cbn; intuition discriminate.
Defined.
End PrimaryFacts.

(** For a non-empty file list without a tag that a plain object inherits,
    [detectPrimaryLanguage] returns the tag of one of the files than which
    no tag occurs more often (["unknown"] when that tag is the empty
    string). *)
Theorem detectPrimaryLanguage_is_a_most_frequent_tag (engine : Engine)
  (files : list CodeFile) :
  files <> [] -> ordinaryTags files ->
  exists winner,
    In winner (map language files)
    /\ (forall l, occurrences l files <= occurrences winner files)
    /\ Lib.detectPrimaryLanguage engine files
       = if String.eqb winner "" then "unknown" else winner.
Proof.
  intros Hne Hord. unfold Lib.detectPrimaryLanguage. cbv zeta.
  rewrite (LanguageFacts.sortByCount_ordinary engine files Hord).
  pose proof (LanguageFacts.entries_counted files Hord) as Hall.
  pose proof (LanguageFacts.every_tag_listed files) as Hlisted.
  set (entries := JsObject.entries
                    (fold_left Lib.countLanguage files JsObject.empty)) in *.
  pose proof (SortFacts.sort_descending LanguageFacts.number entries) as Hs.
  set (sorted := JsArray.sort
                   (SortFacts.descending LanguageFacts.number) entries) in *.
  assert (Hin : forall l, 0 < occurrences l files ->
                  In (l, Num (occurrences l files)) sorted).
  { intros l Hl. apply SortFacts.sort_In, Hlisted; assumption. }
  destruct files as [|f rest]; [congruence|].
  pose proof (Hin _ (PrimaryFacts.occurrences_head f rest)) as Hf.
  destruct sorted as [|[w c] tail] eqn:Es; [destruct Hf|].
  assert (Hw : In (w, c) entries).
  { apply (SortFacts.sort_In (SortFacts.descending LanguageFacts.number)).
    fold sorted. rewrite Es. left. reflexivity. }
  rewrite Forall_forall in Hall. destruct (Hall _ Hw) as [Hc Hpos].
  cbn [fst snd] in Hc, Hpos.
  exists w. split.
  { destruct (LanguageFacts.occurrences_file w _ Hpos) as (g & Hg & <-).
    apply in_map, Hg. }
  split; [|reflexivity].
  intros l.
  pose proof (LanguageFacts.occurrences_nonneg l (f :: rest)) as Hl0.
  destruct (Z.eq_dec (occurrences l (f :: rest)) 0) as [E|E]; [lia|].
  destruct (Hin l ltac:(lia)) as [Hl|Hl].
  - injection Hl as _ Hl. rewrite Hc in Hl. injection Hl as Hl. lia.
  - inversion Hs as [|? ? _ Hrest]; subst.
    rewrite Forall_forall in Hrest. specialize (Hrest _ Hl).
    unfold LanguageFacts.number in Hrest. cbn [snd] in Hrest. lia.
Qed.

Lemma detectPrimaryLanguage_witness :
  mostlyJava <> []
  /\ ordinaryTags mostlyJava
  /\ Lib.detectPrimaryLanguage insertionEngine mostlyJava = "java"
  /\ exists winner,
       In winner (map language mostlyJava)
       /\ (forall l, occurrences l mostlyJava <= occurrences winner mostlyJava)
       /\ Lib.detectPrimaryLanguage insertionEngine mostlyJava
          = if String.eqb winner "" then "unknown" else winner.
Proof.
  assert (H : mostlyJava <> []) by discriminate.
  split; [exact H|].
  split; [exact PrimaryFacts.mostlyJava_ordinary|].
  split; [reflexivity|].
  apply (detectPrimaryLanguage_is_a_most_frequent_tag insertionEngine
           mostlyJava H PrimaryFacts.mostlyJava_ordinary).
Defined.

(** When no tag is a name that a plain object inherits and one tag
    strictly outnumbers the others, that tag is the detected primary
    language; and when it is ["java"], every candidate the Java rules find
    in any selected key file, whatever that file's own tag, is among the
    extracted candidates and its name is in the final analysis; likewise
    for ["python"] and the Python rule. *)
Theorem primary_language_selects_rules (cmp : Collation) (engine : Engine)
  (files : list CodeFile) (lang : string) (f : CodeFile) :
  ordinaryTags files ->
  mostFrequent lang files ->
  In f (Lib.selectKeyFiles files lang) ->
  let rules :=
    if String.eqb lang "java" then Lib.extractJavaDependencies f
    else if String.eqb lang "python" then Lib.extractPythonDependencies f
    else [] in
  (lang <> "" -> Lib.detectPrimaryLanguage engine files = lang)
  /\ incl rules
       (Lib.extractDependencies (Lib.selectKeyFiles files lang) lang)
  /\ forall d, In d rules ->
       exists d',
         In d' (ServiceAnalysis.dependencies
                  (Lib.analyzeServiceDependencies cmp engine files))
         /\ serviceName d' = serviceName d.
Proof.
  intros Hord Hmost Hf rules.
  assert (Hincl : incl rules
            (Lib.extractDependencies (Lib.selectKeyFiles files lang) lang)).
  { intros d Hd. unfold Lib.extractDependencies. apply in_flat_map.
    exists f. split; [exact Hf|]. subst rules.
    destruct (String.eqb lang "java") eqn:Ej.
    - rewrite orb_true_r. apply in_or_app. left. exact Hd.
    - destruct (String.eqb lang "python") eqn:Ep; [|destruct Hd].
      rewrite orb_true_r. apply in_or_app. right.
      apply in_or_app. left. exact Hd. }
  split; [intros Hne; apply LanguageFacts.mostFrequent_primary; assumption|].
  split; [exact Hincl|].
  intros d Hd.
  assert (Hne : lang <> "").
  { subst rules. intros ->. simpl in Hd. exact Hd. }
  unfold Lib.analyzeServiceDependencies. simpl.
  rewrite (LanguageFacts.mostFrequent_primary engine lang files Hord Hmost
             Hne).
  rewrite Resolver.lib_resolve.
  apply Resolver.resolve_covers, Hincl, Hd.
Qed.

Lemma primary_language_witness :
  ordinaryTags mostlyJava
  /\ mostFrequent "java" mostlyJava
  /\ language kotlinModule <> "java"
  /\ In kotlinModule (Lib.selectKeyFiles mostlyJava "java")
  /\ Lib.detectPrimaryLanguage insertionEngine mostlyJava = "java"
  /\ Lib.extractJavaDependencies kotlinModule
     = [mkDependency "PaymentService" client_class high
          "Found in ClientModule.kt: @Provides PaymentServiceClient"]
  /\ exists d',
       In d' (ServiceAnalysis.dependencies
                (Lib.analyzeServiceDependencies codePointCollation
                   insertionEngine mostlyJava))
       /\ serviceName d' = "PaymentService".
Proof.
  assert (Hmost : mostFrequent "java" mostlyJava).
  { split; [reflexivity|]. intros l' Hne.
    change (occurrences "java" mostlyJava) with 2.
    unfold occurrences, mostlyJava, kotlinModule. cbn [filter language].
    apply not_eq_sym, String.eqb_neq in Hne. rewrite Hne.
    destruct (String.eqb "kotlin" l'); cbn [length]; lia. }
  assert (Hkey : In kotlinModule (Lib.selectKeyFiles mostlyJava "java"))
    by (vm_compute; left; reflexivity).
  pose proof (primary_language_selects_rules codePointCollation
                insertionEngine mostlyJava "java" kotlinModule
                PrimaryFacts.mostlyJava_ordinary Hmost Hkey)
    as (Hprim & _ & Hfinal).
  split; [exact PrimaryFacts.mostlyJava_ordinary|].
  split; [exact Hmost|].
  split; [discriminate|].
  split; [exact Hkey|].
  split; [apply Hprim; discriminate|].
  split; [reflexivity|].
  apply (Hfinal (mkDependency "PaymentService" client_class high
                   "Found in ClientModule.kt: @Provides PaymentServiceClient")).
  left. reflexivity.
Defined.

(** A file tagged [__proto__] is never counted: the assignment to
    [langCounts["__proto__"]] reaches the setter of [Object.prototype],
    which ignores a string.  The detected primary language is that of the
    other files. *)
Theorem proto_tagged_files_are_not_counted (engine : Engine)
  (files : list CodeFile) :
  Lib.detectPrimaryLanguage engine files
  = Lib.detectPrimaryLanguage engine
      (filter (fun f => negb (String.eqb (language f) "__proto__")) files).
Proof.
  unfold Lib.detectPrimaryLanguage. cbv zeta.
  rewrite (PrimaryFacts.fold_without_proto files). reflexivity.
Qed.

(** ** The inferred service name *)

Module NameFacts.
Import JsString.

Lemma scanParts_found (parts : list string) (part : string) :
  Lib.scanParts parts = Some part ->
  In part parts
  /\ 3 < len part
  /\ existsb (fun skip => includes (toLowerCase part) skip) Lib.skipNames
     = false
  /\ hasUpper part = true.
Proof.
  induction parts as [|p rest IH]; [discriminate|].
  cbn [Lib.scanParts].
  destruct (existsb (fun skip => includes (toLowerCase p) skip)
              Lib.skipNames) eqn:Es.
  - intros H. destruct (IH H) as (H1 & H2). split; [right; exact H1 | exact H2].
  - rewrite InferFacts.extra_keywords_redundant.
    destruct (len p >? 3) eqn:El; cbn [andb].
    + destruct (hasUpper p) eqn:Eu; cbn [orb].
      * intros [= <-]. split; [left; reflexivity|].
        split; [lia|]. split; assumption.
      * assert (Hno : forall sub, hasUpper sub = true ->
                        includes p sub = false).
        { intros sub Hs. destruct (includes p sub) eqn:Hi; [|reflexivity].
          rewrite (InferFacts.includes_hasUpper p sub Hi Hs) in Eu.
          discriminate. }
        rewrite !Hno by reflexivity. cbn [orb].
        intros H. destruct (IH H) as (H1 & H2).
        split; [right; exact H1 | exact H2].
    + intros H. destruct (IH H) as (H1 & H2).
      split; [right; exact H1 | exact H2].
Qed.

Lemma firstNamed_shape (parts : list string) :
  Lib.firstNamed parts = "UnknownService"
  \/ (In (Lib.firstNamed parts) parts /\ Lib.firstNamed parts <> "").
Proof.
  unfold Lib.firstNamed.
  destruct (filter _ parts) as [|p rest] eqn:E; [left; reflexivity|].
  right.
  assert (Hp : In p (filter
                       (fun p => (negb (String.eqb p "")
                                  && negb (String.eqb p "src"))%bool) parts))
    by (rewrite E; left; reflexivity).
  apply filter_In in Hp. destruct Hp as [Hin Hp]. split; [exact Hin|].
  apply andb_true_iff in Hp. destruct Hp as [Hp _].
  apply negb_true_iff, String.eqb_neq in Hp. exact Hp.
Qed.
End NameFacts.

(** [inferServiceName] never returns the empty string, and the CLI's
    copy returns the same name as the library's: the result is
    ["UnknownService"] or a segment of the first file's path.  When the
    backward scan finds a segment, that segment is the result; it has
    more than three characters and a capital letter. *)
Theorem inferServiceName_shape (files : list CodeFile) :
  Lib.inferServiceName files <> ""
  /\ Cli.inferServiceName files = Lib.inferServiceName files
  /\ (Lib.inferServiceName files = "UnknownService"
      \/ exists first rest,
           files = first :: rest
           /\ In (Lib.inferServiceName files)
                 (JsString.split "/" (path first)))
  /\ forall first rest part,
       files = first :: rest ->
       Lib.scanParts (rev (JsString.split "/" (path first))) = Some part ->
       Lib.inferServiceName files = part
       /\ 3 < JsString.len part
       /\ JsString.hasUpper part = true.
Proof.
  split; [|split; [apply InferFacts.inferServiceName_agree|split]].
  - destruct files as [|first rest]; [discriminate|].
    unfold Lib.inferServiceName.
    destruct (Lib.scanParts (rev (JsString.split "/" (path first))))
      as [part|] eqn:Es.
    + apply NameFacts.scanParts_found in Es.
      destruct Es as (_ & Hlen & _). intros ->. vm_compute in Hlen.
      discriminate.
    + destruct (NameFacts.firstNamed_shape
                  (JsString.split "/" (path first))) as [->|[_ H]];
        [discriminate | exact H].
  - destruct files as [|first rest]; [left; reflexivity|].
    unfold Lib.inferServiceName.
    destruct (Lib.scanParts (rev (JsString.split "/" (path first))))
      as [part|] eqn:Es.
    + right. exists first, rest. split; [reflexivity|].
      apply NameFacts.scanParts_found in Es. destruct Es as (Hin & _).
      apply in_rev, Hin.
    + destruct (NameFacts.firstNamed_shape
                  (JsString.split "/" (path first))) as [->|[H _]];
        [left; reflexivity|].
      right. exists first, rest. split; [reflexivity | exact H].
  - intros first rest part -> Es. unfold Lib.inferServiceName. rewrite Es.
    apply NameFacts.scanParts_found in Es.
    destruct Es as (_ & Hlen & _ & Hup). auto.
Qed.

Lemma inferServiceName_witness :
  Lib.scanParts (rev (JsString.split "/" (path scenarioFile)))
  = Some "BookingGateway"
  /\ Lib.inferServiceName [scenarioFile] = "BookingGateway"
  /\ 3 < JsString.len "BookingGateway"
  /\ JsString.hasUpper "BookingGateway" = true.
Proof.
  assert (H : Lib.scanParts (rev (JsString.split "/" (path scenarioFile)))
              = Some "BookingGateway") by reflexivity.
  split; [exact H|].
  destruct (inferServiceName_shape [scenarioFile]) as (_ & _ & _ & Hscan).
  exact (Hscan scenarioFile [] "BookingGateway" eq_refl H).
Defined.

(* ================================================================== *)
(** ** The folder upload of the upload component

    [handleFolderUpload] of [code-upload.tsx]: the loop over the files of
    the chosen folder, with the two [try] blocks it runs in.  The outer
    [catch] ends the upload with an error message; the inner [catch] only
    counts the file as skipped.  What the handler finally does is either
    [onFilesReady(processedFiles)] or [setError(message)]. *)

Module FolderUpload.
Import JsString.

(** A [File] of the browser: [text] is what [await file.text()] gives,
    [None] when it rejects. *)
Record BrowserFile : Type := mkBrowserFile {
  fileName : string;
  webkitRelativePath : string;
  fileSize : Z;
  fileText : option string
}.

Definition CODE_EXTENSIONS : list string :=
  [".py"; ".js"; ".ts"; ".jsx"; ".tsx"; ".java"; ".go"; ".cpp"; ".c"; ".h";
   ".cs"; ".rb"; ".php"; ".swift"; ".kt"; ".rs"; ".scala"; ".sh"; ".yml";
   ".yaml"; ".json"; ".xml"; ".sql"; ".proto"; ".gradle"].

(** The component's [detectLanguage(filename)]; its table is the one of
    the walker. *)
Definition detectLanguage (filename : string) : string :=
  Walker.detectLanguage (Walker.extension filename).

Inductive UploadError : Type :=
| TotalSizeExceeds (maxSize : Z)   (* `Total file size exceeds ${maxSize}MB limit` *)
| NoValidCodeFiles.                (* "No valid code files found" *)

Record Progress : Type := mkProgress {
  processedFiles : list CodeFile;
  totalSize : Z;
  skippedFiles : Z
}.

(** [file.webkitRelativePath || file.name] *)
Definition pathOf (file : BrowserFile) : string :=
  if String.eqb (webkitRelativePath file) "" then fileName file
  else webkitRelativePath file.

(** One iteration of the loop: the new state, or the error thrown to the
    outer [catch]. *)
Definition visit (maxSize maxFiles : Z) (st : Progress) (file : BrowserFile)
  : UploadError + Progress :=
  let path := pathOf file in
  if Upload.shouldIgnore path then inr st
  else if negb (existsb (endsWith (fileName file)) CODE_EXTENSIONS)
  then inr st
  else if fileSize file =? 0
  then inr (mkProgress (processedFiles st) (totalSize st)
              (skippedFiles st + 1))
  else if fileSize file >? 5 * 1024 * 1024
  then inr (mkProgress (processedFiles st) (totalSize st)
              (skippedFiles st + 1))
  else
    let total := totalSize st + fileSize file in
    if total >? maxSize * 1024 * 1024 then inl (TotalSizeExceeds maxSize)
    else match fileText file with
         | None =>
             inr (mkProgress (processedFiles st) total (skippedFiles st + 1))
         | Some content =>
             let pushed :=
               processedFiles st
               ++ [mkCodeFile (fileName file) path content
                     (detectLanguage (fileName file)) (fileSize file)] in
             if Z.of_nat (length pushed) >=? maxFiles
             then inr (mkProgress pushed total (skippedFiles st + 1))
             else inr (mkProgress pushed total (skippedFiles st))
         end.

Fixpoint visitAll (maxSize maxFiles : Z) (st : Progress)
  (fileList : list BrowserFile) : UploadError + Progress :=
  match fileList with
  | [] => inr st
  | file :: rest =>
      match visit maxSize maxFiles st file with
      | inl err => inl err
      | inr st' => visitAll maxSize maxFiles st' rest
      end
  end.

(** The files passed to [onFilesReady], or the error passed to
    [setError]. *)
Definition handleFolderUpload (maxSize maxFiles : Z)
  (fileList : list BrowserFile) : UploadError + list CodeFile :=
  match visitAll maxSize maxFiles (mkProgress [] 0 0) fileList with
  | inl err => inl err
  | inr st =>
      match processedFiles st with
      | [] => inl NoValidCodeFiles
      | _ => inr (processedFiles st)
      end
  end.

Definition sumSizes (files : list CodeFile) : Z :=
  fold_right (fun f acc => size f + acc) 0 files.

End FolderUpload.

Module FolderUploadFacts.
Import JsString FolderUpload.

(** Two states that differ in the skip counter only. *)
Definition sameFiles (a b : Progress) : Prop :=
  processedFiles a = processedFiles b /\ totalSize a = totalSize b.

Lemma visit_sameFiles (maxSize m1 m2 : Z) (a b : Progress)
  (file : BrowserFile) :
  sameFiles a b ->
  match visit maxSize m1 a file, visit maxSize m2 b file with
  | inl e1, inl e2 => e1 = e2
  | inr a', inr b' => sameFiles a' b'
  | _, _ => False
  end.
Proof.
  intros [Hp Ht]. unfold visit. cbv zeta. rewrite Hp, Ht.
  destruct (Upload.shouldIgnore (pathOf file)); [split; assumption|].
  destruct (negb _); [split; assumption|].
  destruct (fileSize file =? 0); [split; reflexivity|].
  destruct (fileSize file >? 5 * 1024 * 1024); [split; reflexivity|].
  destruct (totalSize b + fileSize file >? maxSize * 1024 * 1024);
    [reflexivity|].
  destruct (fileText file) as [content|]; [|split; reflexivity].
  destruct (_ >=? m1), (_ >=? m2); split; reflexivity.
Qed.

Lemma visitAll_sameFiles (maxSize m1 m2 : Z) (fileList : list BrowserFile) :
  forall a b,
    sameFiles a b ->
    match visitAll maxSize m1 a fileList, visitAll maxSize m2 b fileList with
    | inl e1, inl e2 => e1 = e2
    | inr a', inr b' => sameFiles a' b'
    | _, _ => False
    end.
Proof.
  induction fileList as [|file rest IH]; intros a b Hab; simpl.
  - exact Hab.
  - pose proof (visit_sameFiles maxSize m1 m2 a b file Hab) as Hv.
    destruct (visit maxSize m1 a file), (visit maxSize m2 b file);
      try contradiction; [exact Hv | apply IH, Hv].
Qed.

(** What holds of the state on the way. *)
Record Accepted (maxSize : Z) (st : Progress) : Prop := mkAccepted {
  acc_files :
    Forall (fun f =>
              Upload.shouldIgnore (path f) = false
              /\ existsb (endsWith (name f)) CODE_EXTENSIONS = true
              /\ size f <> 0
              /\ size f <= 5 * 1024 * 1024
              /\ language f = detectLanguage (name f))
           (processedFiles st);
  acc_sum : sumSizes (processedFiles st) <= totalSize st;
  acc_total : totalSize st <= Z.max 0 (maxSize * 1024 * 1024)
}.

Lemma sumSizes_snoc (files : list CodeFile) (f : CodeFile) :
  sumSizes (files ++ [f]) = sumSizes files + size f.
Proof.
  unfold sumSizes. induction files as [|g files IH]; simpl; [lia|].
  rewrite IH. lia.
Qed.

Lemma visit_Accepted (maxSize maxFiles : Z) (st st' : Progress)
  (file : BrowserFile) :
  0 <= fileSize file ->
  Accepted maxSize st -> visit maxSize maxFiles st file = inr st' ->
  Accepted maxSize st'.
Proof.
  intros Hsize [Hf Hs Ht]. unfold visit. cbv zeta.
  destruct (Upload.shouldIgnore (pathOf file)) eqn:Ei;
    [intros [= <-]; split; assumption|].
  destruct (existsb (endsWith (fileName file)) CODE_EXTENSIONS) eqn:Ec;
    cbn [negb]; [|intros [= <-]; split; assumption].
  destruct (Z.eqb_spec (fileSize file) 0);
    [intros [= <-]; split; assumption|].
  destruct (Z.gtb_spec (fileSize file) (5 * 1024 * 1024));
    [intros [= <-]; split; assumption|].
  destruct (Z.gtb_spec (totalSize st + fileSize file)
              (maxSize * 1024 * 1024)); [discriminate|].
  destruct (fileText file) as [content|].
  - assert (Hnew : Accepted maxSize
                     (mkProgress
                        (processedFiles st
                         ++ [mkCodeFile (fileName file) (pathOf file) content
                               (detectLanguage (fileName file))
                               (fileSize file)])
                        (totalSize st + fileSize file) 0)).
    { split; cbn [processedFiles totalSize].
      - apply Forall_app. split; [exact Hf|]. constructor; [|constructor].
        cbn [path name size language]. repeat split; auto.
      - rewrite sumSizes_snoc. cbn [size]. lia.
      - lia. }
    destruct Hnew as [Hf' Hs' Ht'].
    destruct (_ >=? maxFiles); intros [= <-]; split; assumption.
  - intros [= <-]. split; cbn [processedFiles totalSize]; [exact Hf | lia | lia].
Qed.

Lemma visitAll_Accepted (maxSize maxFiles : Z)
  (fileList : list BrowserFile) :
  Forall (fun file => 0 <= fileSize file) fileList ->
  forall st st',
    Accepted maxSize st ->
    visitAll maxSize maxFiles st fileList = inr st' ->
    Accepted maxSize st'.
Proof.
  induction 1 as [|file rest Hfile _ IH]; intros st st' Hacc; simpl.
  - intros [= <-]. exact Hacc.
  - destruct (visit maxSize maxFiles st file) as [err|st1] eqn:Ev;
      [discriminate|].
    apply IH. apply (visit_Accepted _ _ _ _ _ Hfile Hacc Ev).
Qed.
End FolderUploadFacts.

(** The file-count limit of the folder upload never takes effect: the
    [throw] that reports it sits inside the [try] whose [catch] only
    counts a skipped file.  Whatever [maxFiles] is, the handler hands over
    the same files or reports the same error. *)
Theorem folder_upload_ignores_maxFiles (maxSize maxFiles maxFiles' : Z)
  (fileList : list FolderUpload.BrowserFile) :
  FolderUpload.handleFolderUpload maxSize maxFiles fileList
  = FolderUpload.handleFolderUpload maxSize maxFiles' fileList.
Proof.
  unfold FolderUpload.handleFolderUpload.
  pose proof (FolderUploadFacts.visitAll_sameFiles maxSize maxFiles maxFiles'
                fileList (FolderUpload.mkProgress [] 0 0)
                (FolderUpload.mkProgress [] 0 0)
                (conj eq_refl eq_refl)) as H.
  destruct (FolderUpload.visitAll maxSize maxFiles _ fileList) as [e1|s1],
    (FolderUpload.visitAll maxSize maxFiles' _ fileList) as [e2|s2];
    try contradiction.
  - subst e2. reflexivity.
  - destruct H as [-> _]. reflexivity.
Qed.

(** When the folder upload hands files over, there is at least one; each
    has a path the filter lets through, a name ending in one of the
    component's code extensions, a size that is not 0 and at most 5 MiB,
    and the tag of its extension; and their sizes add up to at most
    [maxSize] MiB. *)
Theorem folder_upload_hands_over_filtered_files (maxSize maxFiles : Z)
  (fileList : list FolderUpload.BrowserFile) (files : list CodeFile) :
  Forall (fun file => 0 <= FolderUpload.fileSize file) fileList ->
  FolderUpload.handleFolderUpload maxSize maxFiles fileList = inr files ->
  files <> []
  /\ Forall (fun f =>
               Upload.shouldIgnore (path f) = false
               /\ existsb (JsString.endsWith (name f))
                    FolderUpload.CODE_EXTENSIONS = true
               /\ size f <> 0
               /\ size f <= 5 * 1024 * 1024
               /\ language f = FolderUpload.detectLanguage (name f))
            files
  /\ FolderUpload.sumSizes files <= Z.max 0 (maxSize * 1024 * 1024).
Proof.
  intros Hsizes. unfold FolderUpload.handleFolderUpload.
  destruct (FolderUpload.visitAll maxSize maxFiles
              (FolderUpload.mkProgress [] 0 0) fileList) as [err|st] eqn:Ev;
    [discriminate|].
  assert (Hacc : FolderUploadFacts.Accepted maxSize st).
  { apply (FolderUploadFacts.visitAll_Accepted maxSize maxFiles fileList
             Hsizes (FolderUpload.mkProgress [] 0 0) st); [|exact Ev].
    split; cbn; [constructor | lia | lia]. }
  destruct Hacc as [Hf Hs Ht].
  destruct (FolderUpload.processedFiles st) as [|f fs] eqn:Ep;
    [discriminate|].
  intros [= <-]. split; [discriminate|]. split; [exact Hf | lia].
Qed.

(** A folder with a build directory, an unreadable file and two sources. *)
Definition sampleFolder : list FolderUpload.BrowserFile :=
  [FolderUpload.mkBrowserFile "Gen.java" "shop/build/Gen.java" 10
     (Some "class Gen {}");
   FolderUpload.mkBrowserFile "Order.java" "shop/src/Order.java" 14
     (Some "class Order {}");
   FolderUpload.mkBrowserFile "Locked.java" "shop/src/Locked.java" 9 None;
   FolderUpload.mkBrowserFile "logo.png" "shop/logo.png" 900 (Some "...");
   FolderUpload.mkBrowserFile "Item.java" "shop/src/Item.java" 13
     (Some "class Item {}")].

Lemma folder_upload_witness :
  Forall (fun file => 0 <= FolderUpload.fileSize file) sampleFolder
  /\ FolderUpload.handleFolderUpload 50 1 sampleFolder
     = inr [mkCodeFile "Order.java" "shop/src/Order.java" "class Order {}"
              "java" 14;
            mkCodeFile "Item.java" "shop/src/Item.java" "class Item {}"
              "java" 13]
  /\ FolderUpload.sumSizes
       [mkCodeFile "Order.java" "shop/src/Order.java" "class Order {}"
          "java" 14;
        mkCodeFile "Item.java" "shop/src/Item.java" "class Item {}"
          "java" 13]
     <= Z.max 0 (50 * 1024 * 1024).
Proof.
  assert (Hs : Forall (fun file => 0 <= FolderUpload.fileSize file)
                 sampleFolder) by (repeat constructor; simpl; lia).
  assert (Hr : FolderUpload.handleFolderUpload 50 1 sampleFolder
               = inr [mkCodeFile "Order.java" "shop/src/Order.java"
                        "class Order {}" "java" 14;
                      mkCodeFile "Item.java" "shop/src/Item.java"
                        "class Item {}" "java" 13]) by reflexivity.
  split; [exact Hs|]. split; [exact Hr|].
  apply (folder_upload_hands_over_filtered_files 50 1 sampleFolder _ Hs Hr).
Defined.

(* ================================================================== *)
(** ** The ZIP upload of the upload component

    [handleZipUpload] of [code-upload.tsx].  Here every [throw] of the
    loop, also the one of the total-size limit, is inside the [try] whose
    [catch] only counts a skipped file; the running total is raised
    before the limit is tested and is not lowered again. *)

Module ZipUpload.
Import JsString FolderUpload.

(** One pair of [Object.entries(zipContent.files)]: the key, the [dir]
    flag and what [zipEntry.async("text")] gives ([None] when it
    rejects). *)
Record ZipEntry : Type := mkZipEntry {
  relativePath : string;
  dir : bool;
  entryText : option string
}.

(** The chosen file: [zipFiles] is what [zip.loadAsync(file)] gives,
    [None] when it rejects. *)
Record Archive : Type := mkArchive {
  archiveName : string;
  archiveSize : Z;
  zipFiles : option (list ZipEntry)
}.

Inductive ZipError : Type :=
| PleaseUploadZip          (* "Please upload a .zip file" *)
| ZipSizeExceeds (maxSize : Z)
                           (* `ZIP file size exceeds ${maxSize}MB limit` *)
| LoadFailed               (* the rejection of [loadAsync] *)
| NoValidCodeFilesInZip.   (* "No valid code files found in ZIP" *)

(** [relativePath.split("/").pop() || relativePath] *)
Definition fileNameOf (relativePath : string) : string :=
  let last := List.last (split "/" relativePath) "" in
  if String.eqb last "" then relativePath else last.

Definition skipped (st : Progress) (total : Z) : Progress :=
  mkProgress (processedFiles st) total (skippedFiles st + 1).

(** One iteration of the loop. *)
Definition visit (maxSize maxFiles : Z) (st : Progress) (e : ZipEntry)
  : Progress :=
  if dir e then st
  else if Upload.shouldIgnore (relativePath e) then st
  else if negb (existsb (endsWith (relativePath e)) CODE_EXTENSIONS)
  then st
  else match entryText e with
       | None => skipped st (totalSize st)
       | Some content =>
           if ((len content =? 0) || (len content >? 5 * 1024 * 1024))%bool
           then skipped st (totalSize st)
           else
             let total := totalSize st + len content in
             if total >? maxSize * 1024 * 1024 then skipped st total
             else
               let fileName := fileNameOf (relativePath e) in
               let pushed :=
                 processedFiles st
                 ++ [mkCodeFile fileName (relativePath e) content
                       (detectLanguage fileName) (len content)] in
               if Z.of_nat (length pushed) >=? maxFiles
               then mkProgress pushed total (skippedFiles st + 1)
               else mkProgress pushed total (skippedFiles st)
       end.

Definition visitAll (maxSize maxFiles : Z) (st : Progress)
  (entries : list ZipEntry) : Progress :=
  fold_left (visit maxSize maxFiles) entries st.

(** The files passed to [onFilesReady], or the error passed to
    [setError]. *)
Definition handleZipUpload (maxSize maxFiles : Z) (file : Archive)
  : ZipError + list CodeFile :=
  if negb (endsWith (archiveName file) ".zip") then inl PleaseUploadZip
  else if archiveSize file >? maxSize * 1024 * 1024
  then inl (ZipSizeExceeds maxSize)
  else match zipFiles file with
       | None => inl LoadFailed
       | Some entries =>
           match processedFiles
                   (visitAll maxSize maxFiles (mkProgress [] 0 0) entries)
           with
           | [] => inl NoValidCodeFilesInZip
           | files => inr files
           end
       end.

End ZipUpload.

Module ZipUploadFacts.
Import JsString FolderUpload ZipUpload.
Import FolderUploadFacts.

Lemma zip_sameFiles (maxSize m1 m2 : Z) (a b : Progress) (e : ZipEntry) :
  sameFiles a b ->
  sameFiles (visit maxSize m1 a e) (visit maxSize m2 b e).
Proof.
  intros [Hp Ht]. unfold visit, skipped. cbv zeta. rewrite Hp, Ht.
  destruct (dir e); [split; assumption|].
  destruct (Upload.shouldIgnore (relativePath e)); [split; assumption|].
  destruct (negb _); [split; assumption|].
  destruct (entryText e) as [content|]; [|split; reflexivity].
  destruct (_ || _)%bool; [split; reflexivity|].
  destruct (_ >? maxSize * 1024 * 1024); [split; reflexivity|].
  destruct (_ >=? m1), (_ >=? m2); split; reflexivity.
Qed.

Lemma zipAll_sameFiles (maxSize m1 m2 : Z) (entries : list ZipEntry) :
  forall a b,
    sameFiles a b ->
    sameFiles (visitAll maxSize m1 a entries)
              (visitAll maxSize m2 b entries).
Proof.
  unfold visitAll.
  induction entries as [|e rest IH]; intros a b Hab; simpl; [exact Hab|].
  apply IH, zip_sameFiles, Hab.
Qed.

(** What holds of the state on the way: the files come from entries that
    pass the filters, and their sizes add up to the running total as long
    as that is within the limit. *)
Record Extracted (maxSize : Z) (st : Progress) : Prop := mkExtracted {
  ext_files :
    Forall (fun f =>
              Upload.shouldIgnore (path f) = false
              /\ existsb (endsWith (path f)) CODE_EXTENSIONS = true
              /\ name f = fileNameOf (path f)
              /\ size f = len (content f)
              /\ 0 < size f <= 5 * 1024 * 1024
              /\ language f = detectLanguage (name f))
           (processedFiles st);
  ext_sum : sumSizes (processedFiles st) <= totalSize st;
  ext_total :
    sumSizes (processedFiles st) <= Z.max 0 (maxSize * 1024 * 1024)
}.

Lemma len_nonneg (s : string) : 0 <= len s.
Proof. unfold len. lia. Qed.

Lemma visit_Extracted (maxSize maxFiles : Z) (st : Progress) (e : ZipEntry) :
  Extracted maxSize st -> Extracted maxSize (visit maxSize maxFiles st e).
Proof.
  intros [Hf Hs Ht]. unfold visit, skipped. cbv zeta.
  destruct (dir e); [split; assumption|].
  destruct (Upload.shouldIgnore (relativePath e)) eqn:Ei;
    [split; assumption|].
  destruct (existsb (endsWith (relativePath e)) CODE_EXTENSIONS) eqn:Ec;
    cbn [negb]; [|split; assumption].
  destruct (entryText e) as [text|]; [|split; assumption].
  pose proof (len_nonneg text) as Hlen.
  destruct (Z.eqb_spec (len text) 0); cbn [orb]; [split; assumption|].
  destruct (Z.gtb_spec (len text) (5 * 1024 * 1024));
    [split; assumption|].
  destruct (Z.gtb_spec (totalSize st + len text)
              (maxSize * 1024 * 1024)).
  - split; cbn [processedFiles totalSize]; [exact Hf | lia | exact Ht].
  - assert (Hnew : forall k,
               Extracted maxSize
                 (mkProgress
                    (processedFiles st
                     ++ [mkCodeFile (fileNameOf (relativePath e))
                           (relativePath e) text
                           (detectLanguage (fileNameOf (relativePath e)))
                           (len text)])
                    (totalSize st + len text) k)).
    { intros k. split; cbn [processedFiles totalSize].
      - apply Forall_app. split; [exact Hf|]. constructor; [|constructor].
        cbn [path name size language content].
        repeat split; auto; lia.
      - rewrite sumSizes_snoc. cbn [size]. lia.
      - rewrite sumSizes_snoc. cbn [size]. lia. }
    destruct (_ >=? maxFiles); apply Hnew.
Qed.

Lemma visitAll_Extracted (maxSize maxFiles : Z) (entries : list ZipEntry) :
  forall st,
    Extracted maxSize st ->
    Extracted maxSize (visitAll maxSize maxFiles st entries).
Proof.
  unfold visitAll.
  induction entries as [|e rest IH]; intros st Hst; simpl; [exact Hst|].
  apply IH, visit_Extracted, Hst.
Qed.

(** Past the limit the loop no longer adds a file. *)
Lemma visit_exhausted (maxSize maxFiles : Z) (st : Progress) (e : ZipEntry) :
  maxSize * 1024 * 1024 < totalSize st ->
  processedFiles (visit maxSize maxFiles st e) = processedFiles st
  /\ maxSize * 1024 * 1024 < totalSize (visit maxSize maxFiles st e).
Proof.
  intros Hover. unfold visit, skipped. cbv zeta.
  destruct (dir e); [split; [reflexivity | assumption]|].
  destruct (Upload.shouldIgnore (relativePath e));
    [split; [reflexivity | assumption]|].
  destruct (negb _); [split; [reflexivity | assumption]|].
  destruct (entryText e) as [content|];
    [|split; [reflexivity | assumption]].
  pose proof (len_nonneg content) as Hlen.
  destruct (_ || _)%bool; [split; [reflexivity | assumption]|].
  destruct (Z.gtb_spec (totalSize st + len content)
              (maxSize * 1024 * 1024)); [|lia].
  split; [reflexivity | cbn [totalSize]; lia].
Qed.

Lemma visitAll_exhausted (maxSize maxFiles : Z) (entries : list ZipEntry) :
  forall st,
    maxSize * 1024 * 1024 < totalSize st ->
    processedFiles (visitAll maxSize maxFiles st entries)
    = processedFiles st.
Proof.
  unfold visitAll.
  induction entries as [|e rest IH]; intros st Hover; simpl; [reflexivity|].
  destruct (visit_exhausted maxSize maxFiles st e Hover) as [Hp Ht].
  rewrite (IH _ Ht). exact Hp.
Qed.
End ZipUploadFacts.

(** The file-count limit of the ZIP upload never takes effect either:
    whatever [maxFiles] is, the handler hands over the same files or
    reports the same error. *)
Theorem zip_upload_ignores_maxFiles (maxSize maxFiles maxFiles' : Z)
  (file : ZipUpload.Archive) :
  ZipUpload.handleZipUpload maxSize maxFiles file
  = ZipUpload.handleZipUpload maxSize maxFiles' file.
Proof.
  unfold ZipUpload.handleZipUpload.
  destruct (negb _); [reflexivity|].
  destruct (_ >? _); [reflexivity|].
  destruct (ZipUpload.zipFiles file) as [entries|]; [|reflexivity].
  destruct (ZipUploadFacts.zipAll_sameFiles maxSize maxFiles maxFiles'
              entries (FolderUpload.mkProgress [] 0 0)
              (FolderUpload.mkProgress [] 0 0) (conj eq_refl eq_refl))
    as [-> _].
  reflexivity.
Qed.

(** When the ZIP upload hands files over, the archive is named [*.zip]
    and is at most [maxSize] MiB; there is at least one file; each has a
    path the filter lets through and that ends in a code extension, the
    last path segment as its name, the length of its text as its size,
    between 1 and 5 Mi characters, and the tag of its extension; and the
    sizes add up to at most [maxSize] MiB. *)
Theorem zip_upload_hands_over_filtered_files (maxSize maxFiles : Z)
  (file : ZipUpload.Archive) (files : list CodeFile) :
  ZipUpload.handleZipUpload maxSize maxFiles file = inr files ->
  JsString.endsWith (ZipUpload.archiveName file) ".zip" = true
  /\ ZipUpload.archiveSize file <= maxSize * 1024 * 1024
  /\ files <> []
  /\ Forall (fun f =>
               Upload.shouldIgnore (path f) = false
               /\ existsb (JsString.endsWith (path f))
                    FolderUpload.CODE_EXTENSIONS = true
               /\ name f = ZipUpload.fileNameOf (path f)
               /\ size f = JsString.len (content f)
               /\ 0 < size f <= 5 * 1024 * 1024
               /\ language f = FolderUpload.detectLanguage (name f))
            files
  /\ FolderUpload.sumSizes files <= Z.max 0 (maxSize * 1024 * 1024).
Proof.
  unfold ZipUpload.handleZipUpload.
  destruct (JsString.endsWith (ZipUpload.archiveName file) ".zip");
    cbn [negb]; [|discriminate].
  destruct (Z.gtb_spec (ZipUpload.archiveSize file) (maxSize * 1024 * 1024));
    [discriminate|].
  destruct (ZipUpload.zipFiles file) as [entries|]; [|discriminate].
  assert (Hext : ZipUploadFacts.Extracted maxSize
                   (ZipUpload.visitAll maxSize maxFiles
                      (FolderUpload.mkProgress [] 0 0) entries)).
  { apply ZipUploadFacts.visitAll_Extracted.
    split; cbn; [constructor | lia | lia]. }
  destruct Hext as [Hf _ Ht].
  destruct (FolderUpload.processedFiles _) as [|f fs]; [discriminate|].
  intros [= <-]. split; [reflexivity|]. split; [lia|].
  split; [discriminate|]. split; [exact Hf | exact Ht].
Qed.

(** An archive with a directory entry, an ignored path and two sources. *)
Definition sampleArchive : ZipUpload.Archive :=
  ZipUpload.mkArchive "shop.zip" 400
    (Some [ZipUpload.mkZipEntry "shop/" true None;
           ZipUpload.mkZipEntry "shop/node_modules/x.js" false
             (Some "x = 1");
           ZipUpload.mkZipEntry "shop/src/Order.java" false
             (Some "class Order {}");
           ZipUpload.mkZipEntry "shop/src/Empty.java" false (Some "");
           ZipUpload.mkZipEntry "Item.java" false (Some "class Item {}")]).

Lemma zip_upload_witness :
  ZipUpload.handleZipUpload 50 1 sampleArchive
  = inr [mkCodeFile "Order.java" "shop/src/Order.java" "class Order {}"
           "java" 14;
         mkCodeFile "Item.java" "Item.java" "class Item {}" "java" 13]
  /\ FolderUpload.sumSizes
       [mkCodeFile "Order.java" "shop/src/Order.java" "class Order {}"
          "java" 14;
        mkCodeFile "Item.java" "Item.java" "class Item {}" "java" 13]
     <= Z.max 0 (50 * 1024 * 1024).
Proof.
  assert (Hr : ZipUpload.handleZipUpload 50 1 sampleArchive
               = inr [mkCodeFile "Order.java" "shop/src/Order.java"
                        "class Order {}" "java" 14;
                      mkCodeFile "Item.java" "Item.java" "class Item {}"
                        "java" 13]) by reflexivity.
  split; [exact Hr|].
  apply (zip_upload_hands_over_filtered_files 50 1 sampleArchive _ Hr).
Defined.

(** Once the running total of the ZIP upload has passed the limit, no
    later entry is handed over: the files are those collected before.
    (The folder upload ends with an error at that point.) *)
Theorem zip_upload_stops_collecting_past_the_limit (maxSize maxFiles : Z)
  (before after : list ZipUpload.ZipEntry) :
  maxSize * 1024 * 1024
  < FolderUpload.totalSize
      (ZipUpload.visitAll maxSize maxFiles (FolderUpload.mkProgress [] 0 0)
         before) ->
  FolderUpload.processedFiles
    (ZipUpload.visitAll maxSize maxFiles (FolderUpload.mkProgress [] 0 0)
       (before ++ after))
  = FolderUpload.processedFiles
      (ZipUpload.visitAll maxSize maxFiles (FolderUpload.mkProgress [] 0 0)
         before).
Proof.
  intros Hover. unfold ZipUpload.visitAll. rewrite fold_left_app.
  apply (ZipUploadFacts.visitAll_exhausted maxSize maxFiles after _ Hover).
Qed.

(** A text of [n] spaces, built by iteration so that its length is known
    without writing it out. *)
Definition filler (n : positive) : string :=
  Pos.iter (String " "%char) EmptyString n.

Module FillerFacts.
Import JsString FolderUpload ZipUpload.

Lemma len_String (c : ascii) (s : string) : len (String c s) = len s + 1.
Proof. unfold len. cbn [String.length]. lia. Qed.

Lemma len_iter (c : ascii) (n : positive) (s : string) :
  len (Pos.iter (String c) s n) = len s + Z.pos n.
Proof.
  induction n as [|n IH] using Pos.peano_ind.
  - cbn [Pos.iter]. apply len_String.
  - rewrite Pos.iter_succ, len_String, IH. lia.
Qed.

Lemma len_filler (n : positive) : len (filler n) = Z.pos n.
Proof. unfold filler. rewrite len_iter. reflexivity. Qed.

(** The entry whose text takes the running total past the limit is
    skipped, and the total stays raised. *)
Lemma visit_overflow (maxSize maxFiles : Z) (st : Progress) (e : ZipEntry)
  (text : string) :
  dir e = false ->
  Upload.shouldIgnore (relativePath e) = false ->
  existsb (endsWith (relativePath e)) CODE_EXTENSIONS = true ->
  entryText e = Some text ->
  0 < len text <= 5 * 1024 * 1024 ->
  maxSize * 1024 * 1024 < totalSize st + len text ->
  visit maxSize maxFiles st e = skipped st (totalSize st + len text).
Proof.
  intros Hd Hi Hc Ht Hlen Hover. unfold visit. rewrite Hd, Hi, Hc, Ht.
  cbn [negb]. cbv zeta.
  destruct (Z.eqb_spec (len text) 0); [lia|].
  destruct (Z.gtb_spec (len text) (5 * 1024 * 1024)); [lia|].
  cbn [orb].
  destruct (Z.gtb_spec (totalSize st + len text) (maxSize * 1024 * 1024));
    [reflexivity | lia].
Qed.
End FillerFacts.

(** A small source, a source of 1048570 characters, and another small
    source. *)
Definition orderEntry : ZipUpload.ZipEntry :=
  ZipUpload.mkZipEntry "shop/src/Order.java" false (Some "class Order {}").

Definition bulkEntry : ZipUpload.ZipEntry :=
  ZipUpload.mkZipEntry "shop/src/Bulk.java" false (Some (filler 1048570)).

Definition itemEntry : ZipUpload.ZipEntry :=
  ZipUpload.mkZipEntry "shop/src/Item.java" false (Some "class Item {}").

(** With a limit of 1 MiB the first source is collected, the second one
    takes the total past the limit and is skipped, and the third one,
    which would fit beside the first, is dropped as well. *)
Lemma zip_upload_stops_witness :
  1 * 1024 * 1024
  < FolderUpload.totalSize
      (ZipUpload.visitAll 1 10 (FolderUpload.mkProgress [] 0 0)
         [orderEntry; bulkEntry])
  /\ FolderUpload.processedFiles
       (ZipUpload.visitAll 1 10 (FolderUpload.mkProgress [] 0 0)
          [orderEntry; bulkEntry])
     = [mkCodeFile "Order.java" "shop/src/Order.java" "class Order {}"
          "java" 14]
  /\ FolderUpload.processedFiles
       (ZipUpload.visitAll 1 10 (FolderUpload.mkProgress [] 0 0)
          ([orderEntry; bulkEntry] ++ [itemEntry]))
     = [mkCodeFile "Order.java" "shop/src/Order.java" "class Order {}"
          "java" 14]
  /\ ZipUpload.visitAll 1 10 (FolderUpload.mkProgress [] 0 0)
       [orderEntry; itemEntry]
     = FolderUpload.mkProgress
         [mkCodeFile "Order.java" "shop/src/Order.java" "class Order {}"
            "java" 14;
          mkCodeFile "Item.java" "shop/src/Item.java" "class Item {}"
            "java" 13] 27 0.
Proof.
  assert (Hstate :
            ZipUpload.visitAll 1 10 (FolderUpload.mkProgress [] 0 0)
              [orderEntry; bulkEntry]
            = FolderUpload.mkProgress
                [mkCodeFile "Order.java" "shop/src/Order.java"
                   "class Order {}" "java" 14]
                (14 + 1048570) 1).
  { unfold ZipUpload.visitAll. cbn [fold_left].
    change (ZipUpload.visit 1 10 (FolderUpload.mkProgress [] 0 0) orderEntry)
      with (FolderUpload.mkProgress
              [mkCodeFile "Order.java" "shop/src/Order.java"
                 "class Order {}" "java" 14] 14 0).
    assert (Hlen : 0 < JsString.len (filler 1048570) <= 5 * 1024 * 1024)
      by (rewrite FillerFacts.len_filler; lia).
    assert (Hsum : 1 * 1024 * 1024 < 14 + JsString.len (filler 1048570))
      by (rewrite FillerFacts.len_filler; lia).
    rewrite (FillerFacts.visit_overflow 1 10
               (FolderUpload.mkProgress
                  [mkCodeFile "Order.java" "shop/src/Order.java"
                     "class Order {}" "java" 14] 14 0)
               bulkEntry (filler 1048570)
               eq_refl eq_refl eq_refl eq_refl Hlen Hsum).
    unfold ZipUpload.skipped.
    cbn [FolderUpload.processedFiles FolderUpload.totalSize
         FolderUpload.skippedFiles].
    rewrite FillerFacts.len_filler. reflexivity. }
  assert (Hover :
            1 * 1024 * 1024
            < FolderUpload.totalSize
                (ZipUpload.visitAll 1 10 (FolderUpload.mkProgress [] 0 0)
                   [orderEntry; bulkEntry])).
  { rewrite Hstate. cbn [FolderUpload.totalSize]. lia. }
  split; [exact Hover|].
  split; [rewrite Hstate; reflexivity|].
  split; [|reflexivity].
  rewrite (zip_upload_stops_collecting_past_the_limit 1 10
             [orderEntry; bulkEntry] [itemEntry] Hover).
  rewrite Hstate. reflexivity.
Defined.
